(** * Provider abstraction and orchestration runtime

    A shallow embedding of the provider layer of the CLI:

    - [src/providers/base.ts]: the unified contract (models, chat
      messages, status, detection results, [ProviderError]);
    - [src/providers/index.ts]: the provider table, [createProvider],
      [getAvailableProviders], [isValidProvider];
    - [src/providers/groq.ts], [ollama.ts], [lmstudio.ts]: the three
      adapters;
    - [src/core/provider-manager.ts]: [ProviderManager].

    Asynchronous methods are state-passing functions: a call takes the
    state, returns a value or a thrown exception, and the state it left
    behind.  Calls to [logger] have no effect on that state and are left
    out. *)

From Stdlib Require Import ZArith Lia List String Ascii DecimalString.
From Stdlib Require Import Sorting.Sorted Sorting.Permutation.
From stdpp Require Import base gmap strings list fin_maps.

Local Open Scope string_scope.

(** ** JavaScript strings and truthiness

    Strings are sequences of 8-bit characters, text beyond ASCII being
    held in an 8-bit encoding.  [String.prototype.toLowerCase] is
    computed by the platform from the Unicode tables and depends on
    the context of a letter: it is a parameter of the functions that
    call it ([toLowerCase] of [Services] for the adapters, an argument
    of [findModels]).  On ASCII text it is [ascii_lowercase], which
    folds the letters A-Z and leaves every other character alone. *)

Definition lower_ascii (c : ascii) : ascii :=
  let n := nat_of_ascii c in
  if (65 <=? n)%nat && (n <=? 90)%nat then ascii_of_nat (n + 32) else c.

Fixpoint ascii_lowercase (s : string) : string :=
  match s with
  | EmptyString => EmptyString
  | String c t => String (lower_ascii c) (ascii_lowercase t)
  end.

(** [s.startsWith(p)] *)
Definition startsWith (s p : string) : bool := String.prefix p s.

(** [s.includes(sub)]: [sub] starts at some position of [s]. *)
Fixpoint includes (s sub : string) : bool :=
  startsWith s sub ||
  match s with
  | EmptyString => false
  | String _ t => includes t sub
  end.

(** Truthiness of a string and of an optional string
    ([undefined], [null] and [''] are falsy). *)
Definition truthy_string (s : string) : bool := negb (String.eqb s EmptyString).

Definition truthy_ostring (o : option string) : bool :=
  match o with
  | Some s => truthy_string s
  | None => false
  end.

(** Truthiness of an optional number ([undefined] and [0] are falsy). *)
Definition truthy_onum (o : option Z) : bool :=
  match o with
  | Some n => negb (n =? 0)%Z
  | None => false
  end.

(** [a || b] on optional strings. *)
Definition or_string (a : option string) (b : string) : string :=
  match a with
  | Some s => if truthy_string s then s else b
  | None => b
  end.

(** [a || 0] on optional numbers. *)
Definition or_zero (a : option Z) : Z :=
  match a with
  | Some n => n
  | None => 0%Z
  end.

(** The double-quote character and the line feed. *)
Definition dquote : string := String (ascii_of_nat 34) EmptyString.

Definition newline : string := String (ascii_of_nat 10) EmptyString.

(** Template-literal rendering of an integer. *)
Definition string_of_Z (n : Z) : string := NilZero.string_of_int (Z.to_int n).

(** ** Errors and outcomes *)

(** An [Error] object: its [name] and [message], and for a
    [ProviderError] the [provider] and [code] it carries. *)
Record JsError := mkJsError {
  e_name : string;
  e_message : string;
  e_provider : option string;
  e_code : option string
}.

(** What a [throw] can carry: an [Error] or any other value. *)
Inductive Thrown :=
| ThrownError (e : JsError)
| ThrownValue (v : string).

Definition Error (message : string) : Thrown :=
  ThrownError (mkJsError "Error" message None None).

(** [new ProviderError(message, provider, code)] *)
Definition ProviderError (message provider code : string) : Thrown :=
  ThrownError (mkJsError "ProviderError" message (Some provider) (Some code)).

(** The rejection of an aborted [fetch]. *)
Definition AbortError : Thrown :=
  ThrownError (mkJsError "AbortError" "The user aborted a request." None None).

(** [error instanceof Error && error.name === 'AbortError'] *)
Definition isAbortError (t : Thrown) : bool :=
  match t with
  | ThrownError e => String.eqb (e_name e) "AbortError"
  | ThrownValue _ => false
  end.

(** [error instanceof Error ? error.message : fallback] *)
Definition message_or (t : Thrown) (fallback : string) : string :=
  match t with
  | ThrownError e => e_message e
  | ThrownValue _ => fallback
  end.

(** The settled result of a call: a value, or a thrown exception. *)
Inductive Res (A : Type) :=
| Ok (a : A)
| Throw (t : Thrown).

Arguments Ok {A} a.
Arguments Throw {A} t.

Definition is_ok {A} (r : Res A) : bool :=
  match r with
  | Ok _ => true
  | Throw _ => false
  end.

(** A computation over a state [S]. *)
Definition M (S A : Type) : Type := S -> Res A * S.

Definition ret {S A} (a : A) : M S A := fun s => (Ok a, s).

Definition throw {S A} (t : Thrown) : M S A := fun s => (Throw t, s).

Definition bind {S A B} (m : M S A) (k : A -> M S B) : M S B :=
  fun s =>
    match m s with
    | (Ok a, s') => k a s'
    | (Throw t, s') => (Throw t, s')
    end.

(** [try { m } catch (error) { h error }]: the handler runs in the state
    the body left behind. *)
Definition try_catch {S A} (m : M S A) (h : Thrown -> M S A) : M S A :=
  fun s =>
    match m s with
    | (Ok a, s') => (Ok a, s')
    | (Throw t, s') => h t s'
    end.

Definition gets {S A} (f : S -> A) : M S A := fun s => (Ok (f s), s).

Definition modify {S} (f : S -> S) : M S unit := fun s => (Ok tt, f s).

Declare Scope js_scope.
Delimit Scope js_scope with js.

Notation "x <- m ;; k" := (bind m (fun x => k))
  (at level 100, m at next level, right associativity) : js_scope.
Notation "m ;;; k" := (bind m (fun _ => k))
  (at level 100, k at level 200, right associativity) : js_scope.

(** ** The unified contract ([base.ts]) *)

(** [ProviderName = keyof typeof PROVIDERS] *)
Inductive ProviderName := groq | ollama | lmstudio.

#[global] Instance ProviderName_eq_dec : EqDecision ProviderName.
Proof. solve_decision. Defined.

Definition ProviderName_code (n : ProviderName) : nat :=
  match n with
  | groq => 0
  | ollama => 1
  | lmstudio => 2
  end.

Definition ProviderName_decode (k : nat) : option ProviderName :=
  match k with
  | 0 => Some groq
  | 1 => Some ollama
  | 2 => Some lmstudio
  | _ => None
  end.

#[global] Instance ProviderName_countable : Countable ProviderName.
Proof.
  apply (inj_countable ProviderName_code ProviderName_decode).
  intros []; reflexivity.
Defined.

(** The key of [PROVIDERS] a name stands for; also the adapter's
    [name] field. *)
Definition provider_key (n : ProviderName) : string :=
  match n with
  | groq => "groq"
  | ollama => "ollama"
  | lmstudio => "lmstudio"
  end.

(** [getAvailableProviders]: [Object.keys(PROVIDERS)] *)
Definition getAvailableProviders : list ProviderName := [groq; ollama; lmstudio].

(** [isValidProvider]: [name in PROVIDERS], on the table's own keys. *)
Definition isValidProvider (name : string) : bool :=
  existsb (fun n => String.eqb name (provider_key n)) getAvailableProviders.

Record Model := mkModel {
  m_id : string;
  m_name : string;
  m_description : option string;
  m_contextLength : option Z;
  m_supportsFunctions : option bool;
  m_size : option Z;
  m_format : option string;
  m_family : option string;
  m_ownedBy : option string;
  m_created : option string
}.

Inductive Role := system | user | assistant | tool.

Definition role_string (r : Role) : string :=
  match r with
  | system => "system"
  | user => "user"
  | assistant => "assistant"
  | tool => "tool"
  end.

(** Values of type [any] (tool calls, tool schemas) are only copied by
    the code; they are carried as text. *)
Record ChatMessage := mkChatMessage {
  msg_role : Role;
  msg_content : string;
  msg_tool_calls : option (list string);
  msg_tool_call_id : option string
}.

(** A reference to an array in the object store. *)
Definition loc := nat.

(** Numbers that are only copied ([temperature], [max_tokens]) are
    carried as integers. *)
Record ChatOptions := mkChatOptions {
  co_model : string;
  co_messages : loc;
  co_tools : option (list string);
  co_tool_choice : option string;
  co_temperature : option Z;
  co_max_tokens : option Z;
  co_stream : option bool
}.

Record ResponseMessage := mkResponseMessage {
  rm_role : string;
  rm_content : option string;
  rm_tool_calls : option (list string)
}.

Record Choice := mkChoice {
  ch_message : ResponseMessage;
  ch_finish_reason : string
}.

Record Usage := mkUsage {
  prompt_tokens : Z;
  completion_tokens : Z;
  total_tokens : Z
}.

Record Performance := mkPerformance {
  total_duration : option Z;
  load_duration : option Z;
  prompt_eval_duration : option Z;
  eval_duration : option Z
}.

Record ChatResponse := mkChatResponse {
  cr_id : string;
  cr_choices : list Choice;
  cr_usage : option Usage;
  cr_performance : option Performance
}.

Record ProviderStatus := mkProviderStatus {
  st_available : bool;
  st_connected : bool;
  st_version : option string;
  st_endpoint : option string;
  st_error : option string;
  st_modelsLoaded : option Z
}.

(** [provider] is always one of the keys of [PROVIDERS]. *)
Record ProviderDetectionResult := mkDetection {
  d_provider : ProviderName;
  d_available : bool;
  d_status : ProviderStatus;
  d_models : option (list Model)
}.

(** The caller's [AbortSignal], seen from the moment [chat] is entered:
    already aborted, aborted [t] milliseconds later, or never. *)
Inductive AbortSignal :=
| AlreadyAborted
| AbortsAfter (t : N)
| NeverAborts.

(** An adapter object: the class it was built from (its [name]) and
    its identity. *)
Record Instance := mkInstance {
  inst_name : ProviderName;
  inst_id : nat
}.

#[global] Instance Instance_eq_dec : EqDecision Instance.
Proof. solve_decision. Defined.

(** The abstract class [LLMProvider], over the state [W] that adapters
    act on (their own fields and the services they talk to). *)
Class LLMProvider (W : Type) := {
  isAvailable : Instance -> M W bool;
  getStatus : Instance -> M W ProviderStatus;
  listModels : Instance -> M W (list Model);
  chat : Instance -> ChatOptions -> option AbortSignal -> M W ChatResponse;
  supportsTools : Instance -> bool;
  initialize : Instance -> M W unit;
  cleanup : Instance -> M W unit
}.

(** ** [ProviderManager] ([provider-manager.ts]) *)

(** [priority] is an integer here; the optional [config] record, which
    the manager never reads, is left out. *)
Record ProviderConfig := mkConfig {
  name : ProviderName;
  enabled : bool;
  priority : Z
}.

(** The adapter methods the manager calls. *)
Inductive Method := MIsAvailable | MGetStatus | MListModels | MInitialize | MCleanup.

#[global] Instance Method_eq_dec : EqDecision Method.
Proof. solve_decision. Defined.

(** One call made by the manager on an adapter: the adapter, the
    method, whether it returned ([true]) or threw ([false]), and the
    value of [this.activeProvider] when the call was made. *)
Record Call := mkCall {
  call_target : Instance;
  call_method : Method;
  call_returned : bool;
  call_active : option Instance
}.

(** The manager's fields, the allocation counter for new adapter
    objects, the log of adapter calls made so far, and the adapters'
    state. *)
Record Manager (W : Type) := mkManager {
  providers : gmap ProviderName Instance;
  activeProvider : option Instance;
  providerConfigs : list ProviderConfig;
  next_object : nat;
  calls : list Call;
  world : W
}.

Arguments mkManager {W}.
Arguments providers {W}.
Arguments activeProvider {W}.
Arguments providerConfigs {W}.
Arguments next_object {W}.
Arguments calls {W}.
Arguments world {W}.

(** [initializeDefaultConfigs] *)
Definition initializeDefaultConfigs : list ProviderConfig :=
  [ mkConfig groq true 1; mkConfig ollama true 2; mkConfig lmstudio true 3 ].

(** [new ProviderManager()] over adapter state [w]. *)
Definition new_manager {W} (w : W) : Manager W :=
  mkManager ∅ None initializeDefaultConfigs 0 [] w.

(** [Array.prototype.sort((a, b) => a.priority - b.priority)]: a stable
    sort, ascending. *)
Fixpoint insert_by_priority (c : ProviderConfig) (l : list ProviderConfig)
  : list ProviderConfig :=
  match l with
  | [] => [c]
  | d :: l' =>
      if (priority c <=? priority d)%Z then c :: l
      else d :: insert_by_priority c l'
  end.

Fixpoint sort_by_priority (l : list ProviderConfig) : list ProviderConfig :=
  match l with
  | [] => []
  | c :: l' => insert_by_priority c (sort_by_priority l')
  end.

(** [detection.find(d => d.provider === name)] *)
Definition find_detection (detection : list ProviderDetectionResult) (n : ProviderName)
  : option ProviderDetectionResult :=
  List.find (fun d => bool_decide (d_provider d = n)) detection.

(** [result?.available && result.status.connected] *)
Definition usable (detection : list ProviderDetectionResult) (config : ProviderConfig) : bool :=
  match find_detection detection (name config) with
  | Some result => d_available result && st_connected (d_status result)
  | None => false
  end.

(** A model with the name of the provider that listed it:
    [{...model, provider: result.provider}]. *)
Record ProviderModel := mkProviderModel {
  pm_model : Model;
  pm_provider : string
}.

(** The predicate of the [filter] in [findModels]. *)
Definition matches_query (lowercase : string -> string) (lowerQuery : string)
    (model : ProviderModel) : bool :=
  includes (lowercase (m_id (pm_model model))) lowerQuery
  || includes (lowercase (m_name (pm_model model))) lowerQuery
  || match m_description (pm_model model) with
     | Some d => truthy_string d && includes (lowercase d) lowerQuery
     | None => false
     end
  || includes (lowercase (pm_provider model)) lowerQuery.

(** The two nested loops of [getAllModels]. *)
Definition collect_models (detection : list ProviderDetectionResult) : list ProviderModel :=
  flat_map
    (fun result =>
       match d_models result with
       | Some models =>
           map (fun model => mkProviderModel model (provider_key (d_provider result))) models
       | None => []
       end)
    detection.

Section ProviderManager.

Context {W : Type} `{LLMProvider W}.

Local Open Scope js_scope.

Definition set_world (w : W) (s : Manager W) : Manager W :=
  mkManager (providers s) (activeProvider s) (providerConfigs s)
            (next_object s) (calls s) w.

Definition set_activeProvider (a : option Instance) (s : Manager W) : Manager W :=
  mkManager (providers s) a (providerConfigs s) (next_object s) (calls s) (world s).

Definition log_call (c : Call) (s : Manager W) : Manager W :=
  mkManager (providers s) (activeProvider s) (providerConfigs s)
            (next_object s) (calls s ++ [c]) (world s).

(** [await provider.method()]: run the adapter on its state and note
    the call. *)
Definition invoke {A} (mth : Method) (f : Instance -> M W A) (provider : Instance)
  : M (Manager W) A :=
  fun s =>
    let '(r, w) := f provider (world s) in
    (r, log_call (mkCall provider mth (is_ok r) (activeProvider s)) (set_world w s)).

(** [createProvider(name)]: a new object of the class registered
    under [name]. *)
Definition createProvider (n : ProviderName) : M (Manager W) Instance :=
  fun s =>
    (Ok (mkInstance n (next_object s)),
     mkManager (providers s) (activeProvider s) (providerConfigs s)
               (S (next_object s)) (calls s) (world s)).

Definition providers_set (n : ProviderName) (provider : Instance) : M (Manager W) unit :=
  modify (fun s =>
    mkManager (<[n := provider]> (providers s)) (activeProvider s) (providerConfigs s)
              (next_object s) (calls s) (world s)).

(** [getProviderInstance] *)
Definition getProviderInstance (n : ProviderName) : M (Manager W) Instance :=
  fun s =>
    match providers s !! n with
    | Some provider => (Ok provider, s)
    | None =>
        (provider <- createProvider n ;;
         providers_set n provider ;;;
         ret provider) s
    end.

(** The body of the loop of [detectProviders] for one name. *)
Definition detect_one (n : ProviderName) : M (Manager W) ProviderDetectionResult :=
  try_catch
    (provider <- getProviderInstance n ;;
     available <- invoke MIsAvailable isAvailable provider ;;
     status <- invoke MGetStatus getStatus provider ;;
     models <-
       (if st_connected status then
          try_catch
            (ms <- invoke MListModels listModels provider ;; ret (Some ms))
            (fun _ => ret None)
        else ret None) ;;
     ret (mkDetection n available status models))
    (fun error =>
       ret (mkDetection n false
              (mkProviderStatus false false None None
                 (Some (message_or error "Unknown error")) None)
              None)).

Fixpoint detect_loop (names : list ProviderName) (results : list ProviderDetectionResult)
  : M (Manager W) (list ProviderDetectionResult) :=
  match names with
  | [] => ret results
  | n :: rest =>
      d <- detect_one n ;;
      detect_loop rest (results ++ [d])
  end.

(** [detectProviders] *)
Definition detectProviders : M (Manager W) (list ProviderDetectionResult) :=
  detect_loop getAvailableProviders [].

(** The loop of [autoSelectProvider]: [return] leaves it, a failed
    [initialize] moves on to the next configuration. *)
Fixpoint autoSelect_loop (detection : list ProviderDetectionResult)
    (sortedConfigs : list ProviderConfig) : M (Manager W) (option Instance) :=
  match sortedConfigs with
  | [] => ret None
  | config :: rest =>
      if usable detection config then
        fun s =>
          match (provider <- getProviderInstance (name config) ;;
                 invoke MInitialize initialize provider ;;;
                 modify (set_activeProvider (Some provider)) ;;;
                 ret provider) s with
          | (Ok provider, s') => (Ok (Some provider), s')
          | (Throw _, s') => autoSelect_loop detection rest s'
          end
      else autoSelect_loop detection rest
  end.

(** [autoSelectProvider] *)
Definition autoSelectProvider : M (Manager W) (option Instance) :=
  detection <- detectProviders ;;
  configs <- gets providerConfigs ;;
  autoSelect_loop detection (sort_by_priority (List.filter enabled configs)).

(** [setActiveProvider] *)
Definition setActiveProvider (n : ProviderName) : M (Manager W) unit :=
  if negb (isValidProvider (provider_key n)) then
    throw (Error ("Invalid provider name: " ++ provider_key n))
  else
    provider <- getProviderInstance n ;;
    status <- invoke MGetStatus getStatus provider ;;
    if negb (st_connected status) then
      throw (Error ("Provider " ++ provider_key n ++ " is not available or connected"))
    else
      active <- gets activeProvider ;;
      match active with
      | Some current =>
          if bool_decide (current <> provider)
          then invoke MCleanup cleanup current
          else ret tt
      | None => ret tt
      end ;;;
      invoke MInitialize initialize provider ;;;
      modify (set_activeProvider (Some provider)).

(** [getActiveProvider] *)
Definition getActiveProvider : M (Manager W) (option Instance) :=
  gets activeProvider.

(** [getProvider] *)
Definition getProvider (n : ProviderName) : M (Manager W) Instance :=
  getProviderInstance n.

(** [getAllModels] *)
Definition getAllModels : M (Manager W) (list ProviderModel) :=
  detection <- detectProviders ;;
  ret (collect_models detection).

(** [findModels]; [lowercase] is [String.prototype.toLowerCase]. *)
Definition findModels (lowercase : string -> string) (query : string)
  : M (Manager W) (list ProviderModel) :=
  allModels <- getAllModels ;;
  let lowerQuery := lowercase query in
  ret (List.filter (matches_query lowercase lowerQuery) allModels).

(** The loop of [failover]. *)
Fixpoint failover_loop (detection : list ProviderDetectionResult)
    (sortedConfigs : list ProviderConfig) : M (Manager W) (option Instance) :=
  match sortedConfigs with
  | [] => ret None
  | config :: rest =>
      if usable detection config then
        fun s =>
          match setActiveProvider (name config) s with
          | (Ok _, s') => (Ok (activeProvider s'), s')
          | (Throw _, s') => failover_loop detection rest s'
          end
      else failover_loop detection rest
  end.

(** [config.enabled && config.name !== currentName] *)
Definition failover_candidate (currentName : option ProviderName) (config : ProviderConfig)
  : bool :=
  enabled config && bool_decide (Some (name config) <> currentName).

(** [failover] *)
Definition failover : M (Manager W) (option Instance) :=
  active <- gets activeProvider ;;
  let currentName := option_map inst_name active in
  match active with
  | Some current =>
      invoke MCleanup cleanup current ;;;
      modify (set_activeProvider None)
  | None => ret tt
  end ;;;
  detection <- detectProviders ;;
  configs <- gets providerConfigs ;;
  failover_loop detection
    (sort_by_priority (List.filter (failover_candidate currentName) configs)).

End ProviderManager.

(** ** The services behind the adapters

    What lies outside the program: the process environment, the clock,
    the Groq SDK client and the two local HTTP servers.  Every request
    is answered by the service as a function of the request and of the
    number of requests issued before it, so answers may change from one
    call to the next.  Replies carry bodies of the interface types the
    adapters cast them to; a body that cannot be read at that type is
    [None], and reading it throws. *)

Record Response (T : Type) := mkResponse {
  status : Z;
  statusText : string;
  text : string;
  json : option T
}.

Arguments mkResponse {T}.
Arguments status {T}.
Arguments statusText {T}.
Arguments text {T}.
Arguments json {T}.

(** What becomes of a [fetch] left alone: a reply or a network failure
    after [latency] milliseconds, or nothing at all. *)
Inductive FetchOutcome (T : Type) :=
| Replies (latency : N) (r : Response T)
| Fails (latency : N) (message : string)
| Hangs.

Arguments Replies {T}.
Arguments Fails {T}.
Arguments Hangs {T}.

(** What a call into the Groq SDK does. *)
Inductive SdkOutcome (T : Type) :=
| SdkReturns (v : T)
| SdkThrows (t : Thrown).

Arguments SdkReturns {T}.
Arguments SdkThrows {T}.

Record GroqModelInfo := mkGroqModelInfo { gm_id : string }.

Record GroqModelList := mkGroqModelList { gl_data : option (list GroqModelInfo) }.

Record GroqChatBody := mkGroqChatBody {
  gb_model : string;
  gb_messages : list ChatMessage;
  gb_tools : option (list string);
  gb_tool_choice : option string;
  gb_temperature : option Z;
  gb_max_tokens : option Z;
  gb_stream : bool
}.

Record GroqChatCompletion := mkGroqChatCompletion {
  gc_id : string;
  gc_choices : list Choice;
  gc_usage : option Usage
}.

Record OllamaDetails := mkOllamaDetails {
  parent_model : string;
  od_format : string;
  od_family : string;
  families : list string;
  parameter_size : string;
  quantization_level : string
}.

Record OllamaModel := mkOllamaModel {
  om_name : string;
  om_model : string;
  om_size : Z;
  digest : string;
  details : OllamaDetails;
  modified_at : string
}.

Record OllamaMessage := mkOllamaMessage {
  omsg_role : string;
  omsg_content : string;
  omsg_images : option (list string)
}.

Record OllamaChatResponse := mkOllamaChatResponse {
  oc_model : string;
  oc_created_at : string;
  oc_message : OllamaMessage;
  oc_done : bool;
  oc_total_duration : option Z;
  oc_load_duration : option Z;
  oc_prompt_eval_count : option Z;
  oc_prompt_eval_duration : option Z;
  oc_eval_count : option Z;
  oc_eval_duration : option Z
}.

Record OllamaOptions := mkOllamaOptions {
  oo_temperature : option Z;
  oo_num_predict : option Z
}.

(** The object that [JSON.stringify] turns into the request body. *)
Record OllamaChatRequest := mkOllamaChatRequest {
  or_model : string;
  or_messages : list OllamaMessage;
  or_stream : bool;
  or_options : OllamaOptions
}.

Record OllamaVersion := mkOllamaVersion { ov_version : option string }.

Record OllamaTags := mkOllamaTags { ot_models : list OllamaModel }.

Record LMStudioModel := mkLMStudioModel {
  lm_id : string;
  lm_object : string;
  lm_created : Z;
  lm_owned_by : string
}.

Record LMStudioModels := mkLMStudioModels { lms_data : list LMStudioModel }.

Record LMStudioMessage := mkLMStudioMessage {
  lmsg_role : string;
  lmsg_content : string
}.

Record LMStudioChoice := mkLMStudioChoice {
  lc_index : Z;
  lc_message : LMStudioMessage;
  lc_finish_reason : string
}.

Record LMStudioChatResponse := mkLMStudioChatResponse {
  lr_id : string;
  lr_object : string;
  lr_created : Z;
  lr_model : string;
  lr_choices : list LMStudioChoice;
  lr_usage : option Usage
}.

Record LMStudioChatRequest := mkLMStudioChatRequest {
  lq_model : string;
  lq_messages : list LMStudioMessage;
  lq_temperature : option Z;
  lq_max_tokens : option Z;
  lq_stream : bool
}.

Record Services := mkServices {
  (** [process.env.GROQ_API_KEY] *)
  env_GROQ_API_KEY : option string;
  (** [Date.now()] *)
  date_now : nat -> Z;
  (** [new Date(ms).toISOString()]; [None] when it throws a [RangeError] *)
  toISOString : Z -> option string;
  (** [s.toLowerCase()] *)
  toLowerCase : string -> string;
  (** [client.models.list()] *)
  groq_models_list : nat -> SdkOutcome GroqModelList;
  (** [client.chat.completions.create(body, { signal })] *)
  groq_chat_create : nat -> GroqChatBody -> option AbortSignal -> SdkOutcome GroqChatCompletion;
  (** [GET /api/version] *)
  ollama_version : nat -> FetchOutcome OllamaVersion;
  (** [GET /api/tags] *)
  ollama_tags : nat -> FetchOutcome OllamaTags;
  (** [POST /api/chat] *)
  ollama_chat : nat -> OllamaChatRequest -> FetchOutcome OllamaChatResponse;
  (** [GET /models] *)
  lmstudio_models : nat -> FetchOutcome LMStudioModels;
  (** [POST /chat/completions] *)
  lmstudio_chat : nat -> LMStudioChatRequest -> FetchOutcome LMStudioChatResponse
}.

(** The private fields of a [GroqProvider]: [client] (the key it was
    built with, or [null]) and [apiKey]. *)
Record GroqFields := mkGroqFields {
  client : option string;
  apiKey : option string
}.

(** Arrays in the object store. *)
Inductive HeapVal :=
| HMessages (l : list ChatMessage)
| HOllamaMessages (l : list OllamaMessage)
| HLMStudioMessages (l : list LMStudioMessage).

(** The state adapters act on: the services, the number of requests
    issued so far, the fields of the Groq adapters by object identity,
    and the object store. *)
Record World := mkWorld {
  services : Services;
  clock : nat;
  groq_fields : gmap nat GroqFields;
  heap : gmap loc HeapVal
}.

Definition tick (w : World) : World :=
  mkWorld (services w) (S (clock w)) (groq_fields w) (heap w).

Definition set_groq_fields (i : nat) (f : GroqFields) (w : World) : World :=
  mkWorld (services w) (clock w) (<[i := f]> (groq_fields w)) (heap w).

(** [new Array] holding [v]. *)
Definition alloc (v : HeapVal) : M World loc :=
  fun w =>
    let l := fresh (dom (heap w)) in
    (Ok l, mkWorld (services w) (clock w) (groq_fields w) (<[l := v]> (heap w))).

(** The message array behind [options.messages]. *)
Definition read_messages (l : loc) (w : World) : list ChatMessage :=
  match heap w !! l with
  | Some (HMessages ms) => ms
  | _ => []
  end.

(** A freshly constructed [GroqProvider] has [client = null] and
    [apiKey = null]. *)
Definition groq_get (p : Instance) (w : World) : GroqFields :=
  default (mkGroqFields None None) (groq_fields w !! inst_id p).

(** [fetch] under an [AbortController] whose [abort()] is called
    [abort_at] milliseconds after the request starts. *)
Definition fetch_result {T} (abort_at : N) (o : FetchOutcome T) : Res (Response T) :=
  match o with
  | Replies latency r =>
      if (latency <? abort_at)%N then Ok r else Throw AbortError
  | Fails latency message =>
      if (latency <? abort_at)%N
      then Throw (ThrownError (mkJsError "FetchError" message None None))
      else Throw AbortError
  | Hangs => Throw AbortError
  end.

Definition fetch {T} (endpoint : Services -> nat -> FetchOutcome T) (abort_at : N)
  : M World (Response T) :=
  fun w => (fetch_result abort_at (endpoint (services w) (clock w)), tick w).

Definition sdk_call {T} (endpoint : Services -> nat -> SdkOutcome T) : M World T :=
  fun w =>
    (match endpoint (services w) (clock w) with
     | SdkReturns v => Ok v
     | SdkThrows t => Throw t
     end, tick w).

(** [response.ok] *)
Definition response_ok {T} (r : Response T) : bool :=
  (200 <=? status r)%Z && (status r <=? 299)%Z.

(** [await response.json()] *)
Definition response_json {S T} (r : Response T) : M S T :=
  match json r with
  | Some v => ret v
  | None =>
      throw (ThrownError (mkJsError "SyntaxError" "Unexpected token in JSON" None None))
  end.

(** The moment [controller.abort()] runs: the timeout, or the caller's
    signal if it fires first.  The listener is added to the caller's
    signal after [chat] is entered; a signal that was aborted before
    that has already dispatched its 'abort' event and never calls it. *)
Definition abort_time (timeout : N) (abortSignal : option AbortSignal) : N :=
  match abortSignal with
  | Some (AbortsAfter t) => N.min timeout t
  | Some AlreadyAborted => timeout
  | Some NeverAborts => timeout
  | None => timeout
  end.

(** [`HTTP ${status}: ${rest}`] *)
Definition http_error_message (st : Z) (rest : string) : string :=
  "HTTP " ++ string_of_Z st ++ ": " ++ rest.

(** Lookup in an object literal used as a table. *)
Fixpoint table_get (table : list (string * Z)) (key : string) : option Z :=
  match table with
  | [] => None
  | (k, v) :: rest => if String.eqb k key then Some v else table_get rest key
  end.

(** The first entry, in [Object.entries] order, whose key passes [test]. *)
Definition table_first (table : list (string * Z)) (test : string -> bool) : option Z :=
  option_map snd (List.find (fun kv => test (fst kv)) table).

(** ** [GroqProvider] ([groq.ts]) *)

Module GroqProvider.

Local Open Scope js_scope.

Definition name : string := "groq".

(** [process.env.GROQ_API_KEY || this.apiKey] *)
Definition configured_key (p : Instance) (w : World) : option string :=
  if truthy_ostring (env_GROQ_API_KEY (services w))
  then env_GROQ_API_KEY (services w)
  else apiKey (groq_get p w).

Definition isAvailable (p : Instance) : M World bool :=
  fun w => (Ok (truthy_ostring (configured_key p w)), w).

Definition initialize (p : Instance) : M World unit :=
  fun w =>
    let key := configured_key p w in
    if negb (truthy_ostring key) then
      (Throw (ProviderError
         "Groq API key not found. Please set GROQ_API_KEY environment variable or use /login command."
         name "API_KEY_MISSING"), w)
    else
      (Ok tt, set_groq_fields (inst_id p) (mkGroqFields key (apiKey (groq_get p w))) w).

(** [if (!this.client) await this.initialize()] *)
Definition ensure_client (p : Instance) : M World unit :=
  fun w =>
    match client (groq_get p w) with
    | Some _ => (Ok tt, w)
    | None => initialize p w
    end.

(** [models.data?.[0]?.id] *)
Definition first_model_id (models : GroqModelList) : option string :=
  match gl_data models with
  | Some (m :: _) => Some (gm_id m)
  | _ => None
  end.

Definition getStatus (p : Instance) : M World ProviderStatus :=
  try_catch
    (hasApiKey <- isAvailable p ;;
     if negb hasApiKey then
       ret (mkProviderStatus false false None None (Some "API key not configured") None)
     else
       ensure_client p ;;;
       models <- sdk_call groq_models_list ;;
       ret (mkProviderStatus true true
              (Some (if truthy_ostring (first_model_id models) then "Connected" else "Unknown"))
              (Some "https://api.groq.com/openai/v1") None None))
    (fun error =>
       ret (mkProviderStatus true false None None
              (Some (message_or error "Connection failed")) None)).

Definition contextLengths : list (string * Z) :=
  [ ("llama3-8b-8192", 8192%Z);
    ("llama3-70b-8192", 8192%Z);
    ("mixtral-8x7b-32768", 32768%Z);
    ("gemma-7b-it", 8192%Z);
    ("gemma2-9b-it", 8192%Z) ].

(** [contextLengths[modelId] || 8192] *)
Definition getContextLength (modelId : string) : Z :=
  match table_get contextLengths modelId with
  | Some n => if (n =? 0)%Z then 8192%Z else n
  | None => 8192%Z
  end.

Definition toolSupportedModels : list string :=
  [ "llama3-8b-8192"; "llama3-70b-8192"; "mixtral-8x7b-32768";
    "gemma-7b-it"; "gemma2-9b-it" ].

Definition modelSupportsTools (modelId : string) : bool :=
  existsb (String.eqb modelId) toolSupportedModels.

Definition describe (model : GroqModelInfo) : Model :=
  mkModel (gm_id model) (gm_id model)
          (Some (gm_id model ++ " - Groq optimized model"))
          (Some (getContextLength (gm_id model)))
          (Some (modelSupportsTools (gm_id model)))
          None None None None None.

Definition listModels (p : Instance) : M World (list Model) :=
  try_catch
    (ensure_client p ;;;
     response <- sdk_call groq_models_list ;;
     match gl_data response with
     | Some data => ret (map describe data)
     | None =>
         throw (ThrownError (mkJsError "TypeError"
                  "Cannot read properties of undefined (reading 'map')" None None))
     end)
    (fun _ => throw (ProviderError "Failed to fetch models from Groq" name "MODELS_FETCH_ERROR")).

(** The body handed to the SDK holds the caller's message array
    itself; the SDK reads it when it serialises the request. *)
Definition chat (p : Instance) (options : ChatOptions) (abortSignal : option AbortSignal)
  : M World ChatResponse :=
  try_catch
    (ensure_client p ;;;
     body <- gets (fun w =>
               mkGroqChatBody (co_model options) (read_messages (co_messages options) w)
                 (co_tools options) (co_tool_choice options)
                 (co_temperature options) (co_max_tokens options) false) ;;
     response <- sdk_call (fun sv k => groq_chat_create sv k body abortSignal) ;;
     ret (mkChatResponse (gc_id response)
            (map (fun choice =>
                    mkChoice (mkResponseMessage (rm_role (ch_message choice))
                                (rm_content (ch_message choice))
                                (rm_tool_calls (ch_message choice)))
                             (ch_finish_reason choice))
                 (gc_choices response))
            (match gc_usage response with
             | Some u => Some (mkUsage (prompt_tokens u) (completion_tokens u) (total_tokens u))
             | None => None
             end)
            None))
    (fun error =>
       if isAbortError error then throw error
       else throw (ProviderError
                     ("Groq API request failed: " ++ message_or error "Unknown error")
                     name "CHAT_REQUEST_ERROR")).

Definition supportsTools : bool := true.

Definition cleanup (p : Instance) : M World unit :=
  fun w => (Ok tt, set_groq_fields (inst_id p) (mkGroqFields None (apiKey (groq_get p w))) w).

(** [setApiKey]: the client is dropped, to be rebuilt on next use. *)
Definition setApiKey (p : Instance) (key : string) : M World unit :=
  fun w => (Ok tt, set_groq_fields (inst_id p) (mkGroqFields None (Some key)) w).

(** [this.apiKey || process.env.GROQ_API_KEY] *)
Definition displayed_key (p : Instance) (w : World) : option string :=
  if truthy_ostring (apiKey (groq_get p w))
  then apiKey (groq_get p w)
  else env_GROQ_API_KEY (services w).

(** [getApiKey]: the first eight characters and three dots. *)
Definition getApiKey (p : Instance) (w : World) : option string :=
  match displayed_key p w with
  | Some key =>
      if truthy_string key then Some (String.substring 0 8 key ++ "...") else None
  | None => None
  end.

(** [clearApiKey] *)
Definition clearApiKey (p : Instance) : M World unit :=
  fun w => (Ok tt, set_groq_fields (inst_id p) (mkGroqFields None None) w).

End GroqProvider.

(** ** [OllamaProvider] ([ollama.ts]) *)

Module OllamaProvider.

Local Open Scope js_scope.

Definition name : string := "ollama".

(** The default [baseUrl] of the constructor. *)
Definition baseUrl : string := "http://localhost:11434".

Definition isAvailable (p : Instance) : M World bool :=
  try_catch
    (response <- fetch ollama_version 5000 ;;
     ret (response_ok response))
    (fun _ => ret false).

Definition getStatus (p : Instance) : M World ProviderStatus :=
  try_catch
    (response <- fetch ollama_version 5000 ;;
     if negb (response_ok response) then
       ret (mkProviderStatus false false None None
              (Some (http_error_message (status response) (statusText response))) None)
     else
       version <- response_json response ;;
       ret (mkProviderStatus true true
              (Some (or_string (ov_version version) "Unknown"))
              (Some baseUrl) None None))
    (fun error =>
       if isAbortError error then
         ret (mkProviderStatus false false None None
                (Some "Connection timeout - is Ollama running?") None)
       else
         ret (mkProviderStatus false false None None
                (Some (message_or error "Connection failed")) None)).

Definition contextLengths : list (string * Z) :=
  [ ("llama2", 4096%Z);
    ("llama2:13b", 4096%Z);
    ("llama2:70b", 4096%Z);
    ("codellama", 16384%Z);
    ("codellama:13b", 16384%Z);
    ("codellama:34b", 16384%Z);
    ("mistral", 32768%Z);
    ("mistral:7b", 32768%Z);
    ("mixtral", 32768%Z);
    ("neural-chat", 8192%Z);
    ("starling-lm", 8192%Z);
    ("yi", 4096%Z) ].

Definition getContextLength (modelName : string) : Z :=
  match table_get contextLengths modelName with
  | Some n => n
  | None =>
      match table_first contextLengths (startsWith modelName) with
      | Some n => n
      | None => 8192%Z
      end
  end.

Definition describe (model : OllamaModel) : Model :=
  mkModel (om_name model) (om_name model)
          (Some (or_string (Some (od_family (details model))) "Local" ++ " model ("
                 ++ or_string (Some (parameter_size (details model))) "Unknown size" ++ ")"))
          (Some (getContextLength (om_name model)))
          (Some false)
          (Some (om_size model))
          (Some (od_format (details model)))
          (Some (od_family (details model)))
          None None.

Definition listModels (p : Instance) : M World (list Model) :=
  try_catch
    (response <- fetch ollama_tags 10000 ;;
     if negb (response_ok response) then
       throw (Error (http_error_message (status response) (statusText response)))
     else
       data <- response_json response ;;
       ret (map describe (ot_models data)))
    (fun _ =>
       throw (ProviderError
                "Failed to fetch models from Ollama. Make sure Ollama is running."
                name "MODELS_FETCH_ERROR")).

(** The message chosen in the [catch] of [chat]. *)
Definition chat_error_message (options : ChatOptions) (error : Thrown) : string :=
  match error with
  | ThrownError e =>
      let m := e_message e in
      if includes m "ECONNREFUSED" then
        "Cannot connect to Ollama. Make sure Ollama is running on localhost:11434"
      else if includes m "model" then
        "Model " ++ dquote ++ co_model options ++ dquote
        ++ " not found. Make sure the model is pulled in Ollama: ollama pull "
        ++ co_model options
      else if includes m "404" then
        "API endpoint not found. Check Ollama version and API compatibility."
      else if includes m "failed to allocate" || includes m "Metal buffer" then
        "Model " ++ dquote ++ co_model options ++ dquote
        ++ " is too large for available GPU memory. Try:" ++ newline
        ++ "• A smaller model (e.g., /model gemma3:1b)" ++ newline
        ++ "• Use CPU: restart Ollama with OLLAMA_GPU_LAYERS=0" ++ newline
        ++ "• Free up GPU memory by closing other applications"
      else if includes m "llama runner process has terminated" then
        "Model " ++ dquote ++ co_model options ++ dquote
        ++ " crashed during execution. This usually indicates insufficient memory. Try a smaller model or restart Ollama with CPU mode."
      else "Ollama API request failed: " ++ m
  | ThrownValue _ => "Ollama API request failed: Unknown error"
  end.

Definition chat (p : Instance) (options : ChatOptions) (abortSignal : option AbortSignal)
  : M World ChatResponse :=
  try_catch
    (source <- gets (read_messages (co_messages options)) ;;
     messages <- alloc (HOllamaMessages
                   (map (fun msg =>
                           mkOllamaMessage (role_string (msg_role msg))
                                           (or_string (Some (msg_content msg)) EmptyString) None)
                        source)) ;;
     requestBody <- gets (fun w =>
                      mkOllamaChatRequest (co_model options)
                        (match heap w !! messages with
                         | Some (HOllamaMessages ms) => ms
                         | _ => []
                         end)
                        false
                        (mkOllamaOptions (co_temperature options) (co_max_tokens options))) ;;
     response <- fetch (fun sv k => ollama_chat sv k requestBody)
                       (abort_time 30000 abortSignal) ;;
     if negb (response_ok response) then
       throw (Error (http_error_message (status response) (text response)))
     else
       data <- response_json response ;;
       now <- gets (fun w => date_now (services w) (clock w)) ;;
       ret (mkChatResponse ("ollama-" ++ string_of_Z now)
              [ mkChoice (mkResponseMessage (omsg_role (oc_message data))
                            (Some (omsg_content (oc_message data))) None)
                         (if oc_done data then "stop" else "incomplete") ]
              (if truthy_onum (oc_prompt_eval_count data) || truthy_onum (oc_eval_count data)
               then Some (mkUsage (or_zero (oc_prompt_eval_count data))
                                  (or_zero (oc_eval_count data))
                                  (or_zero (oc_prompt_eval_count data)
                                   + or_zero (oc_eval_count data)))
               else None)
              (Some (mkPerformance (oc_total_duration data) (oc_load_duration data)
                                   (oc_prompt_eval_duration data) (oc_eval_duration data)))))
    (fun error =>
       if isAbortError error then throw error
       else throw (ProviderError (chat_error_message options error) name "CHAT_REQUEST_ERROR")).

Definition supportsTools : bool := false.

Definition initialize (p : Instance) : M World unit :=
  status <- getStatus p ;;
  if negb (st_connected status) then
    throw (ProviderError
             "Could not connect to Ollama. Make sure Ollama is installed and running."
             name "CONNECTION_ERROR")
  else ret tt.

Definition cleanup (p : Instance) : M World unit := ret tt.

End OllamaProvider.

(** ** [LMStudioProvider] ([lmstudio.ts]) *)

Module LMStudioProvider.

Local Open Scope js_scope.

Definition name : string := "lmstudio".

(** The default [baseUrl] of the constructor. *)
Definition baseUrl : string := "http://localhost:1234/v1".

Definition isAvailable (p : Instance) : M World bool :=
  try_catch
    (response <- fetch lmstudio_models 5000 ;;
     ret (response_ok response))
    (fun _ => ret false).

Definition getStatus (p : Instance) : M World ProviderStatus :=
  try_catch
    (response <- fetch lmstudio_models 5000 ;;
     if negb (response_ok response) then
       ret (mkProviderStatus false false None None
              (Some (http_error_message (status response) (statusText response))) None)
     else
       data <- response_json response ;;
       ret (mkProviderStatus true true
              (Some (if (0 <? length (lms_data data))%nat
                     then "Connected" else "No models loaded"))
              (Some baseUrl) None
              (Some (Z.of_nat (length (lms_data data))))))
    (fun error =>
       if isAbortError error then
         ret (mkProviderStatus false false None None
                (Some "Connection timeout - is LM Studio running with local server enabled?")
                None)
       else
         ret (mkProviderStatus false false None None
                (Some (message_or error "Connection failed")) None)).

Definition contextLengths : list (string * Z) :=
  [ ("llama-2", 4096%Z);
    ("llama2", 4096%Z);
    ("codellama", 16384%Z);
    ("code-llama", 16384%Z);
    ("mistral", 32768%Z);
    ("mixtral", 32768%Z);
    ("neural-chat", 8192%Z);
    ("starling", 8192%Z);
    ("zephyr", 8192%Z);
    ("openhermes", 8192%Z);
    ("yi-", 4096%Z);
    ("qwen", 32768%Z);
    ("deepseek", 16384%Z);
    ("wizard", 8192%Z);
    ("openchat", 8192%Z) ].

Definition is_digit (c : ascii) : bool :=
  let n := nat_of_ascii c in (48 <=? n)%nat && (n <=? 57)%nat.

(** The value of the longest run of digits [s] starts with, and what
    follows it. *)
Fixpoint digits_run (s : string) (acc : option Z) : option Z * string :=
  match s with
  | EmptyString => (acc, s)
  | String c t =>
      if is_digit c
      then digits_run t (Some (10 * or_zero acc + (Z.of_nat (nat_of_ascii c) - 48))%Z)
      else (acc, s)
  end.

(** [lowerName.match(/(\d+)k/)] followed by [parseInt] of the group:
    the leftmost place where digits are followed by [k]. *)
Fixpoint match_digits_k (s : string) : option Z :=
  match s with
  | EmptyString => None
  | String _ t =>
      match digits_run s None with
      | (Some n, String "k" _) => Some n
      | _ => match_digits_k t
      end
  end.

Definition getContextLength (sv : Services) (modelName : string) : Z :=
  let lowerName := toLowerCase sv modelName in
  match table_first contextLengths (includes lowerName) with
  | Some n => n
  | None =>
      match match_digits_k lowerName with
      | Some contextK => (contextK * 1024)%Z
      | None => 8192%Z
      end
  end.

(** The callback of [data.data.map] in [listModels]; [toISOString]
    may throw. *)
Definition describe (sv : Services) (model : LMStudioModel) : Res Model :=
  match toISOString sv (lm_created model * 1000)%Z with
  | Some created =>
      Ok (mkModel (lm_id model) (lm_id model)
            (Some "Local model loaded in LM Studio")
            (Some (getContextLength sv (lm_id model)))
            (Some false)
            None None None
            (Some (lm_owned_by model))
            (Some created))
  | None => Throw (ThrownError (mkJsError "RangeError" "Invalid time value" None None))
  end.

Fixpoint describe_all (sv : Services) (data : list LMStudioModel) : Res (list Model) :=
  match data with
  | [] => Ok []
  | model :: rest =>
      match describe sv model with
      | Ok m =>
          match describe_all sv rest with
          | Ok ms => Ok (m :: ms)
          | Throw t => Throw t
          end
      | Throw t => Throw t
      end
  end.

Definition listModels (p : Instance) : M World (list Model) :=
  try_catch
    (response <- fetch lmstudio_models 10000 ;;
     if negb (response_ok response) then
       throw (Error (http_error_message (status response) (statusText response)))
     else
       data <- response_json response ;;
       if (length (lms_data data) =? 0)%nat then
         throw (ProviderError
                  "No models loaded in LM Studio. Please load a model in the LM Studio interface."
                  name "NO_MODELS_LOADED")
       else
         fun w => (describe_all (services w) (lms_data data), w))
    (fun _ =>
       throw (ProviderError
                "Failed to fetch models from LM Studio. Make sure LM Studio is running with local server enabled and a model is loaded."
                name "MODELS_FETCH_ERROR")).

Definition chat (p : Instance) (options : ChatOptions) (abortSignal : option AbortSignal)
  : M World ChatResponse :=
  try_catch
    (source <- gets (read_messages (co_messages options)) ;;
     messages <- alloc (HLMStudioMessages
                   (map (fun msg =>
                           mkLMStudioMessage (role_string (msg_role msg))
                                             (or_string (Some (msg_content msg)) EmptyString))
                        source)) ;;
     requestBody <- gets (fun w =>
                      mkLMStudioChatRequest (co_model options)
                        (match heap w !! messages with
                         | Some (HLMStudioMessages ms) => ms
                         | _ => []
                         end)
                        (co_temperature options) (co_max_tokens options) false) ;;
     response <- fetch (fun sv k => lmstudio_chat sv k requestBody)
                       (abort_time 60000 abortSignal) ;;
     if negb (response_ok response) then
       throw (Error (http_error_message (status response) (text response)))
     else
       data <- response_json response ;;
       ret (mkChatResponse (lr_id data)
              (map (fun choice =>
                      mkChoice (mkResponseMessage (lmsg_role (lc_message choice))
                                  (Some (lmsg_content (lc_message choice))) None)
                               (lc_finish_reason choice))
                   (lr_choices data))
              (lr_usage data)
              None))
    (fun error =>
       if isAbortError error then throw error
       else throw (ProviderError
                     ("LM Studio API request failed: " ++ message_or error "Unknown error")
                     name "CHAT_REQUEST_ERROR")).

Definition supportsTools : bool := false.

Definition initialize (p : Instance) : M World unit :=
  status <- getStatus p ;;
  if negb (st_connected status) then
    throw (ProviderError
             "Could not connect to LM Studio. Make sure LM Studio is running with local server enabled."
             name "CONNECTION_ERROR")
  else if bool_decide (st_modelsLoaded status = Some 0%Z) then
    throw (ProviderError
             "No models loaded in LM Studio. Please load a model in the LM Studio interface."
             name "NO_MODELS_LOADED")
  else ret tt.

Definition cleanup (p : Instance) : M World unit := ret tt.

End LMStudioProvider.

(** ** The provider table ([index.ts])

    [PROVIDERS] maps each name to its class; a method call on an object
    runs the method of the class the object was built from. *)

#[global] Instance PROVIDERS : LLMProvider World := {
  isAvailable p :=
    match inst_name p with
    | groq => GroqProvider.isAvailable p
    | ollama => OllamaProvider.isAvailable p
    | lmstudio => LMStudioProvider.isAvailable p
    end;
  getStatus p :=
    match inst_name p with
    | groq => GroqProvider.getStatus p
    | ollama => OllamaProvider.getStatus p
    | lmstudio => LMStudioProvider.getStatus p
    end;
  listModels p :=
    match inst_name p with
    | groq => GroqProvider.listModels p
    | ollama => OllamaProvider.listModels p
    | lmstudio => LMStudioProvider.listModels p
    end;
  chat p :=
    match inst_name p with
    | groq => GroqProvider.chat p
    | ollama => OllamaProvider.chat p
    | lmstudio => LMStudioProvider.chat p
    end;
  supportsTools p :=
    match inst_name p with
    | groq => GroqProvider.supportsTools
    | ollama => OllamaProvider.supportsTools
    | lmstudio => LMStudioProvider.supportsTools
    end;
  initialize p :=
    match inst_name p with
    | groq => GroqProvider.initialize p
    | ollama => OllamaProvider.initialize p
    | lmstudio => LMStudioProvider.initialize p
    end;
  cleanup p :=
    match inst_name p with
    | groq => GroqProvider.cleanup p
    | ollama => OllamaProvider.cleanup p
    | lmstudio => LMStudioProvider.cleanup p
    end
}.

(** ** Derived notions used in the statements *)

(** Every adapter in the registry was built from the class registered
    under its key. *)
Definition registry_ok {W} (s : Manager W) : bool :=
  forallb
    (fun n =>
       match providers s !! n with
       | Some p => bool_decide (inst_name p = n)
       | None => true
       end)
    getAvailableProviders.

(** The public methods of the manager modelled here, and the state a
    call leaves behind. *)
Inductive Operation :=
| DetectProviders
| AutoSelectProvider
| SetActiveProvider (n : ProviderName)
| GetActiveProvider
| GetProvider (n : ProviderName)
| GetAllModels
| FindModels (lowercase : string -> string) (query : string)
| Failover.

Definition perform {W} `{LLMProvider W} (o : Operation) (s : Manager W) : Manager W :=
  match o with
  | DetectProviders => snd (detectProviders s)
  | AutoSelectProvider => snd (autoSelectProvider s)
  | SetActiveProvider n => snd (setActiveProvider n s)
  | GetActiveProvider => snd (getActiveProvider s)
  | GetProvider n => snd (getProvider n s)
  | GetAllModels => snd (getAllModels s)
  | FindModels lowercase query => snd (findModels lowercase query s)
  | Failover => snd (failover s)
  end.

(** The state of a new manager after a sequence of calls. *)
Definition after {W} `{LLMProvider W} (ops : list Operation) (w : W) : Manager W :=
  fold_left (fun s o => perform o s) ops (new_manager w).

(** The adapter [getProviderInstance n] yields in state [s]. *)
Definition the_instance {W} (n : ProviderName) (s : Manager W) : Instance :=
  match providers s !! n with
  | Some p => p
  | None => mkInstance n (next_object s)
  end.

(** The methods [detectProviders] calls. *)
Definition is_probe (m : Method) : bool :=
  match m with
  | MIsAvailable | MGetStatus | MListModels => true
  | MInitialize | MCleanup => false
  end.

(** A call made by [detectProviders] while [a] is the active provider. *)
Definition probe_call (a : option Instance) (c : Call) : Prop :=
  call_active c = a /\ is_probe (call_method c) = true.

(** [s'] is reached from [s] by probing only: the active provider and
    the configurations are those of [s], the registry has only grown,
    and every call made is a probe. *)
Definition probes_only {W} (s s' : Manager W) : Prop :=
  activeProvider s' = activeProvider s /\
  providerConfigs s' = providerConfigs s /\
  (forall m q, providers s !! m = Some q -> providers s' !! m = Some q) /\
  (registry_ok s = true -> registry_ok s' = true) /\
  exists new, calls s' = (calls s ++ new)%list /\ Forall (probe_call (activeProvider s)) new.

(** [s'] is reached from [s] by adapter calls that were all made while
    [a] was the active provider; the configurations are unchanged. *)
Definition calls_under {W} (a : option Instance) (s s' : Manager W) : Prop :=
  providerConfigs s' = providerConfigs s /\
  (registry_ok s = true -> registry_ok s' = true) /\
  exists new, calls s' = (calls s ++ new)%list /\ Forall (fun c => call_active c = a) new.

(** The [initialize] calls of a log: on which backend, and whether
    they returned. *)
Definition initialize_calls (cs : list Call) : list (ProviderName * bool) :=
  map (fun c => (inst_name (call_target c), call_returned c))
      (List.filter (fun c => bool_decide (call_method c = MInitialize)) cs).

(** The configurations [autoSelectProvider] considers, in the order in
    which it tries them. *)
Definition candidates (detection : list ProviderDetectionResult) (configs : list ProviderConfig)
  : list ProviderConfig :=
  List.filter (usable detection) (sort_by_priority (List.filter enabled configs)).

(** Ascending order of priority. *)
Definition by_priority (a b : ProviderConfig) : Prop := (priority a <= priority b)%Z.

(** Two characters that differ at most by case. *)
Definition same_letter (c d : ascii) : Prop :=
  c = d \/
  (exists k, (65 <= k <= 90)%nat /\
             ((c = ascii_of_nat k /\ d = ascii_of_nat (k + 32)) \/
              (d = ascii_of_nat k /\ c = ascii_of_nat (k + 32)))).

(** Two strings that differ at most by case. *)
Inductive eq_ci : string -> string -> Prop :=
| eq_ci_nil : eq_ci EmptyString EmptyString
| eq_ci_cons c d s t : same_letter c d -> eq_ci s t -> eq_ci (String c s) (String d t).

(** [s] contains [q] case-insensitively: some stretch of [s] differs
    from [q] at most by case. *)
Definition contains_ci (s q : string) : Prop :=
  exists pre mid post, s = pre ++ mid ++ post /\ eq_ci mid q.

(** A model whose id, name, description or provider name contains [q]
    case-insensitively. *)
Definition model_contains_ci (q : string) (model : ProviderModel) : Prop :=
  contains_ci (m_id (pm_model model)) q
  \/ contains_ci (m_name (pm_model model)) q
  \/ (exists d, m_description (pm_model model) = Some d /\ contains_ci d q)
  \/ contains_ci (pm_provider model) q.

(** A string of ASCII characters, and a model whose id, name,
    description and provider name are such strings. *)
Fixpoint is_ascii (s : string) : bool :=
  match s with
  | EmptyString => true
  | String c t => (nat_of_ascii c <? 128)%nat && is_ascii t
  end.

Definition ascii_model (model : ProviderModel) : bool :=
  is_ascii (m_id (pm_model model))
  && is_ascii (m_name (pm_model model))
  && match m_description (pm_model model) with
     | Some d => is_ascii d
     | None => true
     end
  && is_ascii (pm_provider model).

(** What [String.prototype.toLowerCase] is known to do: on ASCII text
    it folds the letters A-Z and nothing else. *)
Definition folds_ascii (lowercase : string -> string) : Prop :=
  forall s, is_ascii s = true -> lowercase s = ascii_lowercase s.

(** [s] contains [q] once both are in lower case: the lower-cased [q]
    is a stretch of the lower-cased [s]. *)
Definition contains_lowered (lowercase : string -> string) (s q : string) : Prop :=
  exists pre post, lowercase s = pre ++ lowercase q ++ post.

(** A model whose id, name, description (when there is one, not empty)
    or provider name contains [q] once both are in lower case. *)
Definition model_contains_lowered (lowercase : string -> string) (q : string)
    (model : ProviderModel) : Prop :=
  contains_lowered lowercase (m_id (pm_model model)) q
  \/ contains_lowered lowercase (m_name (pm_model model)) q
  \/ (exists d, m_description (pm_model model) = Some d /\ d <> EmptyString /\
                contains_lowered lowercase d q)
  \/ contains_lowered lowercase (pm_provider model) q.

(** Every array of [w] is still there, unchanged, in [w']. *)
Definition heap_grows (w w' : World) : Prop :=
  forall l v, heap w !! l = Some v -> heap w' !! l = Some v.

(** A computation that changes no array that exists when it starts. *)
Definition keeps_heap {A} (m : M World A) : Prop :=
  forall w, heap_grows w (snd (m w)).

(** [options] with another tool list and tool choice. *)
Definition with_tools (tools : option (list string)) (tool_choice : option string)
    (options : ChatOptions) : ChatOptions :=
  mkChatOptions (co_model options) (co_messages options) tools tool_choice
                (co_temperature options) (co_max_tokens options) (co_stream options).

(** ** Sample services *)

Definition refused : string :=
  "request to http://localhost failed, reason: connect ECONNREFUSED 127.0.0.1".

(** No API key, nothing listening on either local port. *)
Definition offline : Services :=
  mkServices None (fun _ => 1700000000000%Z) (fun _ => None) ascii_lowercase
    (fun _ => SdkThrows (Error "Connection error."))
    (fun _ _ _ => SdkThrows (Error "Connection error."))
    (fun _ => Fails 1 refused)
    (fun _ => Fails 1 refused)
    (fun _ _ => Fails 1 refused)
    (fun _ => Fails 1 refused)
    (fun _ _ => Fails 1 refused).

(** LM Studio's server is running with no model loaded; nothing else is
    reachable. *)
Definition lmstudio_without_models : Services :=
  mkServices None (date_now offline) (toISOString offline) (toLowerCase offline)
    (groq_models_list offline) (groq_chat_create offline)
    (ollama_version offline) (ollama_tags offline) (ollama_chat offline)
    (fun _ => Replies 3 (mkResponse 200 "OK" "{}" (Some (mkLMStudioModels []))))
    (lmstudio_chat offline).

Definition sample_reply : OllamaChatResponse :=
  mkOllamaChatResponse "llama2" "2024-01-01T00:00:00Z"
    (mkOllamaMessage "assistant" "Hello." None) true
    (Some 500%Z) (Some 100%Z) (Some 7%Z) (Some 50%Z) (Some 3%Z) (Some 350%Z).

(** Ollama is running and answers every chat request after 120 ms;
    nothing else is reachable. *)
Definition ollama_running : Services :=
  mkServices None (date_now offline) (toISOString offline) (toLowerCase offline)
    (groq_models_list offline) (groq_chat_create offline)
    (fun _ => Replies 2 (mkResponse 200 "OK" "{}" (Some (mkOllamaVersion (Some "0.1.32")))))
    (fun _ => Replies 4 (mkResponse 200 "OK" "{}" (Some (mkOllamaTags []))))
    (fun _ _ => Replies 120 (mkResponse 200 "OK" "{}" (Some sample_reply)))
    (lmstudio_models offline)
    (lmstudio_chat offline).

(** Ollama and LM Studio are both running, LM Studio with one model
    loaded; Groq has no API key. *)
Definition local_running : Services :=
  mkServices None (date_now offline) (fun _ => Some "2024-01-01T00:00:00.000Z")
    (toLowerCase offline)
    (groq_models_list offline) (groq_chat_create offline)
    (ollama_version ollama_running) (ollama_tags ollama_running)
    (ollama_chat ollama_running)
    (fun _ => Replies 3 (mkResponse 200 "OK" "{}"
                (Some (mkLMStudioModels
                         [mkLMStudioModel "zephyr-7b-beta" "model" 1704067200 "organization"]))))
    (lmstudio_chat offline).

(** A world with one message array, at location 0. *)
Definition boot (sv : Services) : World :=
  mkWorld sv 0 ∅ (<[0 := HMessages [mkChatMessage user "Hi" None None]]> ∅).

(** A manager whose active provider is Ollama: a new manager after
    [autoSelectProvider] with only Ollama running. *)
Definition ollama_active : Manager World :=
  after [AutoSelectProvider] (boot ollama_running).

(** The same with LM Studio running too: Ollama, of lower priority
    number, is the active provider. *)
Definition ollama_preferred : Manager World :=
  after [AutoSelectProvider] (boot local_running).

Definition sample_options : ChatOptions :=
  mkChatOptions "llama2" 0 None None (Some 1%Z) None None.

Definition sample_tools : option (list string) :=
  Some ["{ type: function, function: { name: read_file } }"].

(** Neither local server ever answers. *)
Definition stalled : Services :=
  mkServices None (date_now offline) (toISOString offline) (toLowerCase offline)
    (groq_models_list offline) (groq_chat_create offline)
    (fun _ => Hangs) (fun _ => Hangs) (fun _ _ => Hangs)
    (fun _ => Hangs) (fun _ _ => Hangs).

(** A key in the environment, the Groq API answering. *)
Definition groq_ready : Services :=
  mkServices (Some "gsk_environment_key") (date_now offline) (toISOString offline)
    (toLowerCase offline)
    (fun _ => SdkReturns (mkGroqModelList (Some [mkGroqModelInfo "llama3-8b-8192"])))
    (fun _ _ _ =>
       SdkReturns (mkGroqChatCompletion "chatcmpl-1"
                     [mkChoice (mkResponseMessage "assistant" (Some "Hello.") None) "stop"]
                     None))
    (ollama_version offline) (ollama_tags offline) (ollama_chat offline)
    (lmstudio_models lmstudio_without_models)
    (lmstudio_chat offline).

(** ** [ProviderUtils] ([base.ts]) *)

Module ProviderUtils.

(** [s.split(sep)] for a one-character separator. *)
Fixpoint split (sep : ascii) (s : string) : list string :=
  match s with
  | EmptyString => [EmptyString]
  | String c t =>
      if Ascii.eqb c sep then EmptyString :: split sep t
      else
        match split sep t with
        | h :: r => String c h :: r
        | [] => [String c EmptyString]
        end
  end.

(** [parts.join(sep)] *)
Fixpoint join (sep : string) (parts : list string) : string :=
  match parts with
  | [] => EmptyString
  | [h] => h
  | h :: r => h ++ sep ++ join sep r
  end.

(** [normalizeModelName]: [`${provider}:${modelId}`] *)
Definition normalizeModelName (modelId provider : string) : string :=
  provider ++ ":" ++ modelId.

(** [parseModelName]: the provider and the model. *)
Definition parseModelName (normalizedName : string) : string * string :=
  match split ":" normalizedName with
  | provider :: modelParts => (provider, join ":" modelParts)
  | [] => (EmptyString, EmptyString)
  end.

End ProviderUtils.

(** ** [compareVersions] ([version.ts])

    [Number] gives the number a part of a version string denotes, or
    [None] for [NaN]; [zero] is the number 0, [falsy] holds of the
    numbers [||] passes over (plus and minus zero), and [gt a b] is
    [a > b]. *)

Section CompareVersions.

Context {T : Type} (Number : string -> option T) (zero : T) (falsy : T -> bool)
        (gt : T -> T -> bool).

(** [parts[i] || 0]: past the end of the array, on [NaN] and on zero
    this is [0]. *)
Definition part_or_zero (parts : list (option T)) (i : nat) : T :=
  match parts !! i with
  | Some (Some x) => if falsy x then zero else x
  | _ => zero
  end.

(** The loop of [compareVersions], from index [i], with [remaining]
    rounds to go. *)
Fixpoint compare_from (currentParts latestParts : list (option T)) (remaining i : nat)
  : bool :=
  match remaining with
  | 0 => false
  | S remaining' =>
      let currentPart := part_or_zero currentParts i in
      let latestPart := part_or_zero latestParts i in
      if gt latestPart currentPart then true
      else if gt currentPart latestPart then false
      else compare_from currentParts latestParts remaining' (S i)
  end.

(** [compareVersions] *)
Definition compareVersions (current latest : string) : bool :=
  let currentParts := map Number (ProviderUtils.split "." current) in
  let latestParts := map Number (ProviderUtils.split "." latest) in
  compare_from currentParts latestParts
    (Nat.max (length currentParts) (length latestParts)) 0.

End CompareVersions.

(** ** The settings file ([local-settings.ts])

    The file system as [ConfigManager] sees it: the directory
    [~/.groq], the file [config.json] in it and the older
    [local-settings.json].  On a read-only disk every write, [mkdir]
    and [unlink] throws.

    A file that [JSON.parse] rejects is [Garbled].  What [JSON.parse]
    returns for any other file is a [Json] value: an object, or one
    of the values that are no objects ([null], an array, a string, a
    number, a boolean).  An object is taken to be a value of the
    interface [Config]: the properties the interface declares, with
    values of the declared types. *)

Record SavedProvider := mkSavedProvider {
  sp_name : string;
  sp_enabled : bool;
  sp_priority : Z
}.

Record SavedMessage := mkSavedMessage {
  sm_role : Role;
  sm_content : string;
  sm_timestamp : option string;
  sm_tool_calls : option (list string);
  sm_tool_call_id : option string
}.

Record LastSession := mkLastSession {
  ls_provider : string;
  ls_model : string;
  ls_timestamp : string;
  ls_conversationHistory : option (list SavedMessage)
}.

Record Config := mkSettings {
  groqApiKey : option string;
  defaultModel : option string;
  lastVersionCheck : option string;
  lastVersionWarning : option string;
  cfg_providers : option (list SavedProvider);
  cfg_activeProvider : option string;
  ollamaBaseUrl : option string;
  lmstudioBaseUrl : option string;
  lastSession : option LastSession
}.

(** Array elements and numbers are kept as the text [JSON.stringify]
    gives for them. *)
Inductive Json :=
| Settings (c : Config)
| JsonNull
| JsonArray (elements : list string)
| JsonString (s : string)
| JsonNumber (n : string)
| JsonBoolean (b : bool).

Coercion Settings : Config >-> Json.

Inductive FileContent :=
| Parsed (v : Json)
| Garbled.

(** [now] answers [new Date().toISOString()], by the number of earlier
    calls. *)
Record Disk := mkDisk {
  config_dir : bool;
  config_file : option FileContent;
  old_config_file : option FileContent;
  read_only : bool;
  now : nat -> string;
  dates_taken : nat
}.

Module ConfigManager.

Local Open Scope js_scope.

(** The object [{}]. *)
Definition empty : Config :=
  mkSettings None None None None None None None None None.

(** [Object.keys(config).length === 0] *)
Definition is_empty (c : Config) : bool :=
  match c with
  | mkSettings None None None None None None None None None => true
  | _ => false
  end.

Definition fs_error (code : string) : Thrown :=
  ThrownError (mkJsError "Error" code None None).

Definition type_error (message : string) : Thrown :=
  ThrownError (mkJsError "TypeError" message None None).

(** [String(error)], as a template literal renders a caught value. *)
Definition render (t : Thrown) : string :=
  match t with
  | ThrownError e => e_name e ++ ": " ++ e_message e
  | ThrownValue v => v
  end.

(** [config.p], read, for the property named [key]: [null] has no
    properties; a value that is no settings object has none of the
    properties of [Config]. *)
Definition read_property {A} (key : string) (p : Config -> option A) (config : Json)
  : Res (option A) :=
  match config with
  | Settings c => Ok (p c)
  | JsonNull =>
      Throw (type_error ("Cannot read properties of null (reading '" ++ key ++ "')"))
  | _ => Ok None
  end.

(** [config.p = v], in strict mode (the sources are ES modules):
    [null], strings, numbers and booleans refuse it.  An array takes
    the property, which [JSON.stringify] then leaves out; no function
    here reads it in between, so the array is kept as it was. *)
Definition write_property (key : string) (set : Config -> Config) (config : Json)
  : Res Json :=
  let refused (type value : string) :=
    Throw (type_error ("Cannot create property '" ++ key ++ "' on " ++ type
                       ++ " '" ++ value ++ "'")) in
  match config with
  | Settings c => Ok (Settings (set c))
  | JsonArray elements => Ok (JsonArray elements)
  | JsonNull =>
      Throw (type_error ("Cannot set properties of null (setting '" ++ key ++ "')"))
  | JsonString s => refused "string" s
  | JsonNumber n => refused "number" n
  | JsonBoolean b => refused "boolean" (if b then "true" else "false")
  end.

(** [delete config.p] *)
Definition delete_property (unset : Config -> Config) (config : Json) : Res Json :=
  match config with
  | Settings c => Ok (Settings (unset c))
  | JsonNull => Throw (type_error "Cannot convert undefined or null to object")
  | other => Ok other
  end.

(** [Object.keys(config).length === 0]: the keys of an array and of a
    string are their indices, numbers and booleans have none. *)
Definition no_keys (config : Json) : Res bool :=
  match config with
  | Settings c => Ok (is_empty c)
  | JsonNull => Throw (type_error "Cannot convert undefined or null to object")
  | JsonArray elements => Ok (match elements with [] => true | _ => false end)
  | JsonString s => Ok (match s with EmptyString => true | _ => false end)
  | JsonNumber _ => Ok true
  | JsonBoolean _ => Ok true
  end.

(** A step that returns or throws without touching the disk. *)
Definition lift {A} (r : Res A) : M Disk A := fun d => (r, d).

Definition set_file (f : option FileContent) (d : Disk) : Disk :=
  mkDisk (config_dir d) f (old_config_file d) (read_only d) (now d) (dates_taken d).

Definition set_old_file (f : option FileContent) (d : Disk) : Disk :=
  mkDisk (config_dir d) (config_file d) f (read_only d) (now d) (dates_taken d).

(** [fs.existsSync(this.configPath)] *)
Definition existsSync : M Disk bool :=
  gets (fun d => bool_decide (config_file d <> None)).

(** [JSON.parse(fs.readFileSync(this.configPath, 'utf8'))] *)
Definition read_parse : M Disk Json :=
  fun d =>
    match config_file d with
    | Some (Parsed v) => (Ok v, d)
    | Some Garbled =>
        (Throw (ThrownError (mkJsError "SyntaxError" "Unexpected token in JSON" None None)), d)
    | None => (Throw (fs_error "ENOENT: no such file or directory"), d)
    end.

(** [fs.writeFileSync(this.configPath, content, { mode: 0o600 })] *)
Definition write_file (content : FileContent) : M Disk unit :=
  fun d =>
    if read_only d then (Throw (fs_error "EACCES: permission denied"), d)
    else if negb (config_dir d) then (Throw (fs_error "ENOENT: no such file or directory"), d)
    else (Ok tt, set_file (Some content) d).

(** [fs.unlinkSync(this.configPath)] *)
Definition unlink_file : M Disk unit :=
  fun d =>
    if read_only d then (Throw (fs_error "EACCES: permission denied"), d)
    else
      match config_file d with
      | Some _ => (Ok tt, set_file None d)
      | None => (Throw (fs_error "ENOENT: no such file or directory"), d)
      end.

(** [new Date().toISOString()] *)
Definition toISOString_now : M Disk string :=
  fun d =>
    (Ok (now d (dates_taken d)),
     mkDisk (config_dir d) (config_file d) (old_config_file d) (read_only d)
            (now d) (S (dates_taken d))).

(** [ensureConfigDir] *)
Definition ensureConfigDir : M Disk unit :=
  fun d =>
    if config_dir d then (Ok tt, d)
    else if read_only d then (Throw (fs_error "EACCES: permission denied"), d)
    else (Ok tt, mkDisk true (config_file d) (old_config_file d) (read_only d)
                        (now d) (dates_taken d)).

(** [migrateOldConfig], run by the constructor. *)
Definition migrateOldConfig : M Disk unit :=
  try_catch
    (present <- existsSync ;;
     if present then ret tt
     else
       old <- gets old_config_file ;;
       match old with
       | Some oldConfigData =>
           write_file oldConfigData ;;;
           (fun d =>
              if read_only d then (Throw (fs_error "EACCES: permission denied"), d)
              else (Ok tt, set_old_file None d))
       | None => ret tt
       end)
    (fun _ => ret tt).

(** [getConfig]: what [JSON.parse] returns, whatever it is. *)
Definition getConfig : M Disk Json :=
  try_catch
    (present <- existsSync ;;
     if negb present then ret (Settings empty) else read_parse)
    (fun _ => ret (Settings empty)).

(** [setConfig] *)
Definition setConfig (config : Json) : M Disk unit :=
  try_catch
    (ensureConfigDir ;;; write_file (Parsed config))
    (fun error => throw (Error ("Failed to save config: " ++ render error))).

Definition with_groqApiKey (k : option string) (c : Config) : Config :=
  mkSettings k (defaultModel c) (lastVersionCheck c) (lastVersionWarning c)
             (cfg_providers c) (cfg_activeProvider c) (ollamaBaseUrl c)
             (lmstudioBaseUrl c) (lastSession c).

Definition with_providers (ps : option (list SavedProvider)) (c : Config) : Config :=
  mkSettings (groqApiKey c) (defaultModel c) (lastVersionCheck c) (lastVersionWarning c)
             ps (cfg_activeProvider c) (ollamaBaseUrl c)
             (lmstudioBaseUrl c) (lastSession c).

Definition with_lastSession (ls : option LastSession) (c : Config) : Config :=
  mkSettings (groqApiKey c) (defaultModel c) (lastVersionCheck c) (lastVersionWarning c)
             (cfg_providers c) (cfg_activeProvider c) (ollamaBaseUrl c)
             (lmstudioBaseUrl c) ls.

(** [getApiKey]: [config.groqApiKey || null] *)
Definition getApiKey : M Disk (option string) :=
  try_catch
    (present <- existsSync ;;
     if negb present then ret None
     else
       config <- read_parse ;;
       key <- lift (read_property "groqApiKey" groqApiKey config) ;;
       ret (if truthy_ostring key then key else None))
    (fun _ => ret None).

(** [setApiKey] *)
Definition setApiKey (key : string) : M Disk unit :=
  try_catch
    (ensureConfigDir ;;;
     present <- existsSync ;;
     config <- (if present then read_parse else ret (Settings empty)) ;;
     config <- lift (write_property "groqApiKey" (with_groqApiKey (Some key)) config) ;;
     write_file (Parsed config))
    (fun error => throw (Error ("Failed to save API key: " ++ render error))).

(** [clearApiKey] *)
Definition clearApiKey : M Disk unit :=
  try_catch
    (present <- existsSync ;;
     if negb present then ret tt
     else
       config <- read_parse ;;
       config <- lift (delete_property (with_groqApiKey None) config) ;;
       none <- lift (no_keys config) ;;
       if none then unlink_file
       else write_file (Parsed config))
    (fun _ => ret tt).

(** [conversationHistory.slice(-20)] *)
Definition last_twenty {A} (l : list A) : list A :=
  skipn (length l - 20) l.

(** The callback of [limitedHistory.map] in [saveSession]; each message
    takes its own time stamp. *)
Fixpoint stamp_messages (history : list ChatMessage) : M Disk (list SavedMessage) :=
  match history with
  | [] => ret []
  | msg :: rest =>
      timestamp <- toISOString_now ;;
      saved <- stamp_messages rest ;;
      ret (mkSavedMessage (msg_role msg) (msg_content msg) (Some timestamp)
             (msg_tool_calls msg) (msg_tool_call_id msg) :: saved)
  end.

(** [saveSession]: the session is built, time stamps included, before
    it is assigned to [config.lastSession]. *)
Definition saveSession (provider model : string)
    (conversationHistory : option (list ChatMessage)) : M Disk unit :=
  try_catch
    (config <- getConfig ;;
     let limitedHistory := option_map last_twenty conversationHistory in
     timestamp <- toISOString_now ;;
     history <-
       match limitedHistory with
       | Some l => (saved <- stamp_messages l ;; ret (Some saved))
       | None => ret None
       end ;;
     config <-
       lift (write_property "lastSession"
               (with_lastSession (Some (mkLastSession provider model timestamp history)))
               config) ;;
     setConfig config)
    (fun _ => ret tt).

(** [getLastSession]: [config.lastSession || null] *)
Definition getLastSession : M Disk (option LastSession) :=
  try_catch
    (config <- getConfig ;; lift (read_property "lastSession" lastSession config))
    (fun _ => ret None).

(** [clearSession] *)
Definition clearSession : M Disk unit :=
  try_catch
    (config <- getConfig ;;
     config <- lift (delete_property (with_lastSession None) config) ;;
     setConfig config)
    (fun _ => ret tt).

End ConfigManager.

(** [getLocalSettings] and [setLocalSettings] *)
Definition getLocalSettings : M Disk Json := ConfigManager.getConfig.

Definition setLocalSettings (config : Json) : M Disk unit :=
  ConfigManager.setConfig config.

(** ** The rest of [ProviderManager] *)

(** [Partial<ProviderConfig>] *)
Record ConfigUpdates := mkUpdates {
  up_name : option ProviderName;
  up_enabled : option bool;
  up_priority : option Z
}.

(** [{ ...config, ...updates }] *)
Definition apply_updates (config : ProviderConfig) (updates : ConfigUpdates)
  : ProviderConfig :=
  mkConfig (default (name config) (up_name updates))
           (default (enabled config) (up_enabled updates))
           (default (priority config) (up_priority updates)).

(** [configs.findIndex(config => config.name === n)] *)
Fixpoint findIndex (n : ProviderName) (configs : list ProviderConfig) : option nat :=
  match configs with
  | [] => None
  | c :: rest =>
      if bool_decide (name c = n) then Some 0
      else option_map S (findIndex n rest)
  end.

(** The assignments to [this.providerConfigs] in [updateProviderConfig]. *)
Definition update_configs (n : ProviderName) (updates : ConfigUpdates)
    (configs : list ProviderConfig) : list ProviderConfig :=
  match findIndex n configs with
  | Some index =>
      match configs !! index with
      | Some c => <[index := apply_updates c updates]> configs
      | None => configs
      end
  | None =>
      configs ++ [apply_updates (mkConfig n true (Z.of_nat (length configs) + 1)) updates]
  end.

(** The provider a key of [PROVIDERS] stands for. *)
Definition provider_of_key (key : string) : option ProviderName :=
  List.find (fun n => String.eqb key (provider_key n)) getAvailableProviders.

Definition to_saved (c : ProviderConfig) : SavedProvider :=
  mkSavedProvider (provider_key (name c)) (enabled c) (priority c).

(** The [map] of [loadConfig], on an entry that passed the filter. *)
Definition of_saved (sp : SavedProvider) : ProviderConfig :=
  mkConfig (default groq (provider_of_key (sp_name sp))) (sp_enabled sp) (sp_priority sp).

(** The summary [getStatusSummary] returns. *)
Record StatusSummary := mkStatusSummary {
  sum_total : nat;
  sum_available : nat;
  sum_connected : nat;
  sum_active : option string
}.

(** [Array.from(map.values())] keeps the order of insertion; adapters
    enter the registry when they are created, so this is the order of
    their identities. *)
Fixpoint insert_by_id (p : Instance) (l : list Instance) : list Instance :=
  match l with
  | [] => [p]
  | q :: l' => if (inst_id p <=? inst_id q)%nat then p :: l else q :: insert_by_id p l'
  end.

Definition registered {W} (s : Manager W) : list Instance :=
  foldr insert_by_id [] (map snd (map_to_list (providers s))).

Section ProviderManagerRest.

Context {W : Type} `{LLMProvider W}.

Local Open Scope js_scope.

Definition set_providerConfigs (configs : list ProviderConfig) (s : Manager W) : Manager W :=
  mkManager (providers s) (activeProvider s) configs (next_object s) (calls s) (world s).

(** [getProviderConfigs] *)
Definition getProviderConfigs : M (Manager W) (list ProviderConfig) :=
  gets providerConfigs.

(** [saveConfig]: the settings are read, [providers] is replaced, the
    settings are written; a failure is logged and dropped. *)
Definition saveConfig : M (Manager W * Disk) unit :=
  fun sd =>
    let '(s, d) := sd in
    let '(_, d') :=
      try_catch
        (settings <- getLocalSettings ;;
         settings <-
           ConfigManager.lift
             (ConfigManager.write_property "providers"
                (ConfigManager.with_providers (Some (map to_saved (providerConfigs s))))
                settings) ;;
         setLocalSettings settings)
        (fun _ => ret tt) d in
    (Ok tt, (s, d')).

(** [loadConfig].  Names in the file that are properties of
    [Object.prototype] would pass [isValidProvider] too; the file is
    taken not to hold any. *)
Definition loadConfig : M (Manager W * Disk) unit :=
  fun sd =>
    let '(s, d) := sd in
    let '(r, d') :=
      (settings <- getLocalSettings ;;
       ConfigManager.lift (ConfigManager.read_property "providers" cfg_providers settings)) d in
    match r with
    | Ok (Some savedConfigs) =>
        (Ok tt,
         (set_providerConfigs
            (map of_saved
               (List.filter (fun config => isValidProvider (sp_name config)) savedConfigs))
            s, d'))
    | _ => (Ok tt, (s, d'))
    end.

(** [updateProviderConfig] *)
Definition updateProviderConfig (n : ProviderName) (updates : ConfigUpdates)
  : M (Manager W * Disk) unit :=
  fun sd =>
    let '(s, d) := sd in
    saveConfig (set_providerConfigs (update_configs n updates (providerConfigs s)) s, d).

(** [getStatusSummary] *)
Definition getStatusSummary : M (Manager W) StatusSummary :=
  detection <- detectProviders ;;
  active <- gets activeProvider ;;
  ret (mkStatusSummary
         (length detection)
         (length (List.filter d_available detection))
         (length (List.filter (fun d => st_connected (d_status d)) detection))
         (option_map (fun a => provider_key (inst_name a)) active)).

(** The loop of [cleanup]: a [cleanup] that throws is logged and the
    loop goes on. *)
Fixpoint cleanup_loop (ps : list Instance) : M (Manager W) unit :=
  match ps with
  | [] => ret tt
  | provider :: rest =>
      try_catch (invoke MCleanup cleanup provider) (fun _ => ret tt) ;;;
      cleanup_loop rest
  end.

(** [ProviderManager.cleanup] *)
Definition cleanup_all : M (Manager W) unit :=
  ps <- gets registered ;;
  cleanup_loop ps ;;;
  modify (fun s => mkManager ∅ None (providerConfigs s) (next_object s) (calls s) (world s)).

(** [healthCheck] *)
Definition healthCheck : M (Manager W) bool :=
  fun s =>
    match activeProvider s with
    | None => (Ok false, s)
    | Some active =>
        try_catch
          (status <- invoke MGetStatus getStatus active ;;
           ret (st_connected status))
          (fun _ => ret false) s
    end.

End ProviderManagerRest.

(** ** Notions used in the further statements *)

(** A reply or failure that comes before [limit] milliseconds. *)
Definition in_time {T} (limit : N) (o : FetchOutcome T) : bool :=
  match o with
  | Replies latency _ => (latency <? limit)%N
  | Fails latency _ => (latency <? limit)%N
  | Hangs => false
  end.

(** The chat endpoint of a local adapter does not answer the request
    issued in [w] within the adapter's timeout. *)
Definition chat_reply_late (p : Instance) (w : World) : Prop :=
  match inst_name p with
  | groq => False
  | ollama =>
      forall body, in_time 30000 (ollama_chat (services w) (clock w) body) = false
  | lmstudio =>
      forall body, in_time 60000 (lmstudio_chat (services w) (clock w) body) = false
  end.

(** No character of [s] is [c]. *)
Fixpoint lacks (c : ascii) (s : string) : bool :=
  match s with
  | EmptyString => true
  | String d t => negb (Ascii.eqb d c) && lacks c t
  end.

(** LM Studio's server answers every request for its models within the
    probing timeout, with an empty list. *)
Definition lmstudio_serves_nothing (w : World) : Prop :=
  forall k, exists latency r,
    lmstudio_models (services w) k = Replies latency r /\
    (latency < 5000)%N /\ response_ok r = true /\ json r = Some (mkLMStudioModels []).

(** The settings the file [config.json] holds: those of a file that
    parses, none when the file is missing or garbled. *)
Definition stored (d : Disk) : Config :=
  match config_file d with
  | Some (Parsed (Settings c)) => c
  | _ => ConfigManager.empty
  end.

(** What [getConfig] returns: the value the file parses to, the empty
    object when the file is missing or garbled. *)
Definition held (d : Disk) : Json :=
  match config_file d with
  | Some (Parsed v) => v
  | _ => Settings ConfigManager.empty
  end.

(** What [clearApiKey] leaves of a file that parses. *)
Definition cleared (v : Json) : option Json :=
  match v with
  | Settings c =>
      if ConfigManager.is_empty (ConfigManager.with_groqApiKey None c) then None
      else Some (Settings (ConfigManager.with_groqApiKey None c))
  | JsonNull => Some JsonNull
  | JsonArray [] => None
  | JsonString EmptyString => None
  | JsonNumber _ => None
  | JsonBoolean _ => None
  | other => Some other
  end.

(** The settings file parses, to a value that is no object. *)
Definition unstructured (d : Disk) : bool :=
  match config_file d with
  | Some (Parsed (Settings _)) => false
  | Some (Parsed _) => true
  | _ => false
  end.

(** A settings file, old or new, lies in the directory [~/.groq]. *)
Definition well_formed (d : Disk) : Prop :=
  config_file d <> None \/ old_config_file d <> None -> config_dir d = true.

(** A message of the conversation, and a message of a saved session,
    without the time stamp. *)
Definition kept (m : ChatMessage) : SavedMessage :=
  mkSavedMessage (msg_role m) (msg_content m) None (msg_tool_calls m) (msg_tool_call_id m).

Definition unstamped (m : SavedMessage) : SavedMessage :=
  mkSavedMessage (sm_role m) (sm_content m) None (sm_tool_calls m) (sm_tool_call_id m).

(** ** Further sample services and disks *)

(** Ollama is running; LM Studio's server is running with no model
    loaded. *)
Definition ollama_beside_empty_lmstudio : Services :=
  mkServices None (date_now offline) (toISOString offline) (toLowerCase offline)
    (groq_models_list offline) (groq_chat_create offline)
    (ollama_version ollama_running) (ollama_tags ollama_running)
    (ollama_chat ollama_running)
    (lmstudio_models lmstudio_without_models)
    (lmstudio_chat offline).

(** [String.prototype.toLowerCase] on a name in Greek capitals and on
    its last letter, and on ASCII text: a capital sigma becomes the
    final sigma at the end of a word, the plain one elsewhere. *)
Definition greek_lowercase (s : string) : string :=
  if String.eqb s "ΟΔΟΣ" then "οδος"
  else if String.eqb s "Σ" then "σ"
  else ascii_lowercase s.

(** LM Studio is running with one model loaded, whose id is that name;
    nothing else is reachable. *)
Definition greek_model_loaded : Services :=
  mkServices None (date_now offline) (fun _ => Some "2024-01-01T00:00:00.000Z")
    greek_lowercase
    (groq_models_list offline) (groq_chat_create offline)
    (ollama_version offline) (ollama_tags offline) (ollama_chat offline)
    (fun _ => Replies 3 (mkResponse 200 "OK" "{}"
                (Some (mkLMStudioModels
                         [mkLMStudioModel "ΟΔΟΣ" "model" 1704067200 "organization"]))))
    (lmstudio_chat offline).

(** A home directory without [~/.groq], and one whose [config.json]
    does not parse. *)
Definition fresh_disk : Disk :=
  mkDisk false None None false (fun _ => "2025-01-01T00:00:00.000Z") 0.

Definition garbled_disk : Disk :=
  mkDisk true (Some Garbled) None false (fun _ => "2025-01-01T00:00:00.000Z") 0.

(** [Number] on strings of decimal digits, with integers for numbers. *)
Definition decimal (s : string) : option Z :=
  match LMStudioProvider.digits_run s None with
  | (Some n, EmptyString) => Some n
  | _ => None
  end.

(** * Properties *)

Local Open Scope list_scope.

(** ** Sorting by priority *)

Lemma insert_by_priority_perm c l : Permutation (insert_by_priority c l) (c :: l).
Proof.
  induction l as [|d l IH]; simpl.
  - reflexivity.
  - destruct (priority c <=? priority d)%Z.
    + reflexivity.
    + rewrite IH. apply perm_swap.
Qed.

Lemma sort_by_priority_perm l : Permutation (sort_by_priority l) l.
Proof.
  induction l as [|c l IH]; simpl.
  - reflexivity.
  - rewrite insert_by_priority_perm, IH. reflexivity.
Qed.

Lemma sort_by_priority_In c l : In c (sort_by_priority l) <-> In c l.
Proof.
  split; apply Permutation_in; [|symmetry]; apply sort_by_priority_perm.
Qed.

Lemma insert_by_priority_sorted c l :
  StronglySorted by_priority l -> StronglySorted by_priority (insert_by_priority c l).
Proof.
  induction 1 as [|d l Hs IH Hd]; simpl.
  - repeat constructor.
  - destruct (priority c <=? priority d)%Z eqn:E.
    + apply Z.leb_le in E. constructor.
      * constructor; assumption.
      * constructor; [exact E|].
        eapply List.Forall_impl; [|exact Hd]. unfold by_priority. intros; lia.
    + apply Z.leb_gt in E. constructor; [assumption|].
      eapply Permutation_Forall; [symmetry; apply insert_by_priority_perm|].
      constructor; [unfold by_priority; lia | assumption].
Qed.

Lemma sort_by_priority_sorted l : StronglySorted by_priority (sort_by_priority l).
Proof.
  induction l as [|c l IH]; simpl.
  - constructor.
  - apply insert_by_priority_sorted, IH.
Qed.

Lemma filter_sorted (f : ProviderConfig -> bool) l :
  StronglySorted by_priority l -> StronglySorted by_priority (List.filter f l).
Proof.
  induction 1 as [|d l Hs IH Hd]; simpl.
  - constructor.
  - destruct (f d); [|assumption].
    constructor; [assumption|].
    rewrite List.Forall_forall in *. intros x Hx.
    apply List.filter_In in Hx. apply Hd, Hx.
Qed.

(** The candidates of [autoSelectProvider] are the enabled
    configurations whose detection result is available and connected,
    in ascending order of priority. *)
Lemma candidates_sorted detection configs :
  StronglySorted by_priority (candidates detection configs) /\
  Permutation (candidates detection configs)
              (List.filter (fun c => enabled c && usable detection c) configs).
Proof.
  unfold candidates. split.
  - apply filter_sorted, sort_by_priority_sorted.
  - induction configs as [|c l IH]; simpl; [reflexivity|].
    destruct (enabled c) eqn:Ee; simpl; [|exact IH].
    assert (Hp : Permutation
                   (List.filter (usable detection)
                      (insert_by_priority c (sort_by_priority (List.filter enabled l))))
                   (List.filter (usable detection)
                      (c :: sort_by_priority (List.filter enabled l)))).
    { generalize (insert_by_priority_perm c (sort_by_priority (List.filter enabled l))).
      generalize (insert_by_priority c (sort_by_priority (List.filter enabled l))).
      generalize (c :: sort_by_priority (List.filter enabled l)).
      intros l1 l2 P. induction P; simpl.
      - reflexivity.
      - destruct (usable detection x); [constructor|]; assumption.
      - destruct (usable detection x), (usable detection y);
          try reflexivity. apply perm_swap.
      - etransitivity; eassumption. }
    rewrite Hp. simpl. destruct (usable detection c); [constructor|]; exact IH.
Qed.

(** ** The registry and detection, for any adapters *)

Section ManagerFacts.

Context {W : Type} `{LLMProvider W}.

Lemma registry_ok_spec (s : Manager W) :
  registry_ok s = true <->
  forall n p, providers s !! n = Some p -> inst_name p = n.
Proof.
  unfold registry_ok, getAvailableProviders. simpl.
  rewrite !andb_true_iff. split.
  - intros (Hg & Ho & Hl & _) n p Hp.
    destruct n; rewrite Hp in *;
      match goal with
      | H : bool_decide (inst_name p = ?k) = true |- inst_name p = ?k =>
          exact (bool_decide_eq_true_1 _ H)
      end.
  - intros Hs.
    repeat split;
      match goal with
      | |- match providers s !! ?k with _ => _ end = true =>
          destruct (providers s !! k) as [q|] eqn:E;
          [apply bool_decide_eq_true_2; eauto | reflexivity]
      end.
Qed.

Lemma the_instance_name (s : Manager W) n :
  registry_ok s = true -> inst_name (the_instance n s) = n.
Proof.
  intros Hok. unfold the_instance.
  destruct (providers s !! n) as [p|] eqn:E; [|reflexivity].
  eapply registry_ok_spec; eauto.
Qed.

(** What [getProviderInstance] returns and what it leaves behind. *)
Lemma getProviderInstance_facts n (s : Manager W) :
  exists s',
    getProviderInstance n s = (Ok (the_instance n s), s') /\
    providers s' !! n = Some (the_instance n s) /\
    (forall m q, providers s !! m = Some q -> providers s' !! m = Some q) /\
    activeProvider s' = activeProvider s /\
    providerConfigs s' = providerConfigs s /\
    calls s' = calls s /\
    world s' = world s /\
    (registry_ok s = true -> registry_ok s' = true).
Proof.
  unfold getProviderInstance, the_instance.
  destruct (providers s !! n) as [p|] eqn:E.
  - exists s. repeat split; auto.
  - eexists. split; [reflexivity|]. simpl.
    split; [apply lookup_insert_eq|].
    split.
    { intros m q Hm. destruct (decide (n = m)) as [->|Hne].
      - congruence.
      - rewrite lookup_insert_ne; auto. }
    repeat split; auto.
    rewrite !registry_ok_spec. simpl. intros Hs m q.
    destruct (decide (n = m)) as [->|Hne].
    + rewrite lookup_insert_eq. intros [= <-]. reflexivity.
    + rewrite lookup_insert_ne; auto.
Qed.

Lemma invoke_eq {A} mth (f : Instance -> M W A) p (s : Manager W) :
  invoke mth f p s =
    (fst (f p (world s)),
     log_call (mkCall p mth (is_ok (fst (f p (world s)))) (activeProvider s))
              (set_world (snd (f p (world s))) s)).
Proof. unfold invoke. destruct (f p (world s)); reflexivity. Qed.

Lemma probes_only_refl (s : Manager W) : probes_only s s.
Proof.
  unfold probes_only.
  split; [reflexivity|]. split; [reflexivity|]. split; [auto|]. split; [auto|].
  exists []. rewrite app_nil_r. split; [reflexivity | constructor].
Qed.

Lemma probes_only_trans (s1 s2 s3 : Manager W) :
  probes_only s1 s2 -> probes_only s2 s3 -> probes_only s1 s3.
Proof.
  intros (Ha & Hc & Hr & Hk & n1 & Hn1 & Hf1) (Ha' & Hc' & Hr' & Hk' & n2 & Hn2 & Hf2).
  unfold probes_only.
  split; [congruence|]. split; [congruence|]. split; [auto|]. split; [auto|].
  exists (n1 ++ n2). split.
  - rewrite Hn2, Hn1, app_assoc. reflexivity.
  - apply Forall_app. split; [assumption|]. rewrite <- Ha. assumption.
Qed.

(** One probe, whatever it answers, is a step of [probes_only]. *)
Lemma probes_only_invoke (s0 s1 : Manager W) (p : Instance) mth b a w :
  is_probe mth = true ->
  a = activeProvider s1 ->
  probes_only s0 s1 ->
  probes_only s0 (log_call (mkCall p mth b a) (set_world w s1)).
Proof.
  intros Hm -> (Ha & Hc & Hr & Hk & n1 & Hn1 & Hf1).
  unfold probes_only. simpl.
  split; [assumption|]. split; [assumption|]. split; [assumption|]. split.
  - intros Hok. specialize (Hk Hok). revert Hk.
    rewrite !registry_ok_spec. simpl. auto.
  - exists (n1 ++ [mkCall p mth b (activeProvider s1)]). split.
    + rewrite Hn1, app_assoc. reflexivity.
    + apply Forall_app. split; [assumption|].
      constructor; [|constructor]. split; simpl; auto.
Qed.

(** The loop body of [detectProviders] always yields a result for
    the name it was given. *)
Lemma detect_one_facts n (s : Manager W) :
  exists d s',
    detect_one n s = (Ok d, s') /\ d_provider d = n /\ probes_only s s'.
Proof.
  destruct (getProviderInstance_facts n s)
    as (s1 & E1 & _ & Hr & Ha & Hc & Hl & _ & Hk).
  assert (P1 : probes_only s s1).
  { unfold probes_only.
    split; [assumption|]. split; [assumption|]. split; [assumption|].
    split; [assumption|].
    exists []. rewrite app_nil_r. split; [assumption | constructor]. }
  unfold detect_one, try_catch, bind. rewrite E1, invoke_eq.
  destruct (isAvailable (the_instance n s) (world s1)) as [[a|t] w1]; simpl.
  2:{ eexists _, _. split; [reflexivity|]. split; [reflexivity|].
      apply probes_only_invoke; auto. }
  rewrite invoke_eq. simpl.
  destruct (getStatus (the_instance n s) w1) as [[st|t] w2]; simpl.
  2:{ eexists _, _. split; [reflexivity|]. split; [reflexivity|].
      do 2 (apply probes_only_invoke; [reflexivity | reflexivity |]). exact P1. }
  destruct (st_connected st); simpl.
  - unfold try_catch, bind. rewrite invoke_eq. simpl.
    destruct (listModels (the_instance n s) w2) as [[ms|t] w3]; simpl;
      (eexists _, _; split; [reflexivity|]; split; [reflexivity|];
       do 3 (apply probes_only_invoke; [reflexivity | reflexivity |]); exact P1).
  - eexists _, _. split; [reflexivity|]. split; [reflexivity|].
    do 2 (apply probes_only_invoke; [reflexivity | reflexivity |]). exact P1.
Qed.

Lemma detect_loop_facts names : forall results (s : Manager W),
  exists found s',
    detect_loop names results s = (Ok (results ++ found), s') /\
    map d_provider found = names /\
    probes_only s s'.
Proof.
  induction names as [|n rest IH]; intros results s; simpl.
  - exists [], s. rewrite app_nil_r.
    split; [reflexivity|]. split; [reflexivity | apply probes_only_refl].
  - destruct (detect_one_facts n s) as (d & s1 & E1 & Hd & P1).
    unfold bind. rewrite E1.
    destruct (IH (results ++ [d]) s1) as (found & s2 & E2 & Hf & P2).
    exists (d :: found), s2. rewrite E2, <- app_assoc. simpl.
    split; [reflexivity|]. split; [congruence | eauto using probes_only_trans].
Qed.

Lemma detectProviders_facts (s : Manager W) :
  exists detection s',
    detectProviders s = (Ok detection, s') /\
    map d_provider detection = getAvailableProviders /\
    probes_only s s'.
Proof.
  destruct (detect_loop_facts getAvailableProviders [] s) as (found & s' & E & Hm & P).
  exists found, s'. auto.
Qed.

Lemma calls_under_refl a (s : Manager W) : calls_under a s s.
Proof.
  unfold calls_under. split; [reflexivity|]. split; [auto|].
  exists []. rewrite app_nil_r. split; [reflexivity | constructor].
Qed.

Lemma calls_under_trans a (s1 s2 s3 : Manager W) :
  calls_under a s1 s2 -> calls_under a s2 s3 -> calls_under a s1 s3.
Proof.
  intros (Hc & Hk & n1 & Hn1 & Hf1) (Hc' & Hk' & n2 & Hn2 & Hf2).
  unfold calls_under. split; [congruence|]. split; [auto|].
  exists (n1 ++ n2). split.
  - rewrite Hn2, Hn1, app_assoc. reflexivity.
  - apply Forall_app. auto.
Qed.

Lemma registry_ok_same (s s' : Manager W) :
  providers s' = providers s -> registry_ok s' = registry_ok s.
Proof. unfold registry_ok. intros ->. reflexivity. Qed.

Lemma calls_under_invoke a (s0 s1 : Manager W) (p : Instance) mth b w :
  a = activeProvider s1 ->
  calls_under a s0 s1 ->
  calls_under a s0 (log_call (mkCall p mth b a) (set_world w s1)).
Proof.
  intros Ha (Hc & Hk & n1 & Hn1 & Hf1).
  unfold calls_under. simpl. split; [assumption|]. split.
  - intros Hok. rewrite <- (Hk Hok). apply registry_ok_same. reflexivity.
  - exists (n1 ++ [mkCall p mth b a]). split.
    + rewrite Hn1, app_assoc. reflexivity.
    + apply Forall_app. split; [assumption|]. constructor; [reflexivity | constructor].
Qed.

Lemma calls_under_set_active a b (s0 s1 : Manager W) :
  calls_under a s0 s1 -> calls_under a s0 (set_activeProvider b s1).
Proof.
  intros (Hc & Hk & n1 & Hn1 & Hf1).
  unfold calls_under. simpl. split; [assumption|]. split.
  - intros Hok. rewrite <- (Hk Hok). apply registry_ok_same. reflexivity.
  - exists n1. auto.
Qed.

Lemma probes_only_calls_under (s s' : Manager W) :
  probes_only s s' -> calls_under (activeProvider s) s s'.
Proof.
  intros (_ & Hc & _ & Hk & new & Hn & Hf).
  unfold calls_under. split; [assumption|]. split; [assumption|].
  exists new. split; [assumption|].
  eapply List.Forall_impl; [|exact Hf]. intros c [Hc' _]. exact Hc'.
Qed.

(** [setActiveProvider] either makes the adapter for [n] the active
    provider or throws and leaves the active provider as it was;
    every adapter call it makes happens before the switch. *)
Lemma setActiveProvider_facts n (s : Manager W) :
  exists r s',
    setActiveProvider n s = (r, s') /\
    calls_under (activeProvider s) s s' /\
    match r with
    | Ok _ => activeProvider s' = Some (the_instance n s)
    | Throw _ => activeProvider s' = activeProvider s
    end.
Proof.
  destruct (getProviderInstance_facts n s)
    as (s1 & E1 & _ & _ & Ha & Hc & Hl & Hw & Hk).
  assert (C1 : calls_under (activeProvider s) s s1).
  { unfold calls_under. split; [assumption|]. split; [assumption|].
    exists []. rewrite app_nil_r. split; [assumption | constructor]. }
  unfold setActiveProvider.
  replace (isValidProvider (provider_key n)) with true by (destruct n; reflexivity).
  simpl. unfold bind at 1. rewrite E1.
  unfold bind at 1. rewrite invoke_eq.
  destruct (getStatus (the_instance n s) (world s1)) as [[st|t] w1]; simpl.
  2:{ eexists _, _. split; [reflexivity|]. simpl. split; [|assumption].
      rewrite Ha. apply calls_under_invoke; [symmetry|]; assumption. }
  destruct (st_connected st); simpl.
  2:{ unfold throw. eexists _, _. split; [reflexivity|]. simpl. split; [|assumption].
      rewrite Ha. apply calls_under_invoke; [symmetry|]; assumption. }
  unfold bind at 1. unfold gets at 1. simpl.
  rewrite Ha.
  assert (C2 : calls_under (activeProvider s) s
                 (log_call (mkCall (the_instance n s) MGetStatus true (activeProvider s))
                           (set_world w1 s1))).
  { apply calls_under_invoke; [symmetry|]; assumption. }
  set (s2 := log_call (mkCall (the_instance n s) MGetStatus true (activeProvider s))
                      (set_world w1 s1)) in *.
  assert (A2 : activeProvider s2 = activeProvider s) by exact Ha.
  clearbody s2.
  assert (K : forall s3 : Manager W,
             calls_under (activeProvider s) s s3 ->
             activeProvider s3 = activeProvider s ->
             exists r s',
               (invoke MInitialize initialize (the_instance n s) ;;;
                modify (set_activeProvider (Some (the_instance n s))))%js s3 = (r, s') /\
               calls_under (activeProvider s) s s' /\
               match r with
               | Ok _ => activeProvider s' = Some (the_instance n s)
               | Throw _ => activeProvider s' = activeProvider s
               end).
  { intros s3 C3 A3. unfold bind. rewrite invoke_eq.
    destruct (initialize (the_instance n s) (world s3)) as [[u|t] w3]; simpl.
    - unfold modify. eexists _, _. split; [reflexivity|]. split; [|reflexivity].
      apply calls_under_set_active. rewrite A3.
      apply calls_under_invoke; [symmetry|]; assumption.
    - eexists _, _. split; [reflexivity|]. simpl. split; [|assumption].
      rewrite A3. apply calls_under_invoke; [symmetry|]; assumption. }
  destruct (activeProvider s) as [current|] eqn:Eact.
  - destruct (bool_decide (current <> the_instance n s)).
    + unfold bind at 1. rewrite invoke_eq.
      destruct (cleanup current (world s2)) as [[u|t] w2]; simpl.
      * apply K; simpl; [|assumption].
        rewrite A2. apply calls_under_invoke; [symmetry|]; assumption.
      * eexists _, _. split; [reflexivity|]. simpl. split; [|assumption].
        rewrite A2. apply calls_under_invoke; [symmetry|]; assumption.
    + unfold bind at 1. unfold ret at 1. apply K; assumption.
  - unfold bind at 1. unfold ret at 1. apply K; assumption.
Qed.

(** The loop of [failover], entered with no active provider: it
    never throws; it ends with the adapter of one of the
    configurations as the active provider, or with none. *)
Lemma failover_loop_facts detection configs : forall s : Manager W,
  activeProvider s = None ->
  exists r s',
    failover_loop detection configs s = (Ok r, s') /\
    calls_under None s s' /\
    activeProvider s' = r /\
    match r with
    | Some q =>
        registry_ok s = true -> exists c, In c configs /\ inst_name q = name c
    | None => True
    end.
Proof.
  induction configs as [|c rest IH]; intros s Hnone; simpl.
  - exists None, s. split; [reflexivity|]. split; [apply calls_under_refl|]. auto.
  - destruct (usable detection c).
    + destruct (setActiveProvider_facts (name c) s) as (r & s1 & E & C & Hact).
      rewrite E. rewrite Hnone in C. destruct r as [u|t].
      * exists (Some (the_instance (name c) s)), s1. rewrite Hact.
        split; [reflexivity|]. split; [assumption|]. split; [reflexivity|].
        intros Hok. exists c. split; [left; reflexivity|].
        apply the_instance_name, Hok.
      * rewrite Hnone in Hact.
        destruct (IH s1 Hact) as (r & s' & E' & C' & Hact' & Hr).
        exists r, s'. split; [assumption|].
        split; [eapply calls_under_trans; eassumption|]. split; [assumption|].
        destruct r as [q|]; [|exact I].
        intros Hok. destruct C as (_ & Hk & _).
        destruct (Hr (Hk Hok)) as (c' & Hin & Hq).
        exists c'. split; [right; assumption | assumption].
    + destruct (IH s Hnone) as (r & s' & E' & C' & Hact' & Hr).
      exists r, s'. split; [assumption|]. split; [assumption|]. split; [assumption|].
      destruct r as [q|]; [|exact I].
      intros Hok. destruct (Hr Hok) as (c' & Hin & Hq).
      exists c'. split; [right; assumption | assumption].
Qed.

(** [failover] after its first step: detection and the loop, entered
    with no active provider. *)
Lemma failover_rest_facts currentName (s : Manager W) :
  activeProvider s = None ->
  exists r s',
    (detection <- detectProviders ;;
     configs <- gets providerConfigs ;;
     failover_loop detection
       (sort_by_priority (List.filter (failover_candidate currentName) configs)))%js s
    = (Ok r, s') /\
    calls_under None s s' /\
    activeProvider s' = r /\
    match r with
    | Some q =>
        registry_ok s = true ->
        exists c, In c (providerConfigs s) /\
                  failover_candidate currentName c = true /\
                  inst_name q = name c
    | None => True
    end.
Proof.
  intros Hnone.
  destruct (detectProviders_facts s) as (detection & s1 & E1 & _ & P1).
  pose proof (probes_only_calls_under _ _ P1) as C1. rewrite Hnone in C1.
  destruct P1 as (Ha1 & Hc1 & _ & Hk1 & _).
  unfold bind at 1. rewrite E1. unfold bind at 1. unfold gets at 1.
  destruct (failover_loop_facts detection
              (sort_by_priority (List.filter (failover_candidate currentName)
                                   (providerConfigs s1)))
              s1 (eq_trans Ha1 Hnone))
    as (r & s' & E & C & Hact & Hr).
  exists r, s'. split; [assumption|].
  split; [eapply calls_under_trans; eassumption|]. split; [assumption|].
  destruct r as [q|]; [|exact I].
  intros Hok. destruct (Hr (Hk1 Hok)) as (c & Hin & Hq).
  apply sort_by_priority_In, List.filter_In in Hin. destruct Hin as [Hin Hcand].
  exists c. rewrite <- Hc1. auto.
Qed.

(** C5: when some provider is active, the provider [failover]
    returns is never that provider: it is another object, built from
    another class.  The adapters are arbitrary, so this holds also
    when detection still reports the failed provider as connected. *)
Theorem failover_never_returns_failed (s : Manager W) current q :
  registry_ok s = true ->
  activeProvider s = Some current ->
  fst (failover s) = Ok (Some q) ->
  inst_name q <> inst_name current /\ q <> current.
Proof.
  intros Hok Hact Hres.
  cut (inst_name q <> inst_name current); [intros Hn; split; congruence|].
  revert Hres. unfold failover.
  unfold bind at 1. unfold gets at 1. rewrite Hact. simpl.
  unfold bind at 1. unfold bind at 1. rewrite invoke_eq.
  destruct (cleanup current (world s)) as [[u|t] w1]; simpl; [|discriminate].
  set (s1 := set_activeProvider None _).
  destruct (failover_rest_facts (Some (inst_name current)) s1 eq_refl)
    as (r & s' & E & _ & _ & Hr).
  rewrite E. simpl. intros [= ->].
  assert (Hok1 : registry_ok s1 = true).
  { rewrite <- Hok. apply registry_ok_same. reflexivity. }
  destruct (Hr Hok1) as (c & _ & Hcand & Hq).
  unfold failover_candidate in Hcand.
  apply andb_true_iff in Hcand. destruct Hcand as [_ Hne].
  apply bool_decide_eq_true_1 in Hne. congruence.
Qed.

Lemma failover_facts (s : Manager W) :
  exists r s' new,
    failover s = (r, s') /\
    calls s' = calls s ++ new /\
    (registry_ok s = true -> registry_ok s' = true) /\
    match activeProvider s with
    | Some current =>
        exists returned rest,
          new = mkCall current MCleanup returned (Some current) :: rest /\
          Forall (fun c => call_active c = None) rest
    | None => Forall (fun c => call_active c = None) new
    end /\
    match r with
    | Ok found => activeProvider s' = found
    | Throw _ => exists current, activeProvider s = Some current
    end.
Proof.
  unfold failover.
  unfold bind at 1. unfold gets at 1.
  destruct (activeProvider s) as [current|] eqn:Hact; simpl.
  - unfold bind at 1. unfold bind at 1. rewrite invoke_eq, Hact.
    destruct (cleanup current (world s)) as [[u|t] w1]; simpl.
    + set (s1 := set_activeProvider None _).
      destruct (failover_rest_facts (Some (inst_name current)) s1 eq_refl)
        as (r & s' & E & (_ & Hk & new & Hn & Hf) & Ha & _).
      rewrite E.
      exists (Ok r), s', (mkCall current MCleanup true (Some current) :: new).
      split; [reflexivity|]. split.
      * rewrite Hn. unfold s1. simpl. rewrite <- app_assoc. reflexivity.
      * split; [|split; [eauto | assumption]].
        intros Hok. apply Hk. rewrite <- Hok. apply registry_ok_same. reflexivity.
    + eexists _, _, [mkCall current MCleanup false (Some current)].
      split; [reflexivity|]. split; [reflexivity|]. split.
      * intros Hok. rewrite <- Hok. apply registry_ok_same. reflexivity.
      * split; [|eauto]. exists false, []. split; [reflexivity | constructor].
  - unfold bind at 1. unfold ret at 1.
    destruct (failover_rest_facts None s Hact)
      as (r & s' & E & (_ & Hk & new & Hn & Hf) & Ha & _).
    rewrite E. exists (Ok r), s', new. auto 6.
Qed.

(** [failover] throws only what [cleanup] of the active provider
    throws. *)
Lemma failover_returns_when_cleanup_does (s : Manager W) :
  (forall p w, is_ok (fst (cleanup p w)) = true) ->
  is_ok (fst (failover s)) = true.
Proof.
  intros Hclean. unfold failover. unfold bind at 1. unfold gets at 1.
  destruct (activeProvider s) as [current|] eqn:Hact; simpl.
  - unfold bind at 1. unfold bind at 1. rewrite invoke_eq.
    specialize (Hclean current (world s)).
    destruct (cleanup current (world s)) as [[u|t] w1]; simpl in *; [|discriminate].
    set (s1 := set_activeProvider None _).
    destruct (failover_rest_facts (Some (inst_name current)) s1 eq_refl)
      as (r & s' & E & _).
    rewrite E. reflexivity.
  - unfold bind at 1. unfold ret at 1.
    destruct (failover_rest_facts None s Hact) as (r & s' & E & _).
    rewrite E. reflexivity.
Qed.


(** The loop of [autoSelectProvider]: it never throws; the usable
    configurations are tried in order, each failed [initialize] moves
    on to the next, the first success ends the loop. *)
Lemma autoSelect_loop_facts detection configs : forall s : Manager W,
  registry_ok s = true ->
  exists r s' tried new,
    autoSelect_loop detection configs s = (Ok r, s') /\
    calls s' = calls s ++ new /\
    registry_ok s' = true /\
    match r with
    | Some p =>
        exists c rest,
          List.filter (usable detection) configs = tried ++ c :: rest /\
          inst_name p = name c /\
          activeProvider s' = Some p /\
          initialize_calls new
            = map (fun c' => (name c', false)) tried ++ [(name c, true)]
    | None =>
        List.filter (usable detection) configs = tried /\
        activeProvider s' = activeProvider s /\
        initialize_calls new = map (fun c' => (name c', false)) tried
    end.
Proof.
  induction configs as [|c rest IH]; intros s Hok; simpl.
  - exists None, s, [], []. rewrite app_nil_r. auto 6.
  - destruct (usable detection c).
    + destruct (getProviderInstance_facts (name c) s)
        as (s1 & E1 & _ & _ & Ha & _ & Hl & _ & Hk).
      unfold bind at 1. rewrite E1.
      unfold bind at 1. rewrite invoke_eq.
      pose proof (the_instance_name s (name c) Hok) as Hname.
      destruct (initialize (the_instance (name c) s) (world s1)) as [[u|t] w1]; simpl.
      * exists (Some (the_instance (name c) s)). eexists.
        exists [], [mkCall (the_instance (name c) s) MInitialize true (activeProvider s1)].
        split; [reflexivity|]. simpl. split; [rewrite Hl; reflexivity|].
        split; [rewrite <- (Hk Hok); apply registry_ok_same; reflexivity|].
        exists c, (List.filter (usable detection) rest).
        split; [reflexivity|]. split; [assumption|]. split; [reflexivity|].
        unfold initialize_calls. simpl. rewrite Hname. reflexivity.
      * set (s2 := log_call _ _).
        assert (Hok2 : registry_ok s2 = true).
        { rewrite <- (Hk Hok). apply registry_ok_same. reflexivity. }
        destruct (IH s2 Hok2) as (r & s' & tried & new & E & Hn & Hok' & Hr).
        exists r, s', (c :: tried),
          (mkCall (the_instance (name c) s) MInitialize false (activeProvider s1) :: new).
        split; [assumption|]. split.
        { rewrite Hn. unfold s2. simpl. rewrite Hl, <- app_assoc. reflexivity. }
        split; [assumption|].
        destruct r as [p|].
        -- destruct Hr as (c' & rest' & Hf & Hp & Hact & Hi).
           exists c', rest'. rewrite Hf. split; [reflexivity|].
           split; [assumption|]. split; [assumption|].
           unfold initialize_calls in *. simpl. rewrite Hname, Hi. reflexivity.
        -- destruct Hr as (Hf & Hact & Hi).
           rewrite Hf. split; [reflexivity|]. split; [rewrite Hact; exact Ha|].
           unfold initialize_calls in *. simpl. rewrite Hname, Hi. reflexivity.
    + apply IH, Hok.
Qed.

(** C1, as amended: [autoSelectProvider] never throws.  It tries the
    enabled backends whose detection result has [available] and
    [connected], in ascending order of priority number (equal
    priorities in configuration order), calling [initialize] on each;
    it returns, and makes active, the first one whose [initialize]
    succeeds, and returns [null] when none does. *)
Theorem autoSelectProvider_first_initialized (s : Manager W) :
  registry_ok s = true ->
  exists detection s1 r s' tried new,
    detectProviders s = (Ok detection, s1) /\
    autoSelectProvider s = (Ok r, s') /\
    calls s' = calls s1 ++ new /\
    StronglySorted by_priority (candidates detection (providerConfigs s)) /\
    Permutation (candidates detection (providerConfigs s))
      (List.filter (fun c => enabled c && usable detection c) (providerConfigs s)) /\
    match r with
    | Some p =>
        exists c rest,
          candidates detection (providerConfigs s) = tried ++ c :: rest /\
          inst_name p = name c /\
          activeProvider s' = Some p /\
          initialize_calls new
            = map (fun c' => (name c', false)) tried ++ [(name c, true)]
    | None =>
        candidates detection (providerConfigs s) = tried /\
        activeProvider s' = activeProvider s /\
        initialize_calls new = map (fun c' => (name c', false)) tried
    end.
Proof.
  intros Hok.
  destruct (detectProviders_facts s) as (detection & s1 & E1 & _ & P1).
  destruct P1 as (Ha1 & Hc1 & _ & Hk1 & _).
  destruct (autoSelect_loop_facts detection
              (sort_by_priority (List.filter enabled (providerConfigs s1)))
              s1 (Hk1 Hok))
    as (r & s' & tried & new & E & Hn & _ & Hr).
  exists detection, s1, r, s', tried, new.
  split; [assumption|]. split.
  { unfold autoSelectProvider. unfold bind at 1. rewrite E1.
    unfold bind at 1. unfold gets at 1. assumption. }
  split; [assumption|].
  destruct (candidates_sorted detection (providerConfigs s)) as [Hs Hp].
  split; [assumption|]. split; [assumption|].
  unfold candidates. rewrite <- Hc1, <- Ha1. assumption.
Qed.

(** The example of C1: with the default priorities, when detection
    reports groq as not connected and ollama as available and
    connected, and [initialize] of the Ollama adapter succeeds, the
    provider selected is ollama. *)
Lemma autoSelectProvider_default_example (s : Manager W) detection s1 :
  providerConfigs s = initializeDefaultConfigs ->
  detectProviders s = (Ok detection, s1) ->
  usable detection (mkConfig groq true 1) = false ->
  usable detection (mkConfig ollama true 2) = true ->
  is_ok (fst (initialize (the_instance ollama s1) (world s1))) = true ->
  fst (autoSelectProvider s) = Ok (Some (the_instance ollama s1)).
Proof.
  intros Hcfg E1 Hg Ho Hinit.
  destruct (detectProviders_facts s) as (d' & s1' & E1' & _ & P1).
  rewrite E1 in E1'. injection E1' as <- <-.
  destruct P1 as (_ & Hc1 & _).
  unfold autoSelectProvider. unfold bind at 1. rewrite E1.
  unfold bind at 1. unfold gets at 1. rewrite Hc1, Hcfg. simpl.
  rewrite Hg, Ho.
  destruct (getProviderInstance_facts ollama s1) as (s2 & E2 & _ & _ & _ & _ & _ & Hw & _).
  unfold bind at 1. rewrite E2. unfold bind at 1. rewrite invoke_eq, Hw.
  destruct (initialize (the_instance ollama s1) (world s1)) as [[u|t] w1];
    simpl in *; [reflexivity | discriminate].
Qed.

(** C2: [detectProviders] never raises, whatever the adapters'
    [isAvailable], [getStatus] and [listModels] do (they are arbitrary
    here and may throw), and it returns exactly one detection result
    per known provider, in the order groq, ollama, lmstudio: a list of
    length 3. *)
Theorem detectProviders_never_raises (s : Manager W) :
  exists detection s',
    detectProviders s = (Ok detection, s') /\
    map d_provider detection = [groq; ollama; lmstudio] /\
    length detection = 3.
Proof.
  destruct (detectProviders_facts s) as (detection & s' & E & Hm & _).
  exists detection, s'. split; [assumption|]. split; [assumption|].
  rewrite <- (length_map d_provider), Hm. reflexivity.
Qed.

(** C8: two successive calls of [getProviderInstance n] return the
    same adapter object (the second call changes nothing), and a call
    keeps every adapter that was in the registry before it under the
    same name. *)
Theorem getProviderInstance_memoized n (s : Manager W) :
  exists p s1,
    getProviderInstance n s = (Ok p, s1) /\
    getProviderInstance n s1 = (Ok p, s1) /\
    forall m q, providers s !! m = Some q -> providers s1 !! m = Some q.
Proof.
  destruct (getProviderInstance_facts n s) as (s1 & E1 & Hn & Hr & _).
  exists (the_instance n s), s1. split; [assumption|]. split; [|assumption].
  unfold getProviderInstance. rewrite Hn. reflexivity.
Qed.

(** C4: when the status of the adapter for [n] reports
    [connected = false], [setActiveProvider n] throws an [Error] whose
    message names the provider, the active provider is the one it was
    before the call ([getActiveProvider] returns the same object), and
    the only adapter call made is that [getStatus]: [cleanup] is not
    called on anything. *)
Theorem setActiveProvider_disconnected n (s : Manager W) st :
  fst (getStatus (the_instance n s) (world s)) = Ok st ->
  st_connected st = false ->
  exists s',
    setActiveProvider n s =
      (Throw (Error ("Provider " ++ provider_key n ++ " is not available or connected")%string),
       s') /\
    activeProvider s' = activeProvider s /\
    fst (getActiveProvider s') = fst (getActiveProvider s) /\
    calls s' = calls s ++ [mkCall (the_instance n s) MGetStatus true (activeProvider s)].
Proof.
  intros Hst Hconn.
  destruct (getProviderInstance_facts n s)
    as (s1 & E1 & _ & _ & Ha & _ & Hl & Hw & _).
  unfold setActiveProvider.
  replace (isValidProvider (provider_key n)) with true by (destruct n; reflexivity).
  simpl. unfold bind at 1. rewrite E1.
  unfold bind at 1. rewrite invoke_eq, Hw.
  destruct (getStatus (the_instance n s) (world s)) as [r w]. simpl in Hst. subst r.
  simpl. rewrite Hconn. simpl. unfold throw.
  eexists. split; [reflexivity|]. simpl.
  rewrite Ha, Hl. auto.
Qed.

(** The registry is well formed in every state the manager reaches:
    the hypothesis of the statements on [autoSelectProvider] and
    [failover] always holds. *)
Lemma registry_ok_perform o (s : Manager W) :
  registry_ok s = true -> registry_ok (perform o s) = true.
Proof.
  intros Hok. destruct o; simpl.
  - destruct (detectProviders_facts s) as (d & s' & E & _ & (_ & _ & _ & Hk & _)).
    rewrite E. auto.
  - destruct (detectProviders_facts s) as (d & s1 & E & _ & (_ & _ & _ & Hk & _)).
    unfold autoSelectProvider. unfold bind at 1. rewrite E.
    unfold bind at 1. unfold gets at 1.
    destruct (autoSelect_loop_facts d
                (sort_by_priority (List.filter enabled (providerConfigs s1))) s1 (Hk Hok))
      as (r & s' & tried & new & E' & _ & Hok' & _).
    rewrite E'. exact Hok'.
  - destruct (setActiveProvider_facts n s) as (r & s' & E & (_ & Hk & _) & _).
    rewrite E. auto.
  - exact Hok.
  - destruct (getProviderInstance_facts n s) as (s' & E & _ & _ & _ & _ & _ & _ & Hk).
    unfold getProvider. rewrite E. auto.
  - destruct (detectProviders_facts s) as (d & s' & E & _ & (_ & _ & _ & Hk & _)).
    unfold getAllModels, bind. rewrite E. auto.
  - destruct (detectProviders_facts s) as (d & s' & E & _ & (_ & _ & _ & Hk & _)).
    unfold findModels, getAllModels, bind. rewrite E. auto.
  - destruct (failover_facts s) as (r & s' & new & E & _ & Hk & _).
    rewrite E. auto.
Qed.

Lemma registry_ok_after ops (w : W) : registry_ok (after ops w) = true.
Proof.
  unfold after. assert (H0 : registry_ok (new_manager w) = true) by reflexivity.
  revert H0. generalize (new_manager w).
  induction ops as [|o ops IH]; intros s Hs; simpl; [exact Hs|].
  apply IH, registry_ok_perform, Hs.
Qed.

End ManagerFacts.

(** ** The three adapters under the manager *)

(** [cleanup] of each of the three adapters returns. *)
Lemma cleanup_returns p (w : World) : fst (cleanup p w) = Ok tt.
Proof. unfold cleanup, PROVIDERS. destruct (inst_name p); reflexivity. Qed.

(** With the three adapters, [failover] never throws. *)
Lemma failover_returns (s : Manager World) : is_ok (fst (failover s)) = true.
Proof.
  apply failover_returns_when_cleanup_does.
  intros p w. rewrite cleanup_returns. reflexivity.
Qed.

(** ** Case-insensitive search *)

Lemma append_cons c a b : (String c a ++ b)%string = String c (a ++ b)%string.
Proof. reflexivity. Qed.

Lemma append_nil b : (EmptyString ++ b)%string = b.
Proof. reflexivity. Qed.

Lemma startsWith_spec s p :
  startsWith s p = true <-> exists post, s = (p ++ post)%string.
Proof.
  unfold startsWith. revert s. induction p as [|c p IH]; intros [|d s]; simpl.
  - split; [intros _; exists EmptyString; reflexivity | reflexivity].
  - split; [intros _; exists (String d s); reflexivity | reflexivity].
  - split; [discriminate | intros [post Hp]; discriminate].
  - destruct (Ascii.ascii_dec c d) as [->|Hne].
    + rewrite IH. split; intros [post Hp]; exists post;
        rewrite append_cons in *; congruence.
    + split; [discriminate | intros [post Hp]; rewrite append_cons in Hp; congruence].
Qed.

Lemma includes_eq s sub :
  includes s sub =
    startsWith s sub ||
    match s with
    | EmptyString => false
    | String _ t => includes t sub
    end.
Proof. destruct s; reflexivity. Qed.

Lemma includes_spec s sub :
  includes s sub = true <-> exists pre post, s = (pre ++ sub ++ post)%string.
Proof.
  induction s as [|c s IH]; rewrite includes_eq, orb_true_iff, startsWith_spec.
  - split.
    + intros [[post Hp]|Hf]; [|discriminate]. exists EmptyString, post. exact Hp.
    + intros (pre & post & Hp). left. destruct pre; [|discriminate]. exists post. exact Hp.
  - rewrite IH. split.
    + intros [[post Hp]|(pre & post & Hp)].
      * exists EmptyString, post. exact Hp.
      * exists (String c pre), post. rewrite append_cons. congruence.
    + intros (pre & post & Hp). destruct pre as [|d pre].
      * left. exists post. exact Hp.
      * right. exists pre, post. rewrite append_cons in Hp. congruence.
Qed.

Lemma toLowerCase_app a b :
  ascii_lowercase (a ++ b)%string = (ascii_lowercase a ++ ascii_lowercase b)%string.
Proof.
  induction a as [|c a IH]; [reflexivity|].
  rewrite append_cons. simpl. rewrite append_cons. congruence.
Qed.

Lemma toLowerCase_split s : forall a' b',
  ascii_lowercase s = (a' ++ b')%string ->
  exists a b, s = (a ++ b)%string /\ ascii_lowercase a = a' /\ ascii_lowercase b = b'.
Proof.
  induction s as [|c s IH]; intros a' b' Hs; simpl in Hs.
  - destruct a'; [|discriminate]. rewrite append_nil in Hs. subst b'.
    exists EmptyString, EmptyString. auto.
  - destruct a' as [|d a'].
    + rewrite append_nil in Hs. exists EmptyString, (String c s). subst b'. auto.
    + rewrite append_cons in Hs.
      injection Hs as Hd Hs. destruct (IH _ _ Hs) as (a & b & -> & Ha & Hb).
      exists (String c a), b. rewrite append_cons. simpl.
      split; [reflexivity|]. split; congruence.
Qed.

Lemma nat_of_lower_ascii c :
  nat_of_ascii (lower_ascii c) =
    if (65 <=? nat_of_ascii c)%nat && (nat_of_ascii c <=? 90)%nat
    then (nat_of_ascii c + 32)%nat else nat_of_ascii c.
Proof.
  unfold lower_ascii.
  destruct (Nat.leb_spec 65 (nat_of_ascii c)), (Nat.leb_spec (nat_of_ascii c) 90);
    simpl; try reflexivity.
  apply nat_ascii_embedding. lia.
Qed.

Lemma same_letter_spec c d : same_letter c d <-> lower_ascii c = lower_ascii d.
Proof.
  split.
  - intros [->|(k & Hk & [[-> ->]|[-> ->]])]; [reflexivity| |];
      unfold lower_ascii; rewrite !nat_ascii_embedding by lia;
      destruct (Nat.leb_spec 65 k), (Nat.leb_spec k 90); try lia;
      destruct (Nat.leb_spec 65 (k + 32)), (Nat.leb_spec (k + 32) 90); try lia;
      reflexivity.
  - intros Hl. apply (f_equal nat_of_ascii) in Hl. rewrite !nat_of_lower_ascii in Hl.
    pose proof (nat_ascii_bounded c) as Bc. pose proof (nat_ascii_bounded d) as Bd.
    pose proof (ascii_nat_embedding c) as Ec. pose proof (ascii_nat_embedding d) as Ed.
    unfold same_letter.
    destruct (Nat.leb_spec 65 (nat_of_ascii c)), (Nat.leb_spec (nat_of_ascii c) 90),
             (Nat.leb_spec 65 (nat_of_ascii d)), (Nat.leb_spec (nat_of_ascii d) 90);
      simpl in Hl;
      try (left; rewrite <- Ec, <- Ed; f_equal; lia);
      try (right; exists (nat_of_ascii c); split; [lia|]; left;
           rewrite Ec, Hl, Ed; split; reflexivity);
      try (right; exists (nat_of_ascii d); split; [lia|]; right;
           rewrite Ed, <- Hl, Ec; split; reflexivity).
Qed.

Lemma eq_ci_spec a b : eq_ci a b <-> ascii_lowercase a = ascii_lowercase b.
Proof.
  split.
  - induction 1 as [|c d s t Hcd Hst IH]; simpl; [reflexivity|].
    apply same_letter_spec in Hcd. congruence.
  - revert b. induction a as [|c a IH]; intros [|d b] Hl; simpl in Hl;
      try discriminate; [constructor|].
    injection Hl as Hc Hl. constructor; [apply same_letter_spec, Hc | apply IH, Hl].
Qed.

(** The test [findModels] applies to a field is containment up to
    case. *)
Lemma includes_contains_ci s q :
  includes (ascii_lowercase s) (ascii_lowercase q) = true <-> contains_ci s q.
Proof.
  rewrite includes_spec. unfold contains_ci. split.
  - intros (pre' & post' & Hs).
    destruct (toLowerCase_split _ _ _ Hs) as (pre & rest & -> & _ & Hrest).
    destruct (toLowerCase_split _ _ _ Hrest) as (mid & post & -> & Hmid & _).
    exists pre, mid, post. split; [reflexivity | apply eq_ci_spec, Hmid].
  - intros (pre & mid & post & -> & Hci). apply eq_ci_spec in Hci.
    exists (ascii_lowercase pre), (ascii_lowercase post).
    rewrite !toLowerCase_app, Hci. reflexivity.
Qed.

Lemma contains_ci_empty s : contains_ci s EmptyString.
Proof. exists EmptyString, EmptyString, s. split; [reflexivity | constructor]. Qed.

Lemma contains_ci_in_empty q : contains_ci EmptyString q -> q = EmptyString.
Proof.
  intros (pre & mid & post & Hs & Hci).
  destruct pre; [|discriminate]. destruct mid; [|discriminate].
  inversion Hci. reflexivity.
Qed.

Lemma matches_query_spec query model :
  matches_query ascii_lowercase (ascii_lowercase query) model = true
  <-> model_contains_ci query model.
Proof.
  unfold matches_query, model_contains_ci.
  rewrite !orb_true_iff, !includes_contains_ci. split.
  - intros [[[Hi|Hn]|Hd]|Hp]; auto.
    destruct (m_description (pm_model model)) as [d|]; [|discriminate].
    apply andb_true_iff in Hd. destruct Hd as [_ Hd].
    apply includes_contains_ci in Hd. eauto 6.
  - intros [Hi|[Hn|[(d & Hd & Hc)|Hp]]]; auto.
    rewrite Hd. destruct (truthy_string d) eqn:Ht; simpl.
    + left. right. apply includes_contains_ci, Hc.
    + unfold truthy_string in Ht. apply negb_false_iff, String.eqb_eq in Ht. subst d.
      apply contains_ci_in_empty in Hc. subst query.
      left. left. left. apply contains_ci_empty.
Qed.

Lemma matches_empty_query lowercase model :
  matches_query lowercase EmptyString model = true.
Proof.
  unfold matches_query.
  destruct (lowercase (m_id (pm_model model))); reflexivity.
Qed.

Lemma filter_empty_query lowercase l :
  List.filter (matches_query lowercase EmptyString) l = l.
Proof.
  induction l as [|m l IH]; simpl; [reflexivity|].
  rewrite matches_empty_query, IH. reflexivity.
Qed.

Lemma truthy_string_spec d : truthy_string d = true <-> d <> EmptyString.
Proof.
  unfold truthy_string. rewrite negb_true_iff. split.
  - intros Hd ->. discriminate.
  - intros Hd. apply String.eqb_neq. exact Hd.
Qed.

Lemma matches_query_lowered lowercase query model :
  matches_query lowercase (lowercase query) model = true
  <-> model_contains_lowered lowercase query model.
Proof.
  unfold matches_query, model_contains_lowered, contains_lowered.
  rewrite !orb_true_iff, !includes_spec. split.
  - intros [[[Hi|Hn]|Hd]|Hp]; auto.
    destruct (m_description (pm_model model)) as [d|]; [|discriminate].
    apply andb_true_iff in Hd. destruct Hd as [Ht Hd].
    apply truthy_string_spec in Ht. apply includes_spec in Hd.
    right. right. left. exists d. auto.
  - intros [Hi|[Hn|[(d & Hd & Ht & Hc)|Hp]]]; auto.
    left. right. rewrite Hd. apply andb_true_iff. split.
    + apply truthy_string_spec, Ht.
    + apply includes_spec, Hc.
Qed.

Lemma matches_query_ascii lowercase query model :
  folds_ascii lowercase -> is_ascii query = true -> ascii_model model = true ->
  matches_query lowercase (lowercase query) model
  = matches_query ascii_lowercase (ascii_lowercase query) model.
Proof.
  intros Hf Hq Hm. unfold ascii_model in Hm.
  apply andb_true_iff in Hm. destruct Hm as [Hm Hp].
  apply andb_true_iff in Hm. destruct Hm as [Hm Hd].
  apply andb_true_iff in Hm. destruct Hm as [Hi Hn].
  unfold matches_query. rewrite (Hf _ Hq), (Hf _ Hi), (Hf _ Hn), (Hf _ Hp).
  destruct (m_description (pm_model model)) as [d|]; [|reflexivity].
  rewrite (Hf _ Hd). reflexivity.
Qed.

Lemma ascii_lowercase_folds_ascii : folds_ascii ascii_lowercase.
Proof. intros s _. reflexivity. Qed.

Section FindModels.

Context {W : Type} `{LLMProvider W}.

Variable lowercase : string -> string.

(** C7, as amended: for every query string [q], [findModels q]
    returns, in the order of [getAllModels] and over the same
    detection run, exactly the models whose id, name, description or
    provider name contains [q] once both are put in lower case by
    [String.prototype.toLowerCase], whatever that function does beyond
    ASCII; queries with the same lower-case form return the same.  On
    ASCII text this is containment of a stretch that differs from [q]
    at most in the case of its letters, and [findModels EmptyString]
    returns what [getAllModels] returns. *)
Theorem findModels_case_insensitive query (s : Manager W) :
  exists allModels found s',
    getAllModels s = (Ok allModels, s') /\
    findModels lowercase query s = (Ok found, s') /\
    found = List.filter (matches_query lowercase (lowercase query)) allModels /\
    (forall model,
        In model found
        <-> In model allModels /\ model_contains_lowered lowercase query model) /\
    (forall query',
        lowercase query' = lowercase query ->
        findModels lowercase query' s = findModels lowercase query s) /\
    (folds_ascii lowercase ->
     findModels lowercase EmptyString s = getAllModels s /\
     (is_ascii query = true ->
      forall model,
        ascii_model model = true ->
        (In model found <-> In model allModels /\ model_contains_ci query model))).
Proof.
  destruct (detectProviders_facts s) as (detection & s' & E & _ & _).
  assert (Eall : getAllModels s = (Ok (collect_models detection), s')).
  { unfold getAllModels, bind. rewrite E. reflexivity. }
  exists (collect_models detection),
    (List.filter (matches_query lowercase (lowercase query)) (collect_models detection)), s'.
  split; [assumption|]. split.
  { unfold findModels, bind. rewrite Eall. reflexivity. }
  split; [reflexivity|]. split.
  { intros model. rewrite List.filter_In, matches_query_lowered. reflexivity. }
  split.
  { intros query' Hq. unfold findModels, bind. rewrite Eall, Hq. reflexivity. }
  intros Hf. split.
  - unfold findModels, bind. rewrite Eall. unfold ret.
    rewrite (Hf EmptyString eq_refl). simpl.
    rewrite filter_empty_query. reflexivity.
  - intros Hq model Hm.
    rewrite List.filter_In, (matches_query_ascii _ _ _ Hf Hq Hm), matches_query_spec.
    reflexivity.
Qed.

End FindModels.

(** ** [chat] *)

Lemma keeps_heap_ret {A} (a : A) : keeps_heap (ret a).
Proof. intros w l v Hl. exact Hl. Qed.

Lemma keeps_heap_throw {A} t : keeps_heap (@throw World A t).
Proof. intros w l v Hl. exact Hl. Qed.

Lemma keeps_heap_gets {A} (f : World -> A) : keeps_heap (gets f).
Proof. intros w l v Hl. exact Hl. Qed.

Lemma keeps_heap_bind {A B} (m : M World A) (k : A -> M World B) :
  keeps_heap m -> (forall a, keeps_heap (k a)) -> keeps_heap (bind m k).
Proof.
  intros Hm Hk w l v Hl. unfold bind.
  specialize (Hm w l v Hl). destruct (m w) as [[a|t] w1]; simpl in *.
  - apply Hk, Hm.
  - exact Hm.
Qed.

Lemma keeps_heap_try_catch {A} (m : M World A) (h : Thrown -> M World A) :
  keeps_heap m -> (forall t, keeps_heap (h t)) -> keeps_heap (try_catch m h).
Proof.
  intros Hm Hh w l v Hl. unfold try_catch.
  specialize (Hm w l v Hl). destruct (m w) as [[a|t] w1]; simpl in *.
  - exact Hm.
  - apply Hh, Hm.
Qed.

(** A new array never takes the place of an existing one. *)
Lemma keeps_heap_alloc v : keeps_heap (alloc v).
Proof.
  intros w l x Hl. unfold alloc. simpl.
  rewrite lookup_insert_ne; [exact Hl|].
  intros <-. apply (is_fresh (dom (heap w))).
  apply elem_of_dom. rewrite Hl. eauto.
Qed.

Lemma keeps_heap_fetch {T} (endpoint : Services -> nat -> FetchOutcome T) abort_at :
  keeps_heap (fetch endpoint abort_at).
Proof. intros w l v Hl. exact Hl. Qed.

Lemma keeps_heap_sdk_call {T} (endpoint : Services -> nat -> SdkOutcome T) :
  keeps_heap (sdk_call endpoint).
Proof. intros w l v Hl. exact Hl. Qed.

Lemma keeps_heap_response_json {T} (r : Response T) :
  keeps_heap (response_json r).
Proof. intros w l v Hl. unfold response_json. destruct (json r); exact Hl. Qed.

Lemma keeps_heap_ensure_client p : keeps_heap (GroqProvider.ensure_client p).
Proof.
  intros w l v Hl. unfold GroqProvider.ensure_client, GroqProvider.initialize.
  destruct (client (groq_get p w)); [exact Hl|].
  destruct (negb _); exact Hl.
Qed.

Ltac keeps_heap_steps :=
  repeat first
    [ apply keeps_heap_ret
    | apply keeps_heap_throw
    | apply keeps_heap_gets
    | apply keeps_heap_alloc
    | apply keeps_heap_fetch
    | apply keeps_heap_sdk_call
    | apply keeps_heap_response_json
    | apply keeps_heap_ensure_client
    | apply keeps_heap_bind; [|intros ?]
    | apply keeps_heap_try_catch; [|intros ?]
    | match goal with
      | |- keeps_heap (if ?b then _ else _) => destruct b
      end ].

Lemma keeps_heap_chat p options abortSignal : keeps_heap (chat p options abortSignal).
Proof.
  unfold chat, PROVIDERS. destruct (inst_name p).
  - unfold GroqProvider.chat. keeps_heap_steps.
  - unfold OllamaProvider.chat. keeps_heap_steps.
  - unfold LMStudioProvider.chat. keeps_heap_steps.
Qed.

(** C9: after [chat] returns or throws, on any adapter, the array
    behind [options.messages] holds the messages it held before the
    call, and so does every other array that existed: the translated
    messages go into a new array. *)
Theorem chat_preserves_messages p options abortSignal w messages :
  heap w !! co_messages options = Some (HMessages messages) ->
  read_messages (co_messages options) (snd (chat p options abortSignal w)) = messages /\
  forall l v, heap w !! l = Some v ->
              heap (snd (chat p options abortSignal w)) !! l = Some v.
Proof.
  intros Hm. pose proof (keeps_heap_chat p options abortSignal w) as Hk.
  split; [|exact Hk].
  unfold read_messages. rewrite (Hk _ _ Hm). reflexivity.
Qed.

Lemma try_catch_rethrow_state {A} (m : M World A) (g : Thrown -> bool)
    (h : Thrown -> Thrown) w :
  snd (try_catch m (fun error => if g error then throw error else throw (h error)) w)
  = snd (m w).
Proof.
  unfold try_catch. destruct (m w) as [[a|t] w']; simpl; [reflexivity|].
  destruct (g t); reflexivity.
Qed.

(** [OllamaProvider.chat] sends exactly one request, whatever the
    options and the signal. *)
Lemma ollama_chat_sends p options abortSignal w :
  clock (snd (OllamaProvider.chat p options abortSignal w)) = S (clock w).
Proof.
  unfold OllamaProvider.chat. rewrite try_catch_rethrow_state.
  unfold bind, gets, alloc, fetch. simpl.
  destruct (fetch_result _ _) as [response|t]; simpl; [|reflexivity].
  destruct (response_ok response); simpl; [|reflexivity].
  unfold response_json. destruct (json response); reflexivity.
Qed.

Lemma lmstudio_chat_sends p options abortSignal w :
  clock (snd (LMStudioProvider.chat p options abortSignal w)) = S (clock w).
Proof.
  unfold LMStudioProvider.chat. rewrite try_catch_rethrow_state.
  unfold bind, gets, alloc, fetch. simpl.
  destruct (fetch_result _ _) as [response|t]; simpl; [|reflexivity].
  destruct (response_ok response); simpl; [|reflexivity].
  unfold response_json. destruct (json response); reflexivity.
Qed.

(** C6, as amended: the local adapters report [supportsTools() =
    false] but [chat] never looks at the tool list: a request with
    tools is sent like any other (exactly one request goes out) and its
    outcome is the outcome of the same request with any other tool list
    or none. *)
Theorem chat_disregards_tools p options tools tool_choice abortSignal w :
  inst_name p <> groq ->
  supportsTools p = false /\
  chat p (with_tools tools tool_choice options) abortSignal w
    = chat p options abortSignal w /\
  clock (snd (chat p (with_tools tools tool_choice options) abortSignal w)) = S (clock w).
Proof.
  intros Hp. unfold supportsTools, chat, PROVIDERS.
  destruct (inst_name p); [congruence| |].
  - split; [reflexivity|]. split; [reflexivity | apply ollama_chat_sends].
  - split; [reflexivity|]. split; [reflexivity | apply lmstudio_chat_sends].
Qed.

(** A signal aborted before the call is as good as no signal for the
    local adapters. *)
Lemma local_chat_ignores_aborted_signal p options w :
  inst_name p <> groq ->
  chat p options (Some AlreadyAborted) w = chat p options None w.
Proof.
  intros Hp. unfold chat, PROVIDERS. destruct (inst_name p); [congruence| |]; reflexivity.
Qed.

(** A signal that aborts while the request is in flight does cancel
    it: [chat] on Ollama throws the [AbortError]. *)
Lemma ollama_chat_aborted_in_flight p options t w :
  (forall k body, exists latency r,
      ollama_chat (services w) k body = Replies latency r /\ (t <= latency)%N) ->
  fst (OllamaProvider.chat p options (Some (AbortsAfter t)) w) = Throw AbortError.
Proof.
  intros Hsv. unfold OllamaProvider.chat, try_catch, bind, gets, alloc, fetch. simpl.
  match goal with
  | |- context [ollama_chat ?sv ?k ?body] =>
      destruct (Hsv k body) as (latency & r & -> & Hle)
  end.
  unfold fetch_result, abort_time.
  destruct (N.ltb_spec latency (N.min 30000 t)); [lia|]. reflexivity.
Qed.

(** ** Instances of the statements on the sample services *)

(** A disconnected LM Studio, while Ollama is the active provider. *)
Lemma setActiveProvider_disconnected_witness :
  let st := mkProviderStatus false false None None (Some refused) None in
  fst (getStatus (the_instance lmstudio ollama_active) (world ollama_active)) = Ok st /\
  st_connected st = false /\
  exists s',
    setActiveProvider lmstudio ollama_active =
      (Throw (Error "Provider lmstudio is not available or connected"), s') /\
    activeProvider s' = Some (mkInstance ollama 1) /\
    fst (getActiveProvider s') = Ok (Some (mkInstance ollama 1)).
Proof.
  intros st.
  assert (H1 : fst (getStatus (the_instance lmstudio ollama_active) (world ollama_active))
               = Ok st) by (vm_compute; reflexivity).
  assert (H2 : st_connected st = false) by reflexivity.
  split; [exact H1|]. split; [exact H2|].
  destruct (setActiveProvider_disconnected lmstudio ollama_active st H1 H2)
    as (s' & E & Ha & Hg & _).
  exists s'. split; [exact E|]. split.
  - rewrite Ha. vm_compute. reflexivity.
  - rewrite Hg. vm_compute. reflexivity.
Defined.

(** Ollama is active and still answers; LM Studio answers too:
    [failover] moves to LM Studio. *)
Lemma failover_never_returns_failed_witness :
  registry_ok ollama_preferred = true /\
  activeProvider ollama_preferred = Some (mkInstance ollama 1) /\
  fst (failover ollama_preferred) = Ok (Some (mkInstance lmstudio 2)) /\
  inst_name (mkInstance lmstudio 2) <> inst_name (mkInstance ollama 1) /\
  mkInstance lmstudio 2 <> mkInstance ollama 1.
Proof.
  assert (H1 : registry_ok ollama_preferred = true) by (vm_compute; reflexivity).
  assert (H2 : activeProvider ollama_preferred = Some (mkInstance ollama 1))
    by (vm_compute; reflexivity).
  assert (H3 : fst (failover ollama_preferred) = Ok (Some (mkInstance lmstudio 2)))
    by (vm_compute; reflexivity).
  split; [exact H1|]. split; [exact H2|]. split; [exact H3|].
  exact (failover_never_returns_failed ollama_preferred _ _ H1 H2 H3).
Defined.

(** Groq has no key, Ollama and LM Studio both answer: the candidates
    are ollama then lmstudio, and ollama is selected. *)
Lemma autoSelectProvider_first_initialized_witness :
  let s := new_manager (boot local_running) in
  registry_ok s = true /\
  fst (autoSelectProvider s) = Ok (Some (mkInstance ollama 1)) /\
  exists detection s1 r s' tried new,
    detectProviders s = (Ok detection, s1) /\
    autoSelectProvider s = (Ok r, s') /\
    calls s' = calls s1 ++ new /\
    StronglySorted by_priority (candidates detection (providerConfigs s)) /\
    Permutation (candidates detection (providerConfigs s))
      (List.filter (fun c => enabled c && usable detection c) (providerConfigs s)) /\
    match r with
    | Some p =>
        exists c rest,
          candidates detection (providerConfigs s) = tried ++ c :: rest /\
          inst_name p = name c /\
          activeProvider s' = Some p /\
          initialize_calls new
            = map (fun c' => (name c', false)) tried ++ [(name c, true)]
    | None =>
        candidates detection (providerConfigs s) = tried /\
        activeProvider s' = activeProvider s /\
        initialize_calls new = map (fun c' => (name c', false)) tried
    end.
Proof.
  intros s.
  assert (H1 : registry_ok s = true) by reflexivity.
  split; [exact H1|]. split; [vm_compute; reflexivity|].
  exact (autoSelectProvider_first_initialized s H1).
Defined.

(** LM Studio answers with no model loaded and nothing else is
    reachable: detection reports lmstudio as available and connected,
    it is the only candidate, and [autoSelectProvider] returns [null]
    because [initialize] refuses an LM Studio without models. *)
Lemma autoSelectProvider_skips_connected_backend :
  let s := new_manager (boot lmstudio_without_models) in
  exists detection s1 result,
    detectProviders s = (Ok detection, s1) /\
    find_detection detection lmstudio = Some result /\
    d_available result = true /\
    st_connected (d_status result) = true /\
    candidates detection (providerConfigs s) = [mkConfig lmstudio true 3] /\
    fst (autoSelectProvider s) = Ok None.
Proof.
  intros s. eexists _, _, _.
  split; [vm_compute; reflexivity|].
  split; [vm_compute; reflexivity|].
  repeat split; vm_compute; reflexivity.
Qed.

(** One user message, Ollama answering: the caller's array is intact
    after the call. *)
Lemma chat_preserves_messages_witness :
  let w := boot ollama_running in
  let p := mkInstance ollama 0 in
  let messages := [mkChatMessage user "Hi" None None] in
  heap w !! co_messages sample_options = Some (HMessages messages) /\
  is_ok (fst (chat p sample_options None w)) = true /\
  read_messages (co_messages sample_options) (snd (chat p sample_options None w)) = messages /\
  forall l v, heap w !! l = Some v ->
              heap (snd (chat p sample_options None w)) !! l = Some v.
Proof.
  intros w p messages.
  assert (H1 : heap w !! co_messages sample_options = Some (HMessages messages))
    by (vm_compute; reflexivity).
  split; [exact H1|]. split; [vm_compute; reflexivity|].
  exact (chat_preserves_messages p sample_options None w messages H1).
Defined.

(** A request with a tool list, sent to Ollama. *)
Lemma chat_disregards_tools_witness :
  let p := mkInstance ollama 0 in
  let w := boot ollama_running in
  inst_name p <> groq /\
  supportsTools p = false /\
  chat p (with_tools sample_tools (Some "auto") sample_options) None w
    = chat p sample_options None w /\
  clock (snd (chat p (with_tools sample_tools (Some "auto") sample_options) None w))
    = S (clock w).
Proof.
  intros p w.
  assert (H1 : inst_name p <> groq) by (simpl; discriminate).
  split; [exact H1|].
  exact (chat_disregards_tools p sample_options sample_tools (Some "auto") None w H1).
Defined.

(** A chat request with a non-empty tool list, sent to Ollama (whose
    [supportsTools()] is [false]): the request goes out and the
    server's answer comes back; there is no capability error. *)
Lemma chat_with_tools_is_sent :
  let p := mkInstance ollama 0 in
  let options := with_tools sample_tools (Some "auto") sample_options in
  let outcome := chat p options None (boot ollama_running) in
  co_tools options = Some ["{ type: function, function: { name: read_file } }"] /\
  supportsTools p = false /\
  clock (boot ollama_running) = 0 /\
  clock (snd outcome) = 1 /\
  exists response,
    fst outcome = Ok response /\
    map ch_message (cr_choices response)
      = [mkResponseMessage "assistant" (Some "Hello.") None].
Proof.
  intros p options outcome.
  repeat split; try (vm_compute; reflexivity).
  eexists. split; vm_compute; reflexivity.
Qed.

(** C3, the code at the failing input: [chat] on Ollama, called with a
    signal that is already aborted, sends the request all the same.
    With the server answering, it returns the answer; with the server
    down, it throws a [CHAT_REQUEST_ERROR].  Neither is the cancelled
    outcome. *)
Theorem chat_after_abort_is_not_cancelled :
  let p := mkInstance ollama 0 in
  let answered := chat p sample_options (Some AlreadyAborted) (boot ollama_running) in
  let refused := chat p sample_options (Some AlreadyAborted) (boot offline) in
  clock (snd answered) = 1 /\
  (exists response,
      fst answered = Ok response /\
      map ch_message (cr_choices response)
        = [mkResponseMessage "assistant" (Some "Hello.") None]) /\
  clock (snd refused) = 1 /\
  fst refused
    = Throw (ProviderError
               "Cannot connect to Ollama. Make sure Ollama is running on localhost:11434"
               "ollama" "CHAT_REQUEST_ERROR").
Proof.
  intros p answered refused.
  split; [vm_compute; reflexivity|]. split.
  - eexists. split; vm_compute; reflexivity.
  - split; vm_compute; reflexivity.
Qed.

(** C7, as stated, at a query beyond ASCII: the one model LM Studio
    lists has the id [ΟΔΟΣ], which contains the query [Σ] as it
    stands, and [findModels] does not return it: in lower case the id
    ends in the final sigma, the query is the plain one. *)
Lemma findModels_misses_final_sigma :
  let s := new_manager (boot greek_model_loaded) in
  exists model allModels found,
    fst (getAllModels s) = Ok allModels /\
    fst (findModels greek_lowercase "Σ" s) = Ok found /\
    In model allModels /\
    m_id (pm_model model) = "ΟΔΟΣ" /\
    model_contains_ci "Σ" model /\
    ~ In model found.
Proof.
  intros s. eexists _, _, _.
  split; [vm_compute; reflexivity|]. split; [vm_compute; reflexivity|].
  split; [left; reflexivity|]. split; [reflexivity|]. split.
  - left. exists "ΟΔΟ", "Σ", EmptyString. split; [reflexivity|].
    apply eq_ci_spec. reflexivity.
  - intros [].
Qed.

(** * Further properties *)

(** ** The adapters *)

(** X1: [getStatus] of each of the three adapters never throws,
    whatever the services answer.  A status with [connected] has
    [available], no [error] and an [endpoint]; a status without
    [connected] carries an [error] message. *)
Theorem getStatus_never_throws p (w : World) :
  exists st,
    fst (getStatus p w) = Ok st /\
    (st_connected st = true ->
       st_available st = true /\ st_error st = None /\ st_endpoint st <> None) /\
    (st_connected st = false -> st_error st <> None).
Proof.
  unfold getStatus, PROVIDERS. destruct (inst_name p).
  - unfold GroqProvider.getStatus, try_catch, bind, GroqProvider.isAvailable. simpl.
    destruct (truthy_ostring (GroqProvider.configured_key p w)); simpl.
    + destruct (GroqProvider.ensure_client p w) as [[u|t] w1]; simpl.
      * unfold sdk_call. destruct (groq_models_list _ _); simpl;
          eexists; (split; [reflexivity|]); simpl; split; intros; try discriminate; auto.
      * eexists; (split; [reflexivity|]); simpl; split; intros; try discriminate; auto.
    + eexists; (split; [reflexivity|]); simpl; split; intros; try discriminate; auto.
  - unfold OllamaProvider.getStatus, try_catch, bind, fetch. simpl.
    destruct (fetch_result _ _) as [response|t]; simpl.
    + destruct (response_ok response); simpl.
      * unfold response_json. destruct (json response); simpl;
          eexists; (split; [reflexivity|]); simpl; split; intros; try discriminate; auto.
      * eexists; (split; [reflexivity|]); simpl; split; intros; try discriminate; auto.
    + destruct (isAbortError t);
        eexists; (split; [reflexivity|]); simpl; split; intros; try discriminate; auto.
  - unfold LMStudioProvider.getStatus, try_catch, bind, fetch. simpl.
    destruct (fetch_result _ _) as [response|t]; simpl.
    + destruct (response_ok response); simpl.
      * unfold response_json. destruct (json response); simpl;
          eexists; (split; [reflexivity|]); simpl; split; intros; try discriminate; auto.
      * eexists; (split; [reflexivity|]); simpl; split; intros; try discriminate; auto.
    + destruct (isAbortError t);
        eexists; (split; [reflexivity|]); simpl; split; intros; try discriminate; auto.
Qed.

Lemma try_catch_wraps {A} (m : M World A) (wrap : Thrown -> Thrown) w :
  fst (try_catch m (fun error => if isAbortError error then throw error
                                 else throw (wrap error)) w)
  = match fst (m w) with
    | Ok a => Ok a
    | Throw t => if isAbortError t then Throw t else Throw (wrap t)
    end.
Proof.
  unfold try_catch. destruct (m w) as [[a|t] w']; simpl; [reflexivity|].
  destruct (isAbortError t); reflexivity.
Qed.

(** X2: whatever [chat] of an adapter throws is either an [AbortError],
    passed on as it came, or a [ProviderError] with the adapter's name
    and the code [CHAT_REQUEST_ERROR]. *)
Theorem chat_throws_abort_or_provider_error p options abortSignal (w : World) :
  match fst (chat p options abortSignal w) with
  | Ok _ => True
  | Throw t =>
      isAbortError t = true \/
      exists message,
        t = ProviderError message (provider_key (inst_name p)) "CHAT_REQUEST_ERROR"
  end.
Proof.
  unfold chat, PROVIDERS. destruct (inst_name p).
  - unfold GroqProvider.chat. rewrite try_catch_wraps.
    destruct (fst _) as [a|t]; [exact I|].
    destruct (isAbortError t) eqn:E; [left; exact E | right; eexists; reflexivity].
  - unfold OllamaProvider.chat. rewrite try_catch_wraps.
    destruct (fst _) as [a|t]; [exact I|].
    destruct (isAbortError t) eqn:E; [left; exact E | right; eexists; reflexivity].
  - unfold LMStudioProvider.chat. rewrite try_catch_wraps.
    destruct (fst _) as [a|t]; [exact I|].
    destruct (isAbortError t) eqn:E; [left; exact E | right; eexists; reflexivity].
Qed.

Lemma describe_all_spec sv data models :
  LMStudioProvider.describe_all sv data = Ok models ->
  length models = length data /\
  Forall (fun m => m_name m = m_id m /\ m_supportsFunctions m = Some false) models.
Proof.
  revert models. induction data as [|d data IH]; intros models; simpl.
  - intros [= <-]. split; [reflexivity | constructor].
  - unfold LMStudioProvider.describe.
    destruct (toISOString sv _); [|discriminate].
    destruct (LMStudioProvider.describe_all sv data) as [ms|t]; [|discriminate].
    intros [= <-]. destruct (IH ms eq_refl) as [Hl Hf]. simpl.
    split; [congruence|]. constructor; [split; reflexivity | exact Hf].
Qed.

(** X3: [listModels] throws nothing but a [ProviderError] with the
    adapter's name and the code [MODELS_FETCH_ERROR] (the
    [NO_MODELS_LOADED] error of LM Studio is raised inside the same
    [try] and replaced by it).  When it returns, every model has its id
    for a name, the local adapters mark every model as not supporting
    functions, and LM Studio's list is not empty. *)
Theorem listModels_outcome p (w : World) :
  match fst (listModels p w) with
  | Ok models =>
      (inst_name p = lmstudio -> models <> []) /\
      Forall (fun m => m_name m = m_id m /\
                       (inst_name p <> groq -> m_supportsFunctions m = Some false))
             models
  | Throw t =>
      exists message,
        t = ProviderError message (provider_key (inst_name p)) "MODELS_FETCH_ERROR"
  end.
Proof.
  unfold listModels, PROVIDERS. destruct (inst_name p).
  - unfold GroqProvider.listModels, try_catch, bind. 
    destruct (GroqProvider.ensure_client p w) as [[u|t] w1]; simpl;
      [|eexists; reflexivity].
    unfold sdk_call. destruct (groq_models_list _ _) as [v|t]; simpl;
      [|eexists; reflexivity].
    destruct (gl_data v) as [data|]; simpl; [|eexists; reflexivity].
    split; [discriminate|].
    apply Forall_forall. intros m Hm. apply list_elem_of_In, in_map_iff in Hm.
    destruct Hm as (g & <- & _). split; [reflexivity | congruence].
  - unfold OllamaProvider.listModels, try_catch, bind, fetch. simpl.
    destruct (fetch_result _ _) as [response|t]; simpl; [|eexists; reflexivity].
    destruct (response_ok response); simpl; [|eexists; reflexivity].
    unfold response_json. destruct (json response) as [data|]; simpl;
      [|eexists; reflexivity].
    split; [discriminate|].
    apply Forall_forall. intros m Hm. apply list_elem_of_In, in_map_iff in Hm.
    destruct Hm as (g & <- & _). split; reflexivity.
  - unfold LMStudioProvider.listModels, try_catch, bind, fetch. simpl.
    destruct (fetch_result _ _) as [response|t]; simpl; [|eexists; reflexivity].
    destruct (response_ok response); simpl; [|eexists; reflexivity].
    unfold response_json. destruct (json response) as [data|]; simpl;
      [|eexists; reflexivity].
    destruct (length (lms_data data) =? 0)%nat eqn:El; simpl; [eexists; reflexivity|].
    destruct (LMStudioProvider.describe_all _ _) as [models|t] eqn:Ed; simpl;
      [|eexists; reflexivity].
    destruct (describe_all_spec _ _ _ Ed) as [Hl Hf]. split.
    + intros _ ->. simpl in Hl. rewrite <- Hl in El. discriminate.
    + eapply List.Forall_impl; [|exact Hf]. intros m [H1 H2]. auto.
Qed.

(** X4: when the chat endpoint of a local adapter does not answer
    within the adapter's timeout (30 s for Ollama, 60 s for
    LM Studio), [chat] throws [AbortError], with any caller's
    signal or none. *)
Theorem local_chat_times_out p options abortSignal (w : World) :
  chat_reply_late p w ->
  fst (chat p options abortSignal w) = Throw AbortError.
Proof.
  unfold chat_reply_late, chat, PROVIDERS. destruct (inst_name p); [intros []| |]; intros Hlate.
  - unfold OllamaProvider.chat, try_catch, bind, gets, alloc, fetch. simpl.
    match goal with
    | |- context [ollama_chat ?sv ?k ?body] => specialize (Hlate body);
        destruct (ollama_chat sv k body) as [latency r|latency m|]
    end; unfold fetch_result; simpl in *; try reflexivity.
    + destruct (N.ltb_spec latency (abort_time 30000 abortSignal)); [|reflexivity].
      apply N.ltb_ge in Hlate.
      assert (abort_time 30000 abortSignal <= 30000)%N
        by (destruct abortSignal as [[]|]; simpl; lia). lia.
    + destruct (N.ltb_spec latency (abort_time 30000 abortSignal)); [|reflexivity].
      apply N.ltb_ge in Hlate.
      assert (abort_time 30000 abortSignal <= 30000)%N
        by (destruct abortSignal as [[]|]; simpl; lia). lia.
  - unfold LMStudioProvider.chat, try_catch, bind, gets, alloc, fetch. simpl.
    match goal with
    | |- context [lmstudio_chat ?sv ?k ?body] => specialize (Hlate body);
        destruct (lmstudio_chat sv k body) as [latency r|latency m|]
    end; unfold fetch_result; simpl in *; try reflexivity.
    + destruct (N.ltb_spec latency (abort_time 60000 abortSignal)); [|reflexivity].
      apply N.ltb_ge in Hlate.
      assert (abort_time 60000 abortSignal <= 60000)%N
        by (destruct abortSignal as [[]|]; simpl; lia). lia.
    + destruct (N.ltb_spec latency (abort_time 60000 abortSignal)); [|reflexivity].
      apply N.ltb_ge in Hlate.
      assert (abort_time 60000 abortSignal <= 60000)%N
        by (destruct abortSignal as [[]|]; simpl; lia). lia.
Qed.

Lemma local_chat_times_out_witness :
  let p := mkInstance lmstudio 0 in
  chat_reply_late p (boot stalled) /\
  fst (chat p sample_options (Some NeverAborts) (boot stalled)) = Throw AbortError.
Proof.
  intros p.
  assert (H1 : chat_reply_late p (boot stalled)) by (intros body; reflexivity).
  split; [exact H1|].
  exact (local_chat_times_out p sample_options (Some NeverAborts) (boot stalled) H1).
Defined.

(** X5: [isAvailable] never throws.  Groq's sends nothing (it only
    looks for a key); Ollama's and LM Studio's send exactly one
    request. *)
Theorem isAvailable_never_throws p (w : World) :
  exists b,
    fst (isAvailable p w) = Ok b /\
    match inst_name p with
    | groq => snd (isAvailable p w) = w
    | _ => clock (snd (isAvailable p w)) = S (clock w)
    end.
Proof.
  unfold isAvailable, PROVIDERS. destruct (inst_name p).
  - eexists. split; reflexivity.
  - unfold OllamaProvider.isAvailable, try_catch, bind, fetch. simpl.
    destruct (fetch_result _ _); simpl; eexists; split; reflexivity.
  - unfold LMStudioProvider.isAvailable, try_catch, bind, fetch. simpl.
    destruct (fetch_result _ _); simpl; eexists; split; reflexivity.
Qed.

Lemma groq_get_set i f p w :
  inst_id p = i -> groq_get p (set_groq_fields i f w) = f.
Proof. intros <-. unfold groq_get, set_groq_fields. simpl. rewrite lookup_insert_eq. reflexivity. Qed.

Lemma set_groq_fields_twice i f g w :
  set_groq_fields i f (set_groq_fields i g w) = set_groq_fields i f w.
Proof. unfold set_groq_fields. simpl. rewrite insert_insert_eq. reflexivity. Qed.

(** X6: [cleanup] of an adapter never throws, a second [cleanup] is
    the same as the first, and [cleanup] does not change what
    [isAvailable] answers (Groq's key survives it). *)
Theorem cleanup_idempotent p (w : World) :
  fst (cleanup p w) = Ok tt /\
  cleanup p (snd (cleanup p w)) = cleanup p w /\
  fst (isAvailable p (snd (cleanup p w))) = fst (isAvailable p w).
Proof.
  unfold cleanup, isAvailable, PROVIDERS. destruct (inst_name p);
    [|split; [reflexivity|]; split; reflexivity
     |split; [reflexivity|]; split; reflexivity].
  unfold GroqProvider.cleanup, GroqProvider.isAvailable, GroqProvider.configured_key. simpl.
  rewrite groq_get_set by reflexivity. simpl.
  rewrite set_groq_fields_twice. auto.
Qed.

(** X7: [GroqProvider.initialize] succeeds exactly when a key is
    configured, in the environment or on the object, and running it
    again on the state it leaves gives the same outcome and state. *)
Theorem groq_initialize_idempotent p (w : World) :
  (fst (GroqProvider.initialize p w) = Ok tt <->
   truthy_ostring (GroqProvider.configured_key p w) = true) /\
  GroqProvider.initialize p (snd (GroqProvider.initialize p w)) = GroqProvider.initialize p w.
Proof.
  unfold GroqProvider.initialize.
  destruct (truthy_ostring (GroqProvider.configured_key p w)) eqn:E; simpl.
  - split; [split; reflexivity|].
    unfold GroqProvider.configured_key in *. simpl.
    rewrite groq_get_set by reflexivity. simpl. rewrite E. simpl.
    rewrite set_groq_fields_twice. reflexivity.
  - split; [split; discriminate|]. rewrite E. reflexivity.
Qed.


Lemma substring_prefix n : forall s,
  exists rest, s = (String.substring 0 n s ++ rest)%string /\
               (String.length (String.substring 0 n s) <= n)%nat.
Proof.
  induction n as [|n IH]; intros s.
  - exists s. destruct s; simpl; split; auto.
  - destruct s as [|c s]; simpl.
    + exists EmptyString. split; [reflexivity | lia].
    + destruct (IH s) as (rest & Hs & Hl). exists rest. split.
      * change (String c s = String c (String.substring 0 n s ++ rest)%string).
        rewrite <- Hs. reflexivity.
      * lia.
Qed.

(** X8: [GroqProvider.getApiKey] never shows more than the first eight
    characters of the key, followed by three dots; it answers [null]
    only when [isAvailable] answers [false]. *)
Theorem getApiKey_masks p (w : World) :
  match GroqProvider.getApiKey p w with
  | Some shown =>
      exists key rest,
        GroqProvider.displayed_key p w = Some key /\
        key = (String.substring 0 8 key ++ rest)%string /\
        shown = (String.substring 0 8 key ++ "...")%string /\
        (String.length (String.substring 0 8 key) <= 8)%nat
  | None => fst (GroqProvider.isAvailable p w) = Ok false
  end.
Proof.
  unfold GroqProvider.getApiKey, GroqProvider.isAvailable.
  destruct (GroqProvider.displayed_key p w) as [key|] eqn:Ek.
  - destruct (truthy_string key) eqn:Et.
    + destruct (substring_prefix 8 key) as (rest & Hs & Hl).
      exists key, rest. auto.
    + simpl. unfold GroqProvider.displayed_key, GroqProvider.configured_key in *.
      destruct (apiKey (groq_get p w)) as [a|]; simpl in *.
      * destruct (truthy_string a) eqn:Ea.
        -- injection Ek as ->. congruence.
        -- rewrite Ek. simpl. rewrite Et. simpl. rewrite Ea. reflexivity.
      * rewrite Ek. simpl. rewrite Et. reflexivity.
  - simpl. unfold GroqProvider.displayed_key, GroqProvider.configured_key in *.
    destruct (apiKey (groq_get p w)) as [a|]; simpl in *.
    + destruct (truthy_string a) eqn:Ea; [discriminate|].
      rewrite Ek. simpl. rewrite Ea. reflexivity.
    + rewrite Ek. reflexivity.
Qed.

(** X9: with a key in the environment, a key given to [setApiKey] is
    not the one used: [initialize] builds the client from the
    environment's key, while [getApiKey] shows the one that was
    set. *)
Theorem environment_key_wins p key e (w : World) :
  env_GROQ_API_KEY (services w) = Some e ->
  truthy_string e = true ->
  truthy_string key = true ->
  fst (GroqProvider.initialize p (snd (GroqProvider.setApiKey p key w))) = Ok tt /\
  client (groq_get p (snd (GroqProvider.initialize p (snd (GroqProvider.setApiKey p key w)))))
    = Some e /\
  GroqProvider.getApiKey p (snd (GroqProvider.setApiKey p key w))
    = Some (String.substring 0 8 key ++ "...")%string.
Proof.
  intros He Hte Htk.
  set (w1 := snd (GroqProvider.setApiKey p key w)).
  assert (G1 : groq_get p w1 = mkGroqFields None (Some key))
    by (apply groq_get_set; reflexivity).
  assert (S1 : services w1 = services w) by reflexivity.
  assert (C1 : GroqProvider.configured_key p w1 = Some e).
  { unfold GroqProvider.configured_key. rewrite S1, He. simpl. rewrite Hte. reflexivity. }
  unfold GroqProvider.initialize, GroqProvider.getApiKey, GroqProvider.displayed_key.
  rewrite C1, G1. unfold truthy_ostring. cbn [apiKey client].
  rewrite Hte, Htk. cbn [negb fst snd].
  split; [reflexivity|]. split; [|rewrite Htk; reflexivity].
  rewrite groq_get_set by reflexivity. reflexivity.
Qed.

Lemma environment_key_wins_witness :
  let p := mkInstance groq 0 in
  let w := boot groq_ready in
  env_GROQ_API_KEY (services w) = Some "gsk_environment_key" /\
  client (groq_get p (snd (GroqProvider.initialize p
                             (snd (GroqProvider.setApiKey p "gsk_login_key" w)))))
    = Some "gsk_environment_key" /\
  GroqProvider.getApiKey p (snd (GroqProvider.setApiKey p "gsk_login_key" w))
    = Some "gsk_logi...".
Proof.
  intros p w.
  destruct (environment_key_wins p "gsk_login_key" "gsk_environment_key" w
              eq_refl eq_refl eq_refl) as (_ & H2 & H3).
  split; [reflexivity|]. split; [exact H2 | exact H3].
Defined.

(** X11: with LM Studio's server running and no model loaded,
    [isAvailable] answers [true] and [getStatus] reports [available]
    and [connected] with [modelsLoaded = 0], while [listModels] throws
    [MODELS_FETCH_ERROR] and [initialize] throws
    [NO_MODELS_LOADED]. *)
Theorem lmstudio_connected_without_models p (w : World) :
  inst_name p = lmstudio ->
  lmstudio_serves_nothing w ->
  fst (isAvailable p w) = Ok true /\
  (exists st, fst (getStatus p w) = Ok st /\
              st_available st = true /\ st_connected st = true /\
              st_error st = None /\ st_modelsLoaded st = Some 0%Z) /\
  fst (listModels p w)
    = Throw (ProviderError
               "Failed to fetch models from LM Studio. Make sure LM Studio is running with local server enabled and a model is loaded."
               "lmstudio" "MODELS_FETCH_ERROR") /\
  fst (initialize p w)
    = Throw (ProviderError
               "No models loaded in LM Studio. Please load a model in the LM Studio interface."
               "lmstudio" "NO_MODELS_LOADED").
Proof.
  intros Hp Hsv. unfold isAvailable, getStatus, listModels, initialize, PROVIDERS. rewrite Hp.
  destruct (Hsv (clock w)) as (latency & r & Er & Hl & Hok & Hj).
  assert (F5 : fetch lmstudio_models 5000 w = (Ok r, tick w)).
  { unfold fetch, fetch_result. rewrite Er.
    destruct (N.ltb_spec latency 5000); [reflexivity | lia]. }
  assert (F10 : fetch lmstudio_models 10000 w = (Ok r, tick w)).
  { unfold fetch, fetch_result. rewrite Er.
    destruct (N.ltb_spec latency 10000); [reflexivity | lia]. }
  assert (G : LMStudioProvider.getStatus p w
              = (Ok (mkProviderStatus true true (Some "No models loaded")
                       (Some LMStudioProvider.baseUrl) None (Some 0%Z)), tick w)).
  { unfold LMStudioProvider.getStatus, try_catch, bind. rewrite F5, Hok. simpl.
    unfold response_json. rewrite Hj. reflexivity. }
  split; [|split; [|split]].
  - unfold LMStudioProvider.isAvailable, try_catch, bind. rewrite F5. simpl.
    rewrite Hok. reflexivity.
  - rewrite G. eexists. split; [reflexivity|]. simpl. auto.
  - unfold LMStudioProvider.listModels, try_catch, bind. rewrite F10, Hok. simpl.
    unfold response_json. rewrite Hj. reflexivity.
  - unfold LMStudioProvider.initialize, bind. rewrite G. reflexivity.
Qed.

Lemma lmstudio_connected_without_models_witness :
  let p := mkInstance lmstudio 2 in
  let w := boot lmstudio_without_models in
  inst_name p = lmstudio /\ lmstudio_serves_nothing w /\
  fst (isAvailable p w) = Ok true /\
  fst (initialize p w)
    = Throw (ProviderError
               "No models loaded in LM Studio. Please load a model in the LM Studio interface."
               "lmstudio" "NO_MODELS_LOADED").
Proof.
  intros p w.
  assert (H1 : inst_name p = lmstudio) by reflexivity.
  assert (H2 : lmstudio_serves_nothing w).
  { intros k. eexists _, _. split; [reflexivity|]. split; [reflexivity|].
    split; reflexivity. }
  destruct (lmstudio_connected_without_models p w H1 H2) as (A & _ & _ & D).
  auto.
Defined.

(** ** [ProviderUtils] and [compareVersions] *)

Lemma split_lacks c s : lacks c s = true -> ProviderUtils.split c s = [s].
Proof.
  induction s as [|d s IH]; simpl; [reflexivity|].
  intros Hl. apply andb_true_iff in Hl. destruct Hl as [Hd Hs].
  apply negb_true_iff in Hd. rewrite Hd, (IH Hs). reflexivity.
Qed.

Lemma split_not_nil c s : ProviderUtils.split c s <> [].
Proof.
  destruct s as [|d s]; simpl; [discriminate|].
  destruct (Ascii.eqb d c); [discriminate|].
  destruct (ProviderUtils.split c s); discriminate.
Qed.

Lemma split_prefix c p m :
  lacks c p = true ->
  ProviderUtils.split c (p ++ String c m)%string = p :: ProviderUtils.split c m.
Proof.
  induction p as [|d p IH]; intros Hl.
  - simpl. rewrite Ascii.eqb_refl. reflexivity.
  - simpl in Hl. apply andb_true_iff in Hl. destruct Hl as [Hd Hp].
    apply negb_true_iff in Hd.
    change ((String d p ++ String c m)%string) with (String d (p ++ String c m)%string).
    simpl. rewrite Hd, (IH Hp). reflexivity.
Qed.

Lemma join_split c s :
  ProviderUtils.join (String c EmptyString) (ProviderUtils.split c s) = s.
Proof.
  induction s as [|d s IH]; [reflexivity|].
  simpl. destruct (Ascii.eqb d c) eqn:E.
  - apply Ascii.eqb_eq in E. subst d.
    pose proof (split_not_nil c s) as Hn.
    destruct (ProviderUtils.split c s) as [|h r] eqn:Es; [congruence|].
    change (ProviderUtils.join (String c EmptyString) (EmptyString :: h :: r))
      with (String c (ProviderUtils.join (String c EmptyString) (h :: r))).
    rewrite IH. reflexivity.
  - pose proof (split_not_nil c s) as Hn.
    destruct (ProviderUtils.split c s) as [|h r] eqn:Es; [congruence|].
    destruct r as [|h' r].
    + simpl in *. congruence.
    + change (ProviderUtils.join (String c EmptyString) (String d h :: h' :: r))
        with (String d (ProviderUtils.join (String c EmptyString) (h :: h' :: r))).
      rewrite IH. reflexivity.
Qed.

(** X10: [parseModelName] undoes [normalizeModelName] for every model
    id, colons included, when the provider name has no colon. *)
Theorem parseModelName_normalizeModelName modelId provider :
  lacks ":" provider = true ->
  ProviderUtils.parseModelName (ProviderUtils.normalizeModelName modelId provider)
    = (provider, modelId).
Proof.
  intros Hl. unfold ProviderUtils.parseModelName, ProviderUtils.normalizeModelName.
  change (provider ++ ":" ++ modelId)%string with (provider ++ String ":" modelId)%string.
  rewrite split_prefix by exact Hl. rewrite join_split. reflexivity.
Qed.

Lemma parseModelName_normalizeModelName_witness :
  lacks ":" "ollama" = true /\
  ProviderUtils.parseModelName (ProviderUtils.normalizeModelName "llama2:13b" "ollama")
    = ("ollama", "llama2:13b").
Proof.
  split; [reflexivity|].
  exact (parseModelName_normalizeModelName "llama2:13b" "ollama" eq_refl).
Defined.

Section CompareVersionsFacts.

Context {T : Type} (Number : string -> option T) (zero : T) (falsy : T -> bool)
        (gt : T -> T -> bool).

Lemma compare_from_asymmetric a b remaining : forall i,
  (forall x y, gt x y = true -> gt y x = false) ->
  compare_from zero falsy gt a b remaining i = true ->
  compare_from zero falsy gt b a remaining i = false.
Proof.
  induction remaining as [|r IH]; intros i Hgt; simpl; [reflexivity|].
  destruct (gt (part_or_zero zero falsy b i) (part_or_zero zero falsy a i)) eqn:E1.
  - intros _. rewrite (Hgt _ _ E1). reflexivity.
  - destruct (gt (part_or_zero zero falsy a i) (part_or_zero zero falsy b i)) eqn:E2;
      [discriminate|]. apply IH, Hgt.
Qed.

(** X29: [compareVersions] finds no version newer than itself, and
    never finds each of two versions newer than the other. *)
Theorem compareVersions_asymmetric current latest :
  (forall x y, gt x y = true -> gt y x = false) ->
  compareVersions Number zero falsy gt current current = false /\
  (compareVersions Number zero falsy gt current latest = true ->
   compareVersions Number zero falsy gt latest current = false).
Proof.
  intros Hgt. unfold compareVersions.
  assert (Hasym : forall a b,
    compare_from zero falsy gt a b (Nat.max (length a) (length b)) 0 = true ->
    compare_from zero falsy gt b a (Nat.max (length b) (length a)) 0 = false).
  { intros a b. rewrite (Nat.max_comm (length b)). apply compare_from_asymmetric, Hgt. }
  split; [|apply Hasym].
  match goal with |- ?c = false => destruct c eqn:E; [|reflexivity] end.
  pose proof (Hasym _ _ E) as E'. congruence.
Qed.

End CompareVersionsFacts.

Lemma compareVersions_asymmetric_witness :
  compareVersions decimal 0%Z (Z.eqb 0) Z.gtb "1.2.0" "1.10" = true /\
  compareVersions decimal 0%Z (Z.eqb 0) Z.gtb "1.2.0" "1.2.0" = false /\
  (compareVersions decimal 0%Z (Z.eqb 0) Z.gtb "1.2.0" "1.10" = true ->
   compareVersions decimal 0%Z (Z.eqb 0) Z.gtb "1.10" "1.2.0" = false).
Proof.
  split; [vm_compute; reflexivity|].
  apply (compareVersions_asymmetric decimal 0%Z (Z.eqb 0) Z.gtb "1.2.0" "1.10").
  intros x y Hxy. apply Z.gtb_lt in Hxy.
  destruct (Z.gtb_spec y x); [lia | reflexivity].
Defined.

(** ** The settings file *)

Section SettingsFile.

Import ConfigManager.

Ltac disk d :=
  destruct d as [dir file old ro clock_of taken]; simpl in *; subst.

Ltac run_fs :=
  unfold getConfig, setConfig, getApiKey, setApiKey, clearApiKey,
    getLastSession, clearSession, migrateOldConfig,
    try_catch, bind, ret, throw, gets, lift, existsSync, read_parse, write_file,
    unlink_file, ensureConfigDir, set_file, set_old_file, stored; simpl.

Lemma getConfig_eq d : getConfig d = (Ok (held d), d).
Proof. disk d. destruct file as [[v|]|]; reflexivity. Qed.

Lemma held_stored d : unstructured d = false -> held d = Settings (stored d).
Proof.
  unfold unstructured, held, stored.
  destruct (config_file d) as [[[c| | | | |]|]|]; try discriminate; reflexivity.
Qed.

Lemma setConfig_writable (v : Json) d :
  read_only d = false ->
  setConfig v d =
  (Ok tt, mkDisk true (Some (Parsed v)) (old_config_file d) false (now d) (dates_taken d)).
Proof. intros Hw. disk d. destruct dir; reflexivity. Qed.

(** X23: on a disk that can be written, [setConfig] succeeds (creating
    the directory when it is missing), [getConfig] then returns the
    settings that were written, the old settings file is not touched,
    and what was in the file before has no effect on a later
    [setConfig]. *)
Theorem setConfig_getConfig config d :
  read_only d = false ->
  exists d',
    setConfig config d = (Ok tt, d') /\
    getConfig d' = (Ok config, d') /\
    old_config_file d' = old_config_file d /\
    forall other, setConfig other d' = (Ok tt, snd (setConfig other d)).
Proof.
  intros Hw. rewrite (setConfig_writable config d Hw).
  eexists. split; [reflexivity|]. split; [rewrite getConfig_eq; reflexivity|].
  split; [reflexivity|].
  intros other. rewrite !setConfig_writable by (assumption || reflexivity). reflexivity.
Qed.

Lemma setConfig_getConfig_witness :
  exists d',
    setConfig (with_groqApiKey (Some "gsk_login_key") empty) fresh_disk = (Ok tt, d') /\
    getConfig d' = (Ok (Settings (with_groqApiKey (Some "gsk_login_key") empty)), d') /\
    old_config_file d' = None /\
    forall other, setConfig other d' = (Ok tt, snd (setConfig other fresh_disk)).
Proof.
  exact (setConfig_getConfig (with_groqApiKey (Some "gsk_login_key") empty) fresh_disk
           eq_refl).
Defined.

Lemma setConfig_read_only (v : Json) d :
  read_only d = true ->
  exists message,
    setConfig v d = (Throw (Error ("Failed to save config: " ++ message)%string), d).
Proof. intros Hr. disk d. destruct dir; eexists; reflexivity. Qed.

(** X24: on a disk that can be written, with a settings file that is
    missing or holds a settings object, [setApiKey] succeeds and
    changes no other setting; [getApiKey] then returns the key, or
    [null] when the key is the empty string. *)
Theorem setApiKey_getApiKey key d :
  read_only d = false -> config_file d <> Some Garbled -> unstructured d = false ->
  exists d',
    setApiKey key d = (Ok tt, d') /\
    getApiKey d' = (Ok (if truthy_string key then Some key else None), d') /\
    stored d' = with_groqApiKey (Some key) (stored d).
Proof.
  intros Hw Hg Hu. disk d.
  destruct dir, file as [[[c| | | | |]|]|]; try congruence; try discriminate;
    (eexists; split; [reflexivity|]); run_fs;
    destruct (truthy_string key); split; reflexivity.
Qed.

Lemma setApiKey_getApiKey_witness :
  read_only fresh_disk = false /\ config_file fresh_disk <> Some Garbled /\
  unstructured fresh_disk = false /\
  exists d',
    setApiKey "gsk_login_key" fresh_disk = (Ok tt, d') /\
    getApiKey d' = (Ok (Some "gsk_login_key"), d') /\
    stored d' = with_groqApiKey (Some "gsk_login_key") (stored fresh_disk).
Proof.
  split; [reflexivity|]. split; [discriminate|]. split; [reflexivity|].
  apply (setApiKey_getApiKey "gsk_login_key" fresh_disk);
    [reflexivity | discriminate | reflexivity].
Defined.

(** The same on a file that holds JSON that is no object: on [null],
    a string, a number or a boolean [setApiKey] throws; on an array it
    returns, and the key is not in what it writes.  In each case
    [getApiKey] answers [null] afterwards. *)
Lemma setApiKey_unstructured key d :
  unstructured d = true ->
  exists d',
    snd (setApiKey key d) = d' /\
    config_file d' = config_file d /\
    getApiKey d' = (Ok None, d').
Proof.
  intros Hu. disk d. unfold unstructured in Hu. simpl in Hu.
  destruct file as [[[c| | | | |]|]|]; try discriminate;
    destruct dir, ro; (eexists; split; [reflexivity|]); split; reflexivity.
Qed.

(** X25: while the settings file does not parse, [setApiKey] throws
    ([Failed to save API key: ...]) and leaves the file as it is, so
    [getApiKey] keeps answering [null]; [setConfig], which does not
    read the file, replaces it (X23). *)
Theorem setApiKey_garbled key d :
  config_file d = Some Garbled ->
  exists message d',
    setApiKey key d = (Throw (Error ("Failed to save API key: " ++ message)%string), d') /\
    config_file d' = Some Garbled /\
    getApiKey d' = (Ok None, d').
Proof.
  intros Hg. disk d. destruct dir, ro; do 2 eexists; (split; [reflexivity|]); split; reflexivity.
Qed.

Lemma setApiKey_garbled_witness :
  config_file garbled_disk = Some Garbled /\
  exists message d',
    setApiKey "gsk_login_key" garbled_disk
    = (Throw (Error ("Failed to save API key: " ++ message)%string), d') /\
    config_file d' = Some Garbled /\
    getApiKey d' = (Ok None, d').
Proof.
  split; [reflexivity|].
  exact (setApiKey_garbled "gsk_login_key" garbled_disk eq_refl).
Defined.

Lemma is_empty_spec c : is_empty c = true -> c = empty.
Proof.
  destruct c as [[|] [|] [|] [|] [|] [|] [|] [|] [|]]; try discriminate. reflexivity.
Qed.

Lemma clearApiKey_parsed dir v old ro clock_of taken :
  clearApiKey (mkDisk dir (Some (Parsed v)) old ro clock_of taken) =
  (Ok tt,
   if ro then mkDisk dir (Some (Parsed v)) old ro clock_of taken
   else
     match cleared v with
     | None => mkDisk dir None old ro clock_of taken
     | Some v' =>
         if dir then mkDisk dir (Some (Parsed v')) old ro clock_of taken
         else mkDisk dir (Some (Parsed v)) old ro clock_of taken
     end).
Proof.
  unfold clearApiKey, try_catch, bind, ret, gets, lift, existsSync, read_parse, write_file,
    unlink_file, set_file, cleared.
  destruct v as [c| |[|e l]|[|a t]|n|b]; cbn -[is_empty with_groqApiKey];
    try (destruct ro, dir; reflexivity).
  destruct (is_empty (with_groqApiKey None c)), ro, dir; reflexivity.
Qed.

(** X26: [clearApiKey] never throws.  On a disk that can be written
    [getApiKey] answers [null] afterwards and every other setting is
    kept (the file is removed when the key was its only setting); on a
    read-only disk nothing changes, and the key stays. *)
Theorem clearApiKey_clears d :
  exists d',
    clearApiKey d = (Ok tt, d') /\
    (read_only d = false -> well_formed d ->
     getApiKey d' = (Ok None, d') /\
     stored d' = with_groqApiKey None (stored d)) /\
    (read_only d = true -> d' = d).
Proof.
  unfold well_formed. destruct d as [dir [[v|]|] old ro clock_of taken].
  - rewrite clearApiKey_parsed. eexists. split; [reflexivity|]. cbn [read_only config_file
      config_dir old_config_file]. split.
    + intros -> Hwf. rewrite Hwf by (left; discriminate).
      destruct v as [c| |[|e l]|[|a t]|n|b]; try (split; reflexivity).
      unfold cleared.
      destruct (is_empty (with_groqApiKey None c)) eqn:Ee.
      * split; [reflexivity|]. apply is_empty_spec in Ee. unfold stored. simpl.
        symmetry. exact Ee.
      * split; reflexivity.
    + intros ->. reflexivity.
  - eexists. split; [reflexivity|]. split; [|reflexivity]. intros _ _. split; reflexivity.
  - eexists. split; [reflexivity|]. split; [|reflexivity]. intros _ _. split; reflexivity.
Qed.

Lemma skipn_suffix {A} n (l : list A) : exists dropped, l = dropped ++ skipn n l.
Proof. exists (firstn n l). symmetry. apply firstn_skipn. Qed.

Lemma last_twenty_spec {A} (l : list A) :
  (exists dropped, l = dropped ++ last_twenty l) /\
  length (last_twenty l) = Nat.min 20 (length l).
Proof.
  unfold last_twenty. split; [apply skipn_suffix|].
  rewrite List.length_skipn. lia.
Qed.

Lemma stamp_messages_facts history : forall d,
  exists saved,
    stamp_messages history d =
    (Ok saved, mkDisk (config_dir d) (config_file d) (old_config_file d) (read_only d)
                 (now d) (dates_taken d + length history)) /\
    map unstamped saved = map kept history /\
    Forall (fun m => sm_timestamp m <> None) saved.
Proof.
  induction history as [|m history IH]; intros d.
  - exists []. simpl. rewrite Nat.add_0_r. destruct d; simpl. auto.
  - simpl. unfold bind at 1. unfold toISOString_now at 1. unfold bind at 1.
    match goal with |- context [stamp_messages history ?d1] =>
      destruct (IH d1) as (saved & E & Hm & Hs) end.
    rewrite E. simpl.
    eexists. split; [unfold ret; f_equal; f_equal; lia|].
    split; [simpl; f_equal; exact Hm|].
    constructor; [discriminate | exact Hs].
Qed.

(** The end of [saveSession]: the assignment to [config.lastSession]
    and [setConfig], with the catch. *)
Lemma saveSession_end session (v : Json) dir file old ro clock_of taken :
  exists d',
    (let (r, s') :=
       (config <- lift (write_property "lastSession" (with_lastSession (Some session)) v) ;;
        setConfig config)%js (mkDisk dir file old ro clock_of taken) in
     match r with
     | Ok a => (Ok a, s')
     | Throw _ => ret tt s'
     end) = (Ok tt, d') /\
    (ro = false ->
     match v with
     | Settings c =>
         getLastSession d' = (Ok (Some session), d') /\
         with_lastSession None (stored d') = with_lastSession None c
     | JsonArray _ => config_file d' = Some (Parsed v)
     | _ => d' = mkDisk dir file old ro clock_of taken
     end) /\
    (ro = true -> d' = mkDisk dir file old ro clock_of taken).
Proof.
  unfold bind, lift.
  destruct v as [c| |l|t|n|b]; simpl;
    try (eexists; split; [reflexivity|]; split; [intros _|intros _]; reflexivity).
  - destruct ro.
    + destruct (setConfig_read_only (Settings (with_lastSession (Some session) c))
                  (mkDisk dir file old true clock_of taken) eq_refl) as (message & Es).
      rewrite Es. eexists. split; [reflexivity|]. split; [discriminate|]. reflexivity.
    + rewrite setConfig_writable by reflexivity.
      eexists. split; [reflexivity|]. split; [|discriminate]. intros _.
      split; reflexivity.
  - destruct ro.
    + destruct (setConfig_read_only (JsonArray l)
                  (mkDisk dir file old true clock_of taken) eq_refl) as (message & Es).
      rewrite Es. eexists. split; [reflexivity|]. split; [discriminate|]. reflexivity.
    + rewrite setConfig_writable by reflexivity.
      eexists. split; [reflexivity|]. split; [|discriminate]. intros _. reflexivity.
Qed.

Lemma getLastSession_unstructured d :
  unstructured d = true -> getLastSession d = (Ok None, d).
Proof.
  intros Hu. unfold getLastSession, try_catch, bind. rewrite getConfig_eq.
  unfold unstructured in Hu. unfold held, lift.
  destruct (config_file d) as [[[c| | | | |]|]|]; try discriminate; reflexivity.
Qed.

Lemma unstructured_held d :
  unstructured d = true ->
  config_file d = Some (Parsed (held d)) /\
  match held d with Settings _ => False | _ => True end.
Proof.
  unfold unstructured, held.
  destruct (config_file d) as [[[c| | | | |]|]|]; try discriminate; auto.
Qed.

(** X27: [saveSession] never throws.  On a disk that can be written,
    with a settings file that is missing, does not parse or holds a
    settings object, [getLastSession] then returns a session with the
    given provider and model, whose history is the last 20 messages of
    the conversation (all of them when there are fewer), in order,
    each with its role, content and tool fields, and every other
    setting is kept.  When the file holds JSON that is no object
    ([null], an array, a string, a number, a boolean) nothing is
    saved: the file keeps its content and [getLastSession] answers
    [null].  On a read-only disk the file is unchanged. *)
Theorem saveSession_keeps_last_twenty provider model history d :
  exists d',
    saveSession provider model history d = (Ok tt, d') /\
    (read_only d = false -> unstructured d = false ->
     exists session,
       getLastSession d' = (Ok (Some session), d') /\
       ls_provider session = provider /\
       ls_model session = model /\
       ls_timestamp session = now d (dates_taken d) /\
       match history with
       | Some h =>
           exists dropped recent saved,
             h = dropped ++ recent /\
             length recent = Nat.min 20 (length h) /\
             ls_conversationHistory session = Some saved /\
             map unstamped saved = map kept recent
       | None => ls_conversationHistory session = None
       end /\
       with_lastSession None (stored d') = with_lastSession None (stored d)) /\
    (unstructured d = true ->
     config_file d' = config_file d /\ getLastSession d' = (Ok None, d')) /\
    (read_only d = true -> config_file d' = config_file d).
Proof.
  assert (Hend : forall session taken',
    exists d',
      (let (r, s') :=
         (config <- lift (write_property "lastSession" (with_lastSession (Some session)) (held d)) ;;
          setConfig config)%js
           (mkDisk (config_dir d) (config_file d) (old_config_file d) (read_only d)
              (now d) taken') in
       match r with
       | Ok a => (Ok a, s')
       | Throw _ => ret tt s'
       end) = (Ok tt, d') /\
      (read_only d = false -> unstructured d = false ->
       getLastSession d' = (Ok (Some session), d') /\
       with_lastSession None (stored d') = with_lastSession None (stored d)) /\
      (unstructured d = true ->
       config_file d' = config_file d /\ getLastSession d' = (Ok None, d')) /\
      (read_only d = true -> config_file d' = config_file d)).
  { intros session taken'.
    destruct (saveSession_end session (held d) (config_dir d) (config_file d)
                (old_config_file d) (read_only d) (now d) taken')
      as (d' & E & Hw & Hr).
    exists d'. split; [exact E|]. split; [|split].
    - intros Hro Hu. specialize (Hw Hro). rewrite (held_stored d Hu) in Hw. exact Hw.
    - intros Hu. destruct (unstructured_held d Hu) as [Hf Hv].
      assert (Hfile : config_file d' = config_file d).
      { destruct (read_only d) eqn:Hro.
        - rewrite (Hr eq_refl). reflexivity.
        - specialize (Hw eq_refl). rewrite Hf.
          destruct (held d) as [c| |l|t|n|b]; try (rewrite Hw; simpl; exact Hf).
          + destruct Hv.
          + exact Hw. }
      split; [exact Hfile|]. apply getLastSession_unstructured.
      unfold unstructured in *. rewrite Hfile. exact Hu.
    - intros Hro. rewrite (Hr Hro). reflexivity. }
  unfold saveSession, try_catch. unfold bind at 1. rewrite getConfig_eq.
  unfold bind at 1. unfold toISOString_now at 1.
  destruct history as [h|]; cbn [option_map].
  - unfold bind at 1. unfold bind at 1.
    match goal with |- context [stamp_messages (last_twenty h) ?d1] =>
      destruct (stamp_messages_facts (last_twenty h) d1) as (saved & E & Hm & _) end.
    rewrite E. unfold ret at 1.
    cbn [config_dir config_file old_config_file read_only now dates_taken].
    destruct (Hend (mkLastSession provider model (now d (dates_taken d)) (Some saved))
                (S (dates_taken d) + length (last_twenty h)))
      as (d' & E' & Hw & Hu & Hr).
    exists d'. split; [exact E'|]. split; [|split; [exact Hu | exact Hr]].
    intros Hro Hun. destruct (Hw Hro Hun) as (E1 & E2).
    eexists. split; [exact E1|]. cbn.
    split; [reflexivity|]. split; [reflexivity|]. split; [reflexivity|].
    split; [|exact E2].
    destruct (last_twenty_spec h) as [(dropped & Hd) Hl].
    exists dropped, (last_twenty h), saved. auto.
  - unfold bind at 1. unfold ret at 1.
    destruct (Hend (mkLastSession provider model (now d (dates_taken d)) None)
                (S (dates_taken d)))
      as (d' & E' & Hw & Hu & Hr).
    exists d'. split; [exact E'|]. split; [|split; [exact Hu | exact Hr]].
    intros Hro Hun. destruct (Hw Hro Hun) as (E1 & E2).
    eexists. split; [exact E1|]. cbn. auto.
Qed.

(** X28: [migrateOldConfig] never throws, and does nothing when
    [config.json] exists.  Otherwise, on a disk that can be written,
    the old file becomes [config.json] and is removed.  In every case
    [config.json] afterwards holds what it held or what the old file
    held, and a second run changes nothing. *)
Theorem migrateOldConfig_moves d :
  exists d',
    migrateOldConfig d = (Ok tt, d') /\
    (config_file d <> None -> d' = d) /\
    (config_file d = None -> read_only d = false -> well_formed d ->
     config_file d' = old_config_file d /\ old_config_file d' = None) /\
    (config_file d' = config_file d \/ config_file d' = old_config_file d) /\
    migrateOldConfig d' = (Ok tt, d').
Proof.
  unfold well_formed. disk d.
  destruct file as [f|].
  - eexists. split; [reflexivity|]. split; [reflexivity|]. split; [discriminate|].
    split; [left|]; reflexivity.
  - destruct old as [o|].
    + destruct ro.
      * eexists. split; [reflexivity|]. split; [reflexivity|]. split; [discriminate|].
        split; [left|]; reflexivity.
      * destruct dir.
        -- eexists. split; [reflexivity|]. split; [congruence|].
           split; [intros _ _ _; split; reflexivity|]. split; [right|]; reflexivity.
        -- eexists. split; [reflexivity|]. split; [reflexivity|].
           split; [intros _ _ Hwf; discriminate Hwf; right; discriminate|].
           split; [left|]; reflexivity.
    + eexists. split; [reflexivity|]. split; [reflexivity|].
      split; [intros _ _ _; split; reflexivity|]. split; [left|]; reflexivity.
Qed.

End SettingsFile.

(** ** The rest of the manager *)

Lemma insert_by_id_perm p l : Permutation (insert_by_id p l) (p :: l).
Proof.
  induction l as [|q l IH]; simpl; [reflexivity|].
  destruct (inst_id p <=? inst_id q)%nat; [reflexivity|].
  rewrite IH. apply perm_swap.
Qed.

Lemma registered_perm {W} (s : Manager W) :
  Permutation (registered s) (map snd (map_to_list (providers s))).
Proof.
  unfold registered. induction (map snd (map_to_list (providers s))) as [|p l IH]; simpl.
  - reflexivity.
  - rewrite insert_by_id_perm, IH. reflexivity.
Qed.

Lemma append_assoc3 (a b c : string) : ((a ++ b) ++ c = a ++ b ++ c)%string.
Proof.
  induction a as [|x a IH]; [rewrite !append_nil; reflexivity|].
  rewrite !append_cons. congruence.
Qed.

Lemma includes_trans s q2 q1 :
  includes s q2 = true -> includes q2 q1 = true -> includes s q1 = true.
Proof.
  rewrite !includes_spec. intros (pre & post & ->) (a & c & ->).
  exists (pre ++ a)%string, (c ++ post)%string.
  rewrite !append_assoc3. reflexivity.
Qed.

Lemma matches_query_narrower lowercase longerLower lowerQuery model :
  includes longerLower lowerQuery = true ->
  matches_query lowercase longerLower model = true ->
  matches_query lowercase lowerQuery model = true.
Proof.
  intros Hq. unfold matches_query. rewrite !orb_true_iff.
  intros [[[Hi|Hn]|Hd]|Hp].
  - left. left. left. eapply includes_trans; eassumption.
  - left. left. right. eapply includes_trans; eassumption.
  - left. right. destruct (m_description (pm_model model)) as [d|]; [|discriminate].
    apply andb_true_iff in Hd. destruct Hd as [Ht Hd].
    apply andb_true_iff. split; [exact Ht|]. eapply includes_trans; eassumption.
  - right. eapply includes_trans; eassumption.
Qed.

Lemma filter_narrower {A} (f g : A -> bool) l :
  (forall x, f x = true -> g x = true) ->
  List.filter f l = List.filter f (List.filter g l).
Proof.
  intros Hfg. induction l as [|m l IH]; [reflexivity|].
  simpl. destruct (f m) eqn:E2.
  - rewrite (Hfg m E2). simpl. rewrite E2. f_equal. exact IH.
  - destruct (g m); [|exact IH]. simpl. rewrite E2. exact IH.
Qed.

Lemma of_saved_to_saved c : of_saved (to_saved c) = c.
Proof. destruct c as [[| |] e p]; reflexivity. Qed.

Lemma isValidProvider_key n : isValidProvider (provider_key n) = true.
Proof. destruct n; reflexivity. Qed.

Lemma load_saved configs :
  map of_saved
    (List.filter (fun config => isValidProvider (sp_name config)) (map to_saved configs))
  = configs.
Proof.
  induction configs as [|c l IH]; [reflexivity|].
  simpl. rewrite isValidProvider_key. simpl. rewrite of_saved_to_saved, IH. reflexivity.
Qed.

Lemma findIndex_Some n configs : forall i,
  findIndex n configs = Some i ->
  exists c, configs !! i = Some c /\ name c = n /\
            forall j c', j < i -> configs !! j = Some c' -> name c' <> n.
Proof.
  induction configs as [|c l IH]; intros i Hi; simpl in Hi; [discriminate|].
  case_bool_decide as Hn.
  - injection Hi as <-. exists c. split; [reflexivity|]. split; [exact Hn|]. intros; lia.
  - destruct (findIndex n l) as [k|]; [|discriminate]. injection Hi as <-.
    destruct (IH k eq_refl) as (c0 & Hc0 & Hn0 & Hfirst).
    exists c0. split; [exact Hc0|]. split; [exact Hn0|].
    intros [|j] c' Hj Hc'; simpl in Hc'.
    + injection Hc' as <-. exact Hn.
    + apply (Hfirst j c'); [lia | exact Hc'].
Qed.

Lemma findIndex_None n configs :
  findIndex n configs = None <-> forall c, In c configs -> name c <> n.
Proof.
  induction configs as [|c l IH]; simpl.
  - split; [intros _ c [] | reflexivity].
  - case_bool_decide as Hn.
    + split; [discriminate|]. intros Hall. destruct (Hall c); auto.
    + destruct (findIndex n l) as [k|]; simpl.
      * split; [discriminate|]. intros Hall.
        assert (Some k = None); [|discriminate]. apply IH. intros; apply Hall; auto.
      * split; [|reflexivity]. intros _ c0 [<-|Hin]; [exact Hn|].
        destruct IH as [IH _]. apply IH; auto.
Qed.

Lemma filter_insert_by_priority p c l :
  List.filter (fun x => priority x =? p)%Z (insert_by_priority c l)
  = List.filter (fun x => priority x =? p)%Z (c :: l).
Proof.
  induction l as [|d l IH]; [reflexivity|].
  cbn [insert_by_priority].
  destruct (priority c <=? priority d)%Z eqn:E; [reflexivity|].
  apply Z.leb_gt in E.
  cbn [List.filter] in *. rewrite IH.
  destruct (priority c =? p)%Z eqn:Ec; [|reflexivity].
  apply Z.eqb_eq in Ec.
  destruct (priority d =? p)%Z eqn:Ed; [|reflexivity].
  apply Z.eqb_eq in Ed. lia.
Qed.

Lemma filter_sort_by_priority p l :
  List.filter (fun x => priority x =? p)%Z (sort_by_priority l)
  = List.filter (fun x => priority x =? p)%Z l.
Proof.
  induction l as [|c l IH]; [reflexivity|].
  cbn [sort_by_priority]. rewrite filter_insert_by_priority.
  cbn [List.filter]. rewrite IH. reflexivity.
Qed.

Lemma filter_filter_comm {A} (f g : A -> bool) l :
  List.filter f (List.filter g l) = List.filter g (List.filter f l).
Proof.
  induction l as [|x l IH]; simpl; [reflexivity|].
  destruct (f x) eqn:Ef, (g x) eqn:Eg; simpl; rewrite ?Ef, ?Eg, IH; reflexivity.
Qed.

(** X18: among the candidates of [autoSelectProvider] that share a
    priority number, the order is the one of the configurations
    (the sort is stable). *)
Theorem candidates_keep_configuration_order detection configs p :
  List.filter (fun c => priority c =? p)%Z (candidates detection configs)
  = List.filter (fun c => priority c =? p)%Z
      (List.filter (usable detection) (List.filter enabled configs)).
Proof.
  unfold candidates.
  rewrite filter_filter_comm, filter_sort_by_priority, filter_filter_comm. reflexivity.
Qed.

Section ManagerFurther.

Context {W : Type} `{LLMProvider W}.

(** X12: when the provider asked for is connected and another one is
    active, [setActiveProvider] makes three adapter calls: [getStatus]
    on the new one, [cleanup] on the active one, [initialize] on the
    new one.  Its outcome is that of [initialize]; when [initialize]
    throws, the provider that has just been cleaned up stays the
    active one. *)
Theorem setActiveProvider_cleans_before_initialize n (s : Manager W) st current :
  fst (getStatus (the_instance n s) (world s)) = Ok st ->
  st_connected st = true ->
  activeProvider s = Some current ->
  current <> the_instance n s ->
  fst (cleanup current (snd (getStatus (the_instance n s) (world s)))) = Ok tt ->
  exists r s',
    fst (initialize (the_instance n s)
           (snd (cleanup current (snd (getStatus (the_instance n s) (world s)))))) = r /\
    setActiveProvider n s = (r, s') /\
    calls s' = calls s ++
      [ mkCall (the_instance n s) MGetStatus true (Some current);
        mkCall current MCleanup true (Some current);
        mkCall (the_instance n s) MInitialize (is_ok r) (Some current) ] /\
    activeProvider s' = if is_ok r then Some (the_instance n s) else Some current.
Proof.
  intros Hst Hconn Hact Hne Hclean.
  destruct (getProviderInstance_facts n s)
    as (s1 & E1 & _ & _ & Ha & _ & Hl & Hw & _).
  unfold setActiveProvider.
  replace (isValidProvider (provider_key n)) with true by (destruct n; reflexivity).
  simpl. unfold bind at 1. rewrite E1.
  unfold bind at 1. rewrite invoke_eq, Hw.
  destruct (getStatus (the_instance n s) (world s)) as [r1 w1]. simpl in Hst, Hclean. subst r1.
  simpl. rewrite Hconn. simpl.
  unfold bind at 1. unfold gets at 1. simpl. rewrite Ha, Hact.
  rewrite bool_decide_eq_true_2 by exact Hne.
  unfold bind at 1. rewrite invoke_eq. simpl.
  destruct (cleanup current w1) as [r2 w2]. simpl in Hclean. subst r2. simpl.
  unfold bind at 1. rewrite invoke_eq. simpl.
  destruct (initialize (the_instance n s) w2) as [[[]|t] w3]; simpl.
  - eexists _, _. split; [reflexivity|]. split; [reflexivity|]. simpl.
    rewrite Hl, Ha, Hact, <- !app_assoc. auto.
  - eexists _, _. split; [reflexivity|]. split; [reflexivity|]. simpl.
    rewrite Hl, Ha, Hact, <- !app_assoc. auto.
Qed.

Lemma autoSelect_loop_no_cleanup detection configs : forall s : Manager W,
  exists new,
    calls (snd (autoSelect_loop detection configs s)) = calls s ++ new /\
    Forall (fun c => call_method c <> MCleanup) new.
Proof.
  induction configs as [|c rest IH]; intros s; simpl.
  - exists []. rewrite app_nil_r. split; [reflexivity | constructor].
  - destruct (usable detection c); [|apply IH].
    destruct (getProviderInstance_facts (name c) s)
      as (s1 & E1 & _ & _ & _ & _ & Hl & _).
    unfold bind at 1. rewrite E1. unfold bind at 1. rewrite invoke_eq.
    destruct (initialize (the_instance (name c) s) (world s1)) as [[u|t] w1]; simpl.
    + eexists. rewrite Hl. split; [reflexivity|].
      constructor; [discriminate | constructor].
    + match goal with |- context [autoSelect_loop detection rest ?s2] =>
        destruct (IH s2) as (new & Hn & Hf); rewrite Hn end.
      simpl. rewrite Hl, <- app_assoc. eexists. split; [reflexivity|].
      constructor; [discriminate | exact Hf].
Qed.

(** X13: [autoSelectProvider] calls [cleanup] on no adapter, not even
    on the provider it replaces as the active one. *)
Theorem autoSelectProvider_never_cleans_up (s : Manager W) :
  exists new,
    calls (snd (autoSelectProvider s)) = calls s ++ new /\
    Forall (fun c => call_method c <> MCleanup) new.
Proof.
  destruct (detectProviders_facts s) as (detection & s1 & E1 & _ & P1).
  destruct P1 as (_ & _ & _ & _ & n1 & Hn1 & Hf1).
  unfold autoSelectProvider. unfold bind at 1. rewrite E1.
  unfold bind at 1. unfold gets at 1.
  destruct (autoSelect_loop_no_cleanup detection
              (sort_by_priority (List.filter enabled (providerConfigs s1))) s1)
    as (n2 & Hn2 & Hf2).
  exists (n1 ++ n2). rewrite Hn2, Hn1, app_assoc. split; [reflexivity|].
  apply Forall_app. split; [|exact Hf2].
  eapply List.Forall_impl; [|exact Hf1].
  intros c [_ Hp] Hc. rewrite Hc in Hp. discriminate.
Qed.

(** X14: [getStatusSummary] never throws; [total] is always 3,
    [available] and [connected] are at most 3, [active] is the name of
    the active provider, which the call does not change. *)
Theorem getStatusSummary_counts (s : Manager W) :
  exists summary s',
    getStatusSummary s = (Ok summary, s') /\
    sum_total summary = 3 /\
    sum_available summary <= 3 /\
    sum_connected summary <= 3 /\
    sum_active summary
      = option_map (fun a => provider_key (inst_name a)) (activeProvider s) /\
    activeProvider s' = activeProvider s.
Proof.
  destruct (detectProviders_facts s) as (detection & s1 & E1 & Hm & P1).
  destruct P1 as (Ha & _).
  assert (Hlen : length detection = 3).
  { rewrite <- (length_map d_provider), Hm. reflexivity. }
  unfold getStatusSummary. unfold bind at 1. rewrite E1.
  unfold bind at 1. unfold gets at 1. unfold ret.
  eexists _, _. split; [reflexivity|]. simpl.
  split; [exact Hlen|].
  split; [rewrite <- Hlen; apply List.filter_length_le|].
  split; [rewrite <- Hlen; apply List.filter_length_le|].
  rewrite Ha. auto.
Qed.

(** X15: [healthCheck] never throws and never changes the active
    provider.  Without an active provider it answers [false] and calls
    nothing; otherwise it calls [getStatus] on the active provider,
    once, and answers its [connected], or [false] when [getStatus]
    throws. *)
Theorem healthCheck_never_throws (s : Manager W) :
  exists healthy s',
    healthCheck s = (Ok healthy, s') /\
    activeProvider s' = activeProvider s /\
    match activeProvider s with
    | None => healthy = false /\ s' = s
    | Some active =>
        calls s' = calls s ++
          [mkCall active MGetStatus (is_ok (fst (getStatus active (world s)))) (Some active)] /\
        healthy = match fst (getStatus active (world s)) with
                  | Ok status => st_connected status
                  | Throw _ => false
                  end
    end.
Proof.
  unfold healthCheck. destruct (activeProvider s) as [active|] eqn:Hact.
  - unfold try_catch, bind. rewrite invoke_eq, Hact.
    destruct (getStatus active (world s)) as [[st|t] w1]; simpl;
      eexists _, _; (split; [reflexivity|]); simpl; auto.
  - exists false, s. auto.
Qed.

Lemma cleanup_loop_facts ps : forall s : Manager W,
  exists s' new,
    cleanup_loop ps s = (Ok tt, s') /\
    providers s' = providers s /\
    activeProvider s' = activeProvider s /\
    providerConfigs s' = providerConfigs s /\
    next_object s' = next_object s /\
    calls s' = calls s ++ new /\
    map call_target new = ps /\
    Forall (fun c => call_method c = MCleanup) new.
Proof.
  induction ps as [|p ps IH]; intros s; simpl.
  - exists s, []. rewrite app_nil_r. repeat (split; [reflexivity|]). constructor.
  - unfold bind at 1. unfold try_catch. rewrite invoke_eq.
    destruct (cleanup p (world s)) as [[u|t] w1]; simpl.
    + match goal with |- context [cleanup_loop ps ?s1] =>
        destruct (IH s1) as (s' & new & E & Hp & Ha & Hc & Hn & Hl & Ht & Hm) end.
      eexists s', (_ :: new). rewrite E. split; [reflexivity|]. simpl in *.
      repeat (split; [assumption|]).
      split; [rewrite Hl, <- app_assoc; reflexivity|].
      split; [rewrite Ht; reflexivity|]. constructor; [reflexivity | assumption].
    + match goal with |- context [cleanup_loop ps ?s1] =>
        destruct (IH s1) as (s' & new & E & Hp & Ha & Hc & Hn & Hl & Ht & Hm) end.
      eexists s', (_ :: new). rewrite E. split; [reflexivity|]. simpl in *.
      repeat (split; [assumption|]).
      split; [rewrite Hl, <- app_assoc; reflexivity|].
      split; [rewrite Ht; reflexivity|]. constructor; [reflexivity | assumption].
Qed.

(** X16: [ProviderManager.cleanup] never throws, whatever the adapters'
    [cleanup] throw.  It calls [cleanup], and nothing else, once on
    each registered adapter, then empties the registry and clears the
    active provider; the configurations stay.  The next
    [getProviderInstance] builds a new object, different from the
    one registered before. *)
Theorem cleanup_all_clears (s : Manager W) :
  exists s' new,
    cleanup_all s = (Ok tt, s') /\
    providers s' = ∅ /\
    activeProvider s' = None /\
    providerConfigs s' = providerConfigs s /\
    calls s' = calls s ++ new /\
    Forall (fun c => call_method c = MCleanup) new /\
    Permutation (map call_target new) (map snd (map_to_list (providers s))) /\
    forall n,
      fst (getProviderInstance n s') = Ok (mkInstance n (next_object s)) /\
      forall p, providers s !! n = Some p -> inst_id p < next_object s ->
                fst (getProviderInstance n s') <> Ok p.
Proof.
  unfold cleanup_all. unfold bind at 1. unfold gets at 1.
  destruct (cleanup_loop_facts (registered s) s)
    as (s1 & new & E & Hp & Ha & Hc & Hn & Hl & Ht & Hm).
  unfold bind at 1. rewrite E. unfold modify.
  eexists _, new. split; [reflexivity|]. simpl.
  split; [reflexivity|]. split; [reflexivity|]. split; [assumption|].
  split; [assumption|]. split; [assumption|].
  split; [rewrite Ht; apply registered_perm|].
  intros n. unfold getProviderInstance. simpl. rewrite lookup_empty. simpl.
  rewrite Hn. split; [reflexivity|].
  intros p Hp' Hlt [= Heq]. subst p. simpl in Hlt. lia.
Qed.

Lemma detect_one_models n (s : Manager W) :
  match fst (detect_one n s) with
  | Ok d => d_models d <> None -> st_connected (d_status d) = true
  | Throw _ => False
  end.
Proof.
  destruct (getProviderInstance_facts n s) as (s1 & E1 & _).
  unfold detect_one, try_catch, bind. rewrite E1, invoke_eq.
  destruct (isAvailable (the_instance n s) (world s1)) as [[a|t] w1]; simpl;
    [|intros Hm; congruence].
  rewrite invoke_eq. simpl.
  destruct (getStatus (the_instance n s) w1) as [[st|t] w2]; simpl;
    [|intros Hm; congruence].
  destruct (st_connected st) eqn:Ec; simpl.
  - unfold try_catch, bind. rewrite invoke_eq. simpl.
    destruct (listModels (the_instance n s) w2) as [[ms|t] w3]; simpl; auto.
  - intros Hm; congruence.
Qed.

Lemma detect_loop_models names : forall results (s : Manager W),
  Forall (fun d => d_models d <> None -> st_connected (d_status d) = true) results ->
  match fst (detect_loop names results s) with
  | Ok detection =>
      Forall (fun d => d_models d <> None -> st_connected (d_status d) = true) detection
  | Throw _ => False
  end.
Proof.
  induction names as [|n rest IH]; intros results s Hr; simpl; [exact Hr|].
  unfold bind. pose proof (detect_one_models n s) as Hd.
  destruct (detect_one n s) as [[d|t] s1]; simpl in Hd; [|destruct Hd].
  apply IH. apply Forall_app. split; [exact Hr|]. constructor; [exact Hd | constructor].
Qed.

Lemma in_collect_models detection pm :
  In pm (collect_models detection) <->
  exists d ms, In d detection /\ d_models d = Some ms /\ In (pm_model pm) ms /\
               pm_provider pm = provider_key (d_provider d).
Proof.
  unfold collect_models. rewrite in_flat_map. split.
  - intros (d & Hd & Hpm). destruct (d_models d) as [ms|] eqn:Em; [|destruct Hpm].
    apply in_map_iff in Hpm. destruct Hpm as (m & <- & Hm).
    exists d, ms. auto.
  - intros (d & ms & Hd & Em & Hm & Hp). exists d. split; [exact Hd|].
    rewrite Em. apply in_map_iff. exists (pm_model pm). split; [|exact Hm].
    destruct pm as [m k]. simpl in *. congruence.
Qed.

(** X17: [getAllModels] never throws, and returns exactly the models
    of the detection results that carry models, each tagged with the
    name of its provider; a detection result carries models only when
    its status is [connected]. *)
Theorem getAllModels_from_connected (s : Manager W) :
  exists detection allModels s',
    detectProviders s = (Ok detection, s') /\
    getAllModels s = (Ok allModels, s') /\
    forall pm,
      In pm allModels <->
      exists d ms,
        In d detection /\ st_connected (d_status d) = true /\
        d_models d = Some ms /\ In (pm_model pm) ms /\
        pm_provider pm = provider_key (d_provider d).
Proof.
  destruct (detectProviders_facts s) as (detection & s' & E & _ & _).
  pose proof (detect_loop_models getAvailableProviders [] s (List.Forall_nil _)) as Hc.
  unfold detectProviders in E. rewrite E in Hc. simpl in Hc.
  exists detection, (collect_models detection), s'.
  split; [exact E|]. split.
  { unfold getAllModels, bind. unfold detectProviders. rewrite E. reflexivity. }
  intros pm. rewrite in_collect_models. split.
  - intros (d & ms & Hd & Em & Hm & Hp). exists d, ms.
    split; [exact Hd|]. split; [|auto].
    rewrite List.Forall_forall in Hc. apply (Hc d Hd). congruence.
  - intros (d & ms & Hd & _ & Em & Hm & Hp). exists d, ms. auto.
Qed.

(** X19: when the lower-cased [query] occurs in the lower-cased
    [longer], what [findModels longer] returns is what filtering the
    result of [findModels query] by [longer] gives, over the same
    detection run: such a longer query never finds more.  This holds
    whatever [String.prototype.toLowerCase] does. *)
Theorem findModels_narrows lowercase query longer (s : Manager W) :
  includes (lowercase longer) (lowercase query) = true ->
  exists found fewer s',
    findModels lowercase query s = (Ok found, s') /\
    findModels lowercase longer s = (Ok fewer, s') /\
    fewer = List.filter (matches_query lowercase (lowercase longer)) found /\
    forall model, In model fewer -> In model found.
Proof.
  intros Hq.
  destruct (detectProviders_facts s) as (detection & s' & E & _ & _).
  assert (Eall : getAllModels s = (Ok (collect_models detection), s')).
  { unfold getAllModels, bind. rewrite E. reflexivity. }
  exists (List.filter (matches_query lowercase (lowercase query))
            (collect_models detection)),
    (List.filter (matches_query lowercase (lowercase longer))
       (collect_models detection)), s'.
  split; [unfold findModels, bind; rewrite Eall; reflexivity|].
  split; [unfold findModels, bind; rewrite Eall; reflexivity|].
  assert (Hsub : forall model,
             matches_query lowercase (lowercase longer) model = true ->
             matches_query lowercase (lowercase query) model = true).
  { intros model. apply matches_query_narrower, Hq. }
  split; [apply filter_narrower, Hsub|].
  intros model. rewrite !List.filter_In. intros [Hin Hm]. auto.
Qed.

Lemma saveConfig_outcome (s : Manager W) d :
  exists d',
    saveConfig (s, d) = (Ok tt, (s, d')) /\
    (read_only d = false -> unstructured d = false ->
     d' = mkDisk true
            (Some (Parsed (Settings (ConfigManager.with_providers
                                       (Some (map to_saved (providerConfigs s)))
                                       (stored d)))))
            (old_config_file d) false (now d) (dates_taken d)) /\
    (unstructured d = true -> config_file d' = config_file d) /\
    (read_only d = true -> d' = d).
Proof.
  unfold saveConfig, try_catch, bind, getLocalSettings, setLocalSettings.
  rewrite getConfig_eq.
  assert (Hset : forall v : Json,
    exists d',
      (let (r, s') := ConfigManager.setConfig v d in
       match r with
       | Ok a => (Ok a, s')
       | Throw _ => ret tt s'
       end) = (Ok tt, d') /\
      (read_only d = false ->
       d' = mkDisk true (Some (Parsed v)) (old_config_file d) false (now d)
              (dates_taken d)) /\
      (read_only d = true -> d' = d)).
  { intros v. destruct (read_only d) eqn:Hr.
    - destruct (setConfig_read_only v d Hr) as (message & E). rewrite E.
      exists d. split; [reflexivity|]. split; [discriminate | reflexivity].
    - rewrite setConfig_writable by exact Hr.
      eexists. split; [reflexivity|]. split; [reflexivity | discriminate]. }
  destruct (unstructured d) eqn:Hu.
  - destruct (unstructured_held d Hu) as [Hf Hv]. unfold ConfigManager.lift.
    destruct (held d) as [c| |l|t|n|b] eqn:Eh; [destruct Hv| | | | |]; simpl;
      try (exists d; split; [reflexivity|]; split; [discriminate|];
           split; reflexivity).
    destruct (Hset (JsonArray l)) as (d' & E & Hw & Hr).
    exists d'. rewrite E. split; [reflexivity|]. split; [discriminate|].
    split; [|exact Hr]. intros _.
    destruct (read_only d) eqn:Hro.
    + rewrite (Hr eq_refl). reflexivity.
    + rewrite (Hw eq_refl). simpl. symmetry. exact Hf.
  - rewrite (held_stored d Hu). unfold ConfigManager.lift. simpl.
    match goal with |- context [ConfigManager.setConfig ?v d] =>
      destruct (Hset v) as (d' & E & Hw & Hr) end.
    exists d'. rewrite E. split; [reflexivity|]. split; [|split; [discriminate|exact Hr]].
    intros Hro _. exact (Hw Hro).
Qed.

Lemma loadConfig_unstructured (s : Manager W) d :
  unstructured d = true -> loadConfig (s, d) = (Ok tt, (s, d)).
Proof.
  intros Hu. unfold loadConfig, bind, getLocalSettings. rewrite getConfig_eq.
  destruct (unstructured_held d Hu) as [_ Hv]. unfold ConfigManager.lift.
  destruct (held d) as [c| |l|t|n|b]; [destruct Hv| | | | |]; reflexivity.
Qed.

(** X20: [saveConfig] never throws.  On a disk that can be written,
    with a settings file that is missing, does not parse or holds a
    settings object, [loadConfig], run later by any manager, restores
    the configurations that were saved, in order, and the other
    settings of the file are kept.  When the file holds JSON that is
    no object it keeps its content and [loadConfig] changes nothing;
    on a read-only disk nothing is written. *)
Theorem saveConfig_loadConfig (s later : Manager W) d :
  exists d',
    saveConfig (s, d) = (Ok tt, (s, d')) /\
    (read_only d = false -> unstructured d = false ->
     loadConfig (later, d')
     = (Ok tt, (set_providerConfigs (providerConfigs s) later, d')) /\
     ConfigManager.with_providers None (stored d')
     = ConfigManager.with_providers None (stored d) /\
     old_config_file d' = old_config_file d) /\
    (unstructured d = true ->
     config_file d' = config_file d /\
     loadConfig (later, d') = (Ok tt, (later, d'))) /\
    (read_only d = true -> d' = d).
Proof.
  destruct (saveConfig_outcome s d) as (d' & E & Hw & Hu & Hr).
  exists d'. split; [exact E|]. split; [|split; [|exact Hr]].
  - intros Hro Hun. rewrite (Hw Hro Hun). split; [|split; reflexivity].
    unfold loadConfig, bind, getLocalSettings. rewrite getConfig_eq.
    unfold held, ConfigManager.lift. simpl.
    rewrite load_saved. reflexivity.
  - intros Hun. split; [exact (Hu Hun)|]. apply loadConfig_unstructured.
    unfold unstructured in *. rewrite (Hu Hun). exact Hun.
Qed.

(** X21: [updateProviderConfig] never throws and touches nothing of
    the manager but the configurations.  It updates the first
    configuration with the given name, and only that one; when there
    is none it appends one, enabled and with priority one more than
    the number of configurations, before the updates are applied.  On
    a disk that can be written, with a settings file that is missing,
    does not parse or holds a settings object, the new list is in the
    settings file afterwards; a file that holds JSON that is no object
    keeps its content. *)
Theorem updateProviderConfig_first_match n updates (s : Manager W) d :
  exists configs' d',
    updateProviderConfig n updates (s, d)
    = (Ok tt, (set_providerConfigs configs' s, d')) /\
    (forall i c,
        providerConfigs s !! i = Some c -> name c = n ->
        (forall j c', j < i -> providerConfigs s !! j = Some c' -> name c' <> n) ->
        configs' = <[i := apply_updates c updates]> (providerConfigs s)) /\
    ((forall c, In c (providerConfigs s) -> name c <> n) ->
     configs' = providerConfigs s ++
                [apply_updates
                   (mkConfig n true (Z.of_nat (length (providerConfigs s)) + 1)) updates]) /\
    (read_only d = false -> unstructured d = false ->
     cfg_providers (stored d') = Some (map to_saved configs')) /\
    (unstructured d = true -> config_file d' = config_file d) /\
    (read_only d = true -> d' = d).
Proof.
  unfold updateProviderConfig.
  set (configs' := update_configs n updates (providerConfigs s)).
  destruct (saveConfig_outcome (set_providerConfigs configs' s) d)
    as (d' & E & Hw & Hu & Hr).
  exists configs', d'. split; [exact E|].
  split; [|split; [|split; [|split; [exact Hu | exact Hr]]]].
  - intros i c Hi Hn Hfirst. unfold configs', update_configs.
    destruct (findIndex n (providerConfigs s)) as [k|] eqn:Ek.
    + destruct (findIndex_Some _ _ _ Ek) as (c0 & Hc0 & Hn0 & Hfirst0).
      assert (k = i).
      { destruct (Nat.lt_trichotomy k i) as [Hlt|[Heq|Hgt]]; [|exact Heq|].
        - destruct (Hfirst k c0 Hlt Hc0 Hn0).
        - destruct (Hfirst0 i c Hgt Hi Hn). }
      subst k. rewrite Hi. reflexivity.
    + apply findIndex_None with (c := c) in Ek; [contradiction|].
      apply list_elem_of_In. eapply list_elem_of_lookup_2. exact Hi.
  - intros Hall. unfold configs', update_configs.
    apply findIndex_None in Hall. rewrite Hall. reflexivity.
  - intros Hro Hun. rewrite (Hw Hro Hun). reflexivity.
Qed.

Lemma update_configs_disabled n configs c :
  length (List.filter (fun c => bool_decide (name c = n)) configs) <= 1 ->
  In c (update_configs n (mkUpdates None (Some false) None) configs) ->
  name c = n -> enabled c = false.
Proof.
  unfold update_configs.
  destruct (findIndex n configs) as [k|] eqn:Ek.
  - destruct (findIndex_Some _ _ _ Ek) as (c0 & Hc0 & Hn0 & _). rewrite Hc0.
    clear Ek. revert k Hc0.
    induction configs as [|a l IH]; intros k Hc0 Hlen Hin Hn; [discriminate|].
    destruct k as [|k]; simpl in *.
    + injection Hc0 as ->. rewrite bool_decide_eq_true_2 in Hlen by exact Hn0.
      simpl in Hlen. destruct Hin as [<-|Hin]; [reflexivity|].
      assert (Hf : In c (List.filter (fun c => bool_decide (name c = n)) l)).
      { apply List.filter_In. split; [exact Hin|]. apply bool_decide_eq_true_2, Hn. }
      destruct (List.filter _ l); [destruct Hf | simpl in Hlen; lia].
    + destruct Hin as [<-|Hin].
      * rewrite bool_decide_eq_true_2 in Hlen by exact Hn. simpl in Hlen.
        assert (Hf : In c0 (List.filter (fun c => bool_decide (name c = n)) l)).
        { apply List.filter_In. split.
          - apply list_elem_of_In. eapply list_elem_of_lookup_2. exact Hc0.
          - apply bool_decide_eq_true_2, Hn0. }
        destruct (List.filter _ l); [destruct Hf | simpl in Hlen; lia].
      * apply (IH k Hc0); [|exact Hin|exact Hn].
        destruct (bool_decide (name a = n)); simpl in Hlen; lia.
  - intros _ Hin Hn. apply in_app_or in Hin. destruct Hin as [Hin|[<-|[]]].
    + apply findIndex_None with (c := c) in Ek; [contradiction | exact Hin].
    + reflexivity.
Qed.

(** X22: after [updateProviderConfig] has set [enabled] to [false] for
    a provider that has at most one configuration,
    [autoSelectProvider] never selects that provider, whatever the
    services answer. *)
Theorem disabled_provider_not_selected n (s : Manager W) d :
  registry_ok s = true ->
  length (List.filter (fun c => bool_decide (name c = n)) (providerConfigs s)) <= 1 ->
  exists s1 d1 r s2,
    updateProviderConfig n (mkUpdates None (Some false) None) (s, d) = (Ok tt, (s1, d1)) /\
    autoSelectProvider s1 = (Ok r, s2) /\
    forall p, r = Some p -> inst_name p <> n.
Proof.
  intros Hok Hone.
  set (configs' := update_configs n (mkUpdates None (Some false) None) (providerConfigs s)).
  set (s1 := set_providerConfigs configs' s).
  destruct (saveConfig_outcome s1 d) as (d1 & E & _).
  assert (Hok1 : registry_ok s1 = true) by exact Hok.
  destruct (detectProviders_facts s1) as (detection & s' & E1 & _ & P1).
  destruct P1 as (Ha1 & Hc1 & _ & Hk1 & _).
  destruct (autoSelect_loop_facts detection
              (sort_by_priority (List.filter enabled (providerConfigs s')))
              s' (Hk1 Hok1))
    as (r & s2 & tried & new & E2 & _ & _ & Hr).
  exists s1, d1, r, s2. split; [exact E|]. split.
  { unfold autoSelectProvider. unfold bind at 1. rewrite E1.
    unfold bind at 1. unfold gets at 1. exact E2. }
  intros p ->. destruct Hr as (c & rest & Hf & Hn & _).
  assert (Hin : In c (List.filter (usable detection)
                        (sort_by_priority (List.filter enabled (providerConfigs s'))))).
  { rewrite Hf. apply in_or_app. right. left. reflexivity. }
  apply List.filter_In in Hin. destruct Hin as [Hin _].
  apply (proj1 (sort_by_priority_In _ _)) in Hin. apply List.filter_In in Hin.
  destruct Hin as [Hin Hen]. rewrite Hc1 in Hin. simpl in Hin.
  intros Hp. rewrite Hn in Hp.
  rewrite (update_configs_disabled n (providerConfigs s) c Hone Hin Hp) in Hen.
  discriminate.
Qed.

End ManagerFurther.

(** ** Instances on the sample services *)

Lemma setActiveProvider_cleans_before_initialize_witness :
  let s := after [AutoSelectProvider] (boot ollama_beside_empty_lmstudio) in
  exists r s',
    fst (initialize (the_instance lmstudio s)
           (snd (cleanup (mkInstance ollama 1)
                   (snd (getStatus (the_instance lmstudio s) (world s)))))) = r /\
    setActiveProvider lmstudio s = (r, s') /\
    calls s' = calls s ++
      [ mkCall (the_instance lmstudio s) MGetStatus true (Some (mkInstance ollama 1));
        mkCall (mkInstance ollama 1) MCleanup true (Some (mkInstance ollama 1));
        mkCall (the_instance lmstudio s) MInitialize (is_ok r) (Some (mkInstance ollama 1)) ] /\
    activeProvider s' = if is_ok r then Some (the_instance lmstudio s)
                        else Some (mkInstance ollama 1).
Proof.
  intros s.
  refine (setActiveProvider_cleans_before_initialize lmstudio s
            (mkProviderStatus true true (Some "No models loaded")
               (Some LMStudioProvider.baseUrl) None (Some 0%Z))
            (mkInstance ollama 1) _ _ _ _ _).
  - vm_compute. reflexivity.
  - reflexivity.
  - vm_compute. reflexivity.
  - intros E. vm_compute in E. discriminate E.
  - vm_compute. reflexivity.
Defined.

Lemma disabled_provider_not_selected_witness :
  let s := new_manager (boot local_running) in
  registry_ok s = true /\
  length (List.filter (fun c => bool_decide (name c = ollama)) (providerConfigs s)) <= 1 /\
  exists s1 d1 r s2,
    updateProviderConfig ollama (mkUpdates None (Some false) None) (s, fresh_disk)
    = (Ok tt, (s1, d1)) /\
    autoSelectProvider s1 = (Ok r, s2) /\
    forall p, r = Some p -> inst_name p <> ollama.
Proof.
  intros s.
  assert (H1 : registry_ok s = true) by reflexivity.
  assert (H2 : length (List.filter (fun c => bool_decide (name c = ollama))
                         (providerConfigs s)) <= 1) by (vm_compute; lia).
  split; [exact H1|]. split; [exact H2|].
  exact (disabled_provider_not_selected ollama s fresh_disk H1 H2).
Defined.

Lemma findModels_narrows_witness :
  includes (ascii_lowercase "Zephyr-7B") (ascii_lowercase "ZEPHYR") = true /\
  exists found fewer s',
    findModels ascii_lowercase "ZEPHYR" ollama_preferred = (Ok found, s') /\
    findModels ascii_lowercase "Zephyr-7B" ollama_preferred = (Ok fewer, s') /\
    fewer = List.filter (matches_query ascii_lowercase (ascii_lowercase "Zephyr-7B")) found /\
    forall model, In model fewer -> In model found.
Proof.
  split; [reflexivity|].
  exact (findModels_narrows ascii_lowercase "ZEPHYR" "Zephyr-7B" ollama_preferred eq_refl).
Defined.
